(** * Cleaning and validation engine of the REIT / Climate / Dataset2 pipelines

    A shallow embedding of the three cleaning scripts
    ([fetch_REIT_data.py], [fetch_Climate_data.py], [fetch_dataset2_data.py]):
    missing-value handling, outlier treatment, deduplication, the filter
    chains and the final validation, over a small model of the pandas,
    numpy and scipy objects they manipulate.

    Conventions of the model
    - a [float64] cell is NaN, an infinity or a finite number, held as a
      rational; ratios, medians, quantiles and the bounds built from them
      are computed exactly, the special values follow IEEE 754;
    - means, standard deviations and z-scores are computed in binary64
      (module [B64]: round to nearest even, numpy's order of summation),
      each cell entering as the binary64 nearest to its value: what a
      z-score does on a column without spread is decided by rounding;
    - [df[col].fillna(v, inplace=True)] reaches the frame or a temporary
      copy depending on the pandas version ([chained_fill]); both are
      modelled;
    - a [DataFrame] is a row index plus an ordered list of named, typed
      columns; boolean indexing is positional, with masks computed from
      the frame's own columns;
    - a Python exception is the [Raised] branch of [outcome]; what a
      function prints is returned next to its result where a property
      speaks about it;
    - [pd.to_datetime] is a parameter of the filter chains: the properties
      hold for every parser, the examples use ISO dates;
    - file loading and saving are left out: a pipeline starts from the
      loaded frame and ends with the frame handed to the writer. *)

From Stdlib Require Import String Ascii.
From Stdlib Require Import List Bool Arith ZArith QArith Qround Lia Lqa.
From Stdlib Require Import SpecFloat.
Import ListNotations.
Open Scope string_scope.
Open Scope list_scope.

Set Implicit Arguments.

(* ================================================================== *)
(** ** Exceptions *)

Inductive exn : Type :=
| ValueError (msg : string)
| TypeError (msg : string)
| KeyError (key : string)
| IndexError (msg : string)
| ParserError (msg : string).

Inductive outcome (A : Type) : Type :=
| Returned (a : A)
| Raised (e : exn).

Arguments Returned {A} a.
Arguments Raised {A} e.

Definition bind {A B : Type} (m : outcome A) (k : A -> outcome B) : outcome B :=
  match m with
  | Returned a => k a
  | Raised e => Raised e
  end.

Notation "x <- m ;; k" := (bind m (fun x => k))
  (at level 61, m at next level, right associativity).
Notation "' p <- m ;; k" := (bind m (fun x => match x with p => k end))
  (at level 61, p pattern, m at next level, right associativity).

(** a [for] loop whose body may raise *)
Fixpoint for_each {S X : Type} (body : S -> X -> outcome S) (xs : list X) (s : S)
  : outcome S :=
  match xs with
  | [] => Returned s
  | x :: xs' => s' <- body s x ;; for_each body xs' s'
  end.

(* ================================================================== *)
(** ** float64 values *)

Inductive float : Type :=
| NaN
| NInf
| Fin (q : Q)
| PInf.

Module Float.

Definition Qlt_bool (a b : Q) : bool := negb (Qle_bool b a).

Definition isnan (x : float) : bool :=
  match x with NaN => true | _ => false end.

Definition isfinite (x : float) : bool :=
  match x with Fin _ => true | _ => false end.

Definition of_Z (z : Z) : float := Fin (inject_Z z).

Definition opp (x : float) : float :=
  match x with
  | NaN => NaN
  | NInf => PInf
  | PInf => NInf
  | Fin q => Fin (- q)
  end.

Definition add (x y : float) : float :=
  match x, y with
  | NaN, _ | _, NaN => NaN
  | PInf, NInf | NInf, PInf => NaN
  | PInf, _ | _, PInf => PInf
  | NInf, _ | _, NInf => NInf
  | Fin a, Fin b => Fin (a + b)
  end.

Definition sub (x y : float) : float := add x (opp y).

(** sign of a finite operand, used by the infinite cases of [mul]/[div] *)
Definition scale_inf (positive : bool) (q : Q) : float :=
  if Qeq_bool q 0 then NaN
  else if Bool.eqb positive (Qlt_bool 0 q) then PInf else NInf.

Definition mul (x y : float) : float :=
  match x, y with
  | NaN, _ | _, NaN => NaN
  | Fin a, Fin b => Fin (a * b)
  | PInf, Fin q | Fin q, PInf => scale_inf true q
  | NInf, Fin q | Fin q, NInf => scale_inf false q
  | PInf, PInf | NInf, NInf => PInf
  | PInf, NInf | NInf, PInf => NInf
  end.

(** numpy division: no exception on a zero divisor, [0/0] is NaN and
    [x/0] an infinity. *)
Definition div (x y : float) : float :=
  match x, y with
  | NaN, _ | _, NaN => NaN
  | Fin a, Fin b =>
      if Qeq_bool b 0
      then (if Qeq_bool a 0 then NaN else if Qlt_bool 0 a then PInf else NInf)
      else Fin (a / b)
  | Fin _, (PInf | NInf) => Fin 0
  | PInf, Fin b => if Qlt_bool b 0 then NInf else PInf
  | NInf, Fin b => if Qlt_bool b 0 then PInf else NInf
  | (PInf | NInf), (PInf | NInf) => NaN
  end.

(** Comparisons: every comparison with NaN is false. *)
Definition ltb (x y : float) : bool :=
  match x, y with
  | NaN, _ | _, NaN => false
  | NInf, NInf => false
  | NInf, _ => true
  | _, NInf => false
  | PInf, _ => false
  | Fin _, PInf => true
  | Fin a, Fin b => Qlt_bool a b
  end.

Definition leb (x y : float) : bool :=
  match x, y with
  | NaN, _ | _, NaN => false
  | NInf, _ => true
  | _, NInf => false
  | _, PInf => true
  | PInf, Fin _ => false
  | Fin a, Fin b => Qle_bool a b
  end.

Definition gtb (x y : float) : bool := ltb y x.
Definition geb (x y : float) : bool := leb y x.

Definition eqb (x y : float) : bool :=
  match x, y with
  | NInf, NInf | PInf, PInf => true
  | Fin a, Fin b => Qeq_bool a b
  | _, _ => false
  end.

(** Equality of stored values, as hashing and grouping see it: like [eqb]
    but a missing value matches a missing value. *)
Definition same (x y : float) : bool :=
  match x, y with
  | NaN, NaN => true
  | _, _ => eqb x y
  end.

(** The order numpy sorts by: NaN after everything else. *)
Definition sort_leb (x y : float) : bool :=
  match x, y with
  | _, NaN => true
  | NaN, _ => false
  | _, _ => leb x y
  end.

End Float.

(* ================================================================== *)
(** ** Lists: boolean indexing, stable sorting, positional assignment *)

Section ListOps.
Variable A : Type.

(** [l[mask]]: the elements whose mask entry is true, in order. *)
Fixpoint mask_filter (m : list bool) (l : list A) : list A :=
  match m, l with
  | b :: m', x :: l' => if b then x :: mask_filter m' l' else mask_filter m' l'
  | _, _ => []
  end.

Variable le : A -> A -> bool.

Fixpoint insert_sorted (x : A) (l : list A) : list A :=
  match l with
  | [] => [x]
  | y :: l' => if le x y then x :: l else y :: insert_sorted x l'
  end.

Definition sort (l : list A) : list A := fold_right insert_sorted [] l.

(** [a[p] = v] for every position [p] of [ps]. *)
Definition assign (ps : list nat) (v : A) (a : list A) : list A :=
  map (fun ix => if existsb (Nat.eqb (fst ix)) ps then v else snd ix)
      (combine (seq 0 (length a)) a).
End ListOps.

(** [mask.sum()] *)
Definition count_true (m : list bool) : nat := length (filter (fun b => b) m).

(** [a.argsort()]: positions of [a] in ascending order of value (ties in
    position order; the values read through it do not depend on how ties
    are broken). *)
Definition argsort (A : Type) (le : A -> A -> bool) (a : list A) : list nat :=
  map snd (sort (fun x y => le (fst x) (fst y)) (combine a (seq 0 (length a)))).

(** [int(x)] for a non-negative product of a limit and a count *)
Definition int (x : Q) : nat := Z.to_nat (Qfloor x).

Definition Q_of_nat (n : nat) : Q := inject_Z (Z.of_nat n).

(* ================================================================== *)
(** ** Column statistics (numpy / pandas / scipy) *)

Module Stats.

Definition dropna (xs : list float) : list float :=
  filter (fun x => negb (Float.isnan x)) xs.

Definition of_nat (n : nat) : float := Fin (Q_of_nat n).

(** [Series.median()]: middle of the sorted non-missing values, the mean of
    the two middle ones for an even count, NaN when there is none. *)
Definition median (xs : list float) : float :=
  let s := sort Float.sort_leb (dropna xs) in
  let n := length s in
  if (n =? 0)%nat then NaN
  else if Nat.even n
       then Float.div (Float.add (nth (n / 2 - 1) s NaN) (nth (n / 2) s NaN)) (Fin 2)
       else nth (n / 2) s NaN.

(** [Series.quantile(q)], linear interpolation between the two closest
    ranks of the sorted non-missing values. *)
Definition quantile (q : Q) (xs : list float) : float :=
  let s := sort Float.sort_leb (dropna xs) in
  let n := length s in
  if (n =? 0)%nat then NaN
  else let pos := (q * Q_of_nat (n - 1))%Q in
       let lo := int pos in
       let hi := Nat.min (lo + 1) (n - 1) in
       let frac := (pos - Q_of_nat lo)%Q in
       let a := nth lo s NaN in
       let b := nth hi s NaN in
       Float.add a (Float.mul (Float.sub b a) (Fin frac)).

End Stats.

(* ================================================================== *)
(** ** Binary64 arithmetic (numpy and pandas reductions) *)

Module B64.

Definition prec : Z := 53.
Definition emax : Z := 1024.

Definition t : Type := spec_float.

Definition nan : t := S754_nan.
Definition zero : t := S754_zero false.

Definition add : t -> t -> t := SFadd prec emax.
Definition sub : t -> t -> t := SFsub prec emax.
Definition mul : t -> t -> t := SFmul prec emax.
Definition div : t -> t -> t := SFdiv prec emax.
Definition sqrt : t -> t := SFsqrt prec emax.
Definition abs : t -> t := SFabs.
Definition ltb : t -> t -> bool := SFltb.
Definition eqb : t -> t -> bool := SFeqb.

Definition isnan (x : t) : bool :=
  match x with S754_nan => true | _ => false end.

Definition is_zero (x : t) : bool :=
  match x with S754_zero _ => true | _ => false end.

Definition of_Z (z : Z) : t := binary_normalize prec emax z 0 false.

Definition of_nat (n : nat) : t := of_Z (Z.of_nat n).

(** the binary64 nearest to a rational: the correctly rounded quotient of
    its numerator and denominator *)
Definition of_Q (q : Q) : t :=
  match Qnum q with
  | Z0 => zero
  | Zpos n => div (S754_finite false n 0) (S754_finite false (Qden q) 0)
  | Zneg n => div (S754_finite true n 0) (S754_finite false (Qden q) 0)
  end.

Definition of_float (x : float) : t :=
  match x with
  | NaN => nan
  | NInf => S754_infinity true
  | PInf => S754_infinity false
  | Fin q => of_Q q
  end.

(** numpy's [pairwise_sum] over a contiguous array: fewer than eight
    values are added in sequence; up to 128 values go round-robin into
    eight partial sums, which are added as a balanced tree, the values
    left over being added in sequence; a longer array is cut near its
    middle, at a multiple of eight, and the sums of the two parts are
    added. *)
Fixpoint sum8 (r0 r1 r2 r3 r4 r5 r6 r7 : t) (xs : list t) : t :=
  match xs with
  | a0 :: a1 :: a2 :: a3 :: a4 :: a5 :: a6 :: a7 :: rest =>
      sum8 (add r0 a0) (add r1 a1) (add r2 a2) (add r3 a3)
           (add r4 a4) (add r5 a5) (add r6 a6) (add r7 a7) rest
  | _ =>
      fold_left add xs
        (add (add (add r0 r1) (add r2 r3)) (add (add r4 r5) (add r6 r7)))
  end.

Definition block_sum (xs : list t) : t :=
  match xs with
  | a0 :: a1 :: a2 :: a3 :: a4 :: a5 :: a6 :: a7 :: rest =>
      sum8 a0 a1 a2 a3 a4 a5 a6 a7 rest
  | _ => fold_left add xs zero
  end.

(** [fuel] bounds the depth of the cuts; the length of the array is
    enough, each part being shorter than the whole *)
Fixpoint pairwise_sum (fuel : nat) (xs : list t) : t :=
  let n := length xs in
  if (n <=? 128)%nat then block_sum xs
  else match fuel with
       | O => block_sum xs
       | S fuel' =>
           let n2 := (n / 2 - (n / 2) mod 8)%nat in
           add (pairwise_sum fuel' (firstn n2 xs))
               (pairwise_sum fuel' (skipn n2 xs))
       end.

(** [a.sum()]: the reduction starts from the identity *)
Definition sum (xs : list t) : t := add zero (pairwise_sum (length xs) xs).

(** [np.mean(a)] *)
Definition mean (xs : list t) : t := div (sum xs) (of_nat (length xs)).

(** [np.std(a, ddof=ddof)]: the mean of the squared deviations from the
    mean, over [max(n - ddof, 0)], and its square root *)
Definition std (ddof : nat) (xs : list t) : t :=
  let arrmean := mean xs in
  let x := map (fun a => sub a arrmean) xs in
  sqrt (div (sum (map (fun d => mul d d) x)) (of_nat (length xs - ddof))).

(** the number of values pandas counts in a reduction that skips NaN *)
Definition count (xs : list t) : nat :=
  length (filter (fun x => negb (isnan x)) xs).

(** [Series.mean()] (pandas [nanmean]): NaN counts for nothing and is
    summed as 0; NaN when nothing is left *)
Definition nanmean (xs : list t) : t :=
  let values := map (fun x => if isnan x then zero else x) xs in
  if (0 <? count xs)%nat then div (sum values) (of_nat (count xs)) else nan.

(** [Series.std()] (pandas [nanstd], [ddof = 1] by default): two passes,
    the squares of [avg - values] summed with 0 at the missing places;
    NaN when the count does not exceed [ddof] *)
Definition nanstd (ddof : nat) (xs : list t) : t :=
  let values := map (fun x => if isnan x then zero else x) xs in
  if (count xs <=? ddof)%nat then nan
  else
    let avg := div (sum values) (of_nat (count xs)) in
    let sqr := map (fun x => if isnan x then zero
                             else let d := sub avg x in mul d d) xs in
    sqrt (div (sum sqr) (of_nat (count xs - ddof))).

(** [scipy.stats.zscore(a)] with its defaults ([ddof = 0], NaN
    propagated): an empty array comes back empty; an array whose values
    all equal the first one gets NaN throughout; otherwise
    [(a - a.mean()) / a.std()] *)
Definition zscore (xs : list t) : list t :=
  match xs with
  | [] => []
  | first :: _ =>
      let mn := mean xs in
      let sd := std 0 xs in
      if forallb (eqb first) xs then map (fun _ => nan) xs
      else map (fun x => div (sub x mn) sd) xs
  end.

End B64.

(* ================================================================== *)
(** ** Timestamps *)

Record Timestamp : Type := mkTimestamp
  { year : Z; month : Z; day : Z; nanos : Z }.

Module Time.

Definition eqb (a b : Timestamp) : bool :=
  (year a =? year b)%Z && (month a =? month b)%Z
  && (day a =? day b)%Z && (nanos a =? nanos b)%Z.

Definition ltb (a b : Timestamp) : bool :=
  (year a <? year b)%Z
  || ((year a =? year b)%Z
      && ((month a <? month b)%Z
          || ((month a =? month b)%Z
              && ((day a <? day b)%Z
                  || ((day a =? day b)%Z && (nanos a <? nanos b)%Z))))).

Definition leb (a b : Timestamp) : bool := ltb a b || eqb a b.

(** midnight of a calendar day, what a date string such as ["2000-01-01"]
    denotes when compared with a datetime column *)
Definition date (y m d : Z) : Timestamp := mkTimestamp y m d 0.

End Time.

(* ================================================================== *)
(** ** Series: one typed column *)

Inductive Series : Type :=
| Float64 (xs : list float)                  (* missing = NaN *)
| Int64 (xs : list Z)                        (* never missing *)
| Object (xs : list (option string))         (* missing = None *)
| Datetime64 (xs : list (option Timestamp)). (* missing = NaT *)

(** One stored value, as row-wise operations see it. *)
Inductive cell : Type :=
| CFloat (x : float)
| CInt (z : Z)
| CStr (s : string)
| CTime (t : Timestamp)
| CNone.

Module Cell.

Definition isnull (c : cell) : bool :=
  match c with
  | CFloat x => Float.isnan x
  | CNone => true
  | _ => false
  end.

(** equality of stored values; two missing values are equal *)
Definition same (a b : cell) : bool :=
  match a, b with
  | CFloat x, CFloat y => Float.same x y
  | CInt x, CInt y => (x =? y)%Z
  | CStr x, CStr y => String.eqb x y
  | CTime x, CTime y => Time.eqb x y
  | CNone, CNone => true
  | _, _ => false
  end.

(** [==] against a number: false on anything that is not that number *)
Definition eq_number (v : Q) (c : cell) : bool :=
  match c with
  | CFloat x => Float.eqb x (Fin v)
  | CInt z => Qeq_bool (inject_Z z) v
  | _ => false
  end.

End Cell.

Section OptionColumns.
Variable A : Type.
Variable eqb : A -> A -> bool.
Variable ltb : A -> A -> bool.

Definition present (xs : list (option A)) : list A :=
  flat_map (fun o => match o with Some a => [a] | None => [] end) xs.

Definition occurrences (x : A) (l : list A) : nat :=
  List.length (filter (eqb x) l).

(** [mode()[0]] when [mode()] is not empty: among the most frequent
    values, the smallest one ([mode()] comes back sorted). *)
Definition mode_of (l : list A) : option A :=
  fold_left
    (fun best x =>
       match best with
       | None => Some x
       | Some b =>
           if (occurrences b l <? occurrences x l)%nat
              || ((occurrences b l =? occurrences x l)%nat && ltb x b)
           then Some x else Some b
       end)
    l None.

Definition fill (v : A) (xs : list (option A)) : list (option A) :=
  map (fun o => match o with Some a => Some a | None => Some v end) xs.
End OptionColumns.

Module Ser.

Definition len (s : Series) : nat :=
  match s with
  | Float64 xs => List.length xs
  | Int64 xs => List.length xs
  | Object xs => List.length xs
  | Datetime64 xs => List.length xs
  end.

Definition cells (s : Series) : list cell :=
  match s with
  | Float64 xs => map CFloat xs
  | Int64 xs => map CInt xs
  | Object xs => map (fun o => match o with Some v => CStr v | None => CNone end) xs
  | Datetime64 xs => map (fun o => match o with Some v => CTime v | None => CNone end) xs
  end.

Definition isnull (s : Series) : list bool := map Cell.isnull (cells s).
Definition notna (s : Series) : list bool := map (fun c => negb (Cell.isnull c)) (cells s).

(** [s[mask]] *)
Definition take (m : list bool) (s : Series) : Series :=
  match s with
  | Float64 xs => Float64 (mask_filter m xs)
  | Int64 xs => Int64 (mask_filter m xs)
  | Object xs => Object (mask_filter m xs)
  | Datetime64 xs => Datetime64 (mask_filter m xs)
  end.

(** [np.number] dtypes *)
Definition is_numeric (s : Series) : bool :=
  match s with
  | Float64 _ | Int64 _ => true
  | _ => false
  end.

Definition is_datetime (s : Series) : bool :=
  match s with Datetime64 _ => true | _ => false end.

(** the values of a numeric column as floats *)
Definition floats (s : Series) : list float :=
  match s with
  | Float64 xs => xs
  | Int64 xs => map Float.of_Z xs
  | _ => []
  end.

(** the values of a numeric column as the binary64 numbers numpy computes
    with *)
Definition b64 (s : Series) : list B64.t := map B64.of_float (floats s).

Definition fillna_float (v : float) (xs : list float) : list float :=
  map (fun x => if Float.isnan x then v else x) xs.

(** an ordering comparison of a column with a number; ordering a string or
    a timestamp against a number is a [TypeError] *)
Definition compare_number (op : float -> float -> bool) (v : Q) (s : Series)
  : outcome (list bool) :=
  match s with
  | Float64 xs => Returned (map (fun x => op x (Fin v)) xs)
  | Int64 xs => Returned (map (fun z => op (Float.of_Z z) (Fin v)) xs)
  | Object xs =>
      if forallb (fun o => match o with None => true | Some _ => false end) xs
      then Returned (map (fun _ => false) xs)
      else Raised (TypeError "not supported between instances of 'str' and 'int'")
  | Datetime64 _ =>
      Raised (TypeError "Invalid comparison between dtype=datetime64[ns] and int")
  end.

(** [np.isfinite(s)] *)
Definition isfinite (s : Series) : outcome (list bool) :=
  match s with
  | Float64 xs => Returned (map Float.isfinite xs)
  | Int64 xs => Returned (map (fun _ => true) xs)
  | Datetime64 xs =>
      Returned (map (fun o => match o with Some _ => true | None => false end) xs)
  | Object _ => Raised (TypeError "ufunc 'isfinite' not supported for the input types")
  end.

End Ser.

(* ================================================================== *)
(** ** DataFrame *)

Record DataFrame : Type := mkDataFrame
  { index : list nat;
    columns : list (string * Series) }.

Module DF.

Definition len (df : DataFrame) : nat := List.length (index df).
Definition ncols (df : DataFrame) : nat := List.length (columns df).
Definition names (df : DataFrame) : list string := map fst (columns df).

(** [df.empty]: some axis has length zero *)
Definition empty (df : DataFrame) : bool :=
  (len df =? 0)%nat || (ncols df =? 0)%nat.

Fixpoint lookup (c : string) (cols : list (string * Series)) : option Series :=
  match cols with
  | [] => None
  | (n, s) :: rest => if String.eqb c n then Some s else lookup c rest
  end.

(** [df[c]] *)
Definition getitem (df : DataFrame) (c : string) : option Series :=
  lookup c (columns df).

(** [c in df.columns] *)
Definition has (df : DataFrame) (c : string) : bool :=
  match getitem df c with Some _ => true | None => false end.

Fixpoint update (c : string) (v : Series) (cols : list (string * Series))
  : list (string * Series) :=
  match cols with
  | [] => [(c, v)]
  | (n, s) :: rest =>
      if String.eqb c n then (n, v) :: rest else (n, s) :: update c v rest
  end.

(** [df[c] = v]: replaces the column, or appends a new last column *)
Definition setitem (df : DataFrame) (c : string) (v : Series) : DataFrame :=
  mkDataFrame (index df) (update c v (columns df)).

(** [df.drop(columns=cs)] *)
Definition drop (df : DataFrame) (cs : list string) : DataFrame :=
  mkDataFrame (index df)
    (filter (fun col => negb (existsb (String.eqb (fst col)) cs)) (columns df)).

(** [df[mask]]: boolean row selection *)
Definition loc (df : DataFrame) (m : list bool) : DataFrame :=
  mkDataFrame (mask_filter m (index df))
    (map (fun col => (fst col, Ser.take m (snd col))) (columns df)).

(** [df.select_dtypes(include=[np.number]).columns] *)
Definition numeric_cols (df : DataFrame) : list string :=
  map fst (filter (fun col => Ser.is_numeric (snd col)) (columns df)).

(** the rows, top to bottom, each the cells of the columns left to right *)
Fixpoint transpose (n : nat) (cols : list (list cell)) : list (list cell) :=
  match n with
  | O => []
  | S n' => map (fun c => hd CNone c) cols :: transpose n' (map (@tl cell) cols)
  end.

Definition rows (df : DataFrame) : list (list cell) :=
  transpose (len df) (map (fun col => Ser.cells (snd col)) (columns df)).

Fixpoint row_same (a b : list cell) : bool :=
  match a, b with
  | [], [] => true
  | x :: a', y :: b' => Cell.same x y && row_same a' b'
  | _, _ => false
  end.

(** marks every row equal to a row already seen *)
Fixpoint seen_before (seen : list (list cell)) (rs : list (list cell)) : list bool :=
  match rs with
  | [] => []
  | r :: rs' => existsb (row_same r) seen :: seen_before (r :: seen) rs'
  end.

(** [df.duplicated()] (keep='first'); an empty frame yields an empty mask *)
Definition duplicated (df : DataFrame) : list bool :=
  if empty df then [] else seen_before [] (rows df).

(** [df.drop_duplicates(keep='first')] *)
Definition drop_duplicates (df : DataFrame) : DataFrame :=
  if empty df then df else loc df (map negb (duplicated df)).

(** every column is as long as the index *)
Definition aligned (df : DataFrame) : Prop :=
  Forall (fun col => Ser.len (snd col) = len df) (columns df).

(** column labels are unique and every column is as long as the index *)
Definition wf (df : DataFrame) : Prop := NoDup (names df) /\ aligned df.

(** row [i] *)
Definition row (df : DataFrame) (i : nat) : list cell := nth i (rows df) [].

End DF.

(** [a & b] on boolean masks *)
Fixpoint mask_and (a b : list bool) : list bool :=
  match a, b with
  | x :: a', y :: b' => (x && y) :: mask_and a' b'
  | _, _ => []
  end.

Fixpoint mask_or (a b : list bool) : list bool :=
  match a, b with
  | x :: a', y :: b' => (x || y) :: mask_or a' b'
  | _, _ => []
  end.

(* ================================================================== *)
(** ** scipy.stats.mstats.winsorize *)

Section Winsorize.
Variable A : Type.
Variable le : A -> A -> bool.

Definition item (a : list A) (idx : list nat) (k : nat) : outcome A :=
  match nth_error idx k with
  | None => Raised (IndexError "index out of bounds")
  | Some p =>
      match nth_error a p with
      | Some v => Returned v
      | None => Raised (IndexError "index out of bounds")
      end
  end.

(** [_winsorize1D] with both limits inclusive and NaN propagated: the
    [int(low*n)] lowest-ranked entries take the value ranked just above
    them, the [int(n*up)] highest-ranked the value ranked just below. *)
Definition winsorize1D (a : list A) (low_limit up_limit : Q) : outcome (list A) :=
  let n := List.length a in
  let idx := argsort le a in
  a1 <- (if Qeq_bool low_limit 0 then Returned a
         else let lowidx := int (low_limit * Q_of_nat n) in
              v <- item a idx lowidx ;;
              Returned (assign (firstn lowidx idx) v a)) ;;
  let upidx := (n - int (Q_of_nat n * up_limit))%nat in
  match upidx with
  | O => v <- item a1 (rev idx) 0 ;; Returned (assign idx v a1)   (* idx[-1] *)
  | S k => v <- item a1 idx k ;; Returned (assign (skipn upidx idx) v a1)
  end.
End Winsorize.

Definition winsorize (s : Series) (limits : Q * Q) : outcome Series :=
  match s with
  | Float64 xs =>
      r <- winsorize1D Float.sort_leb xs (fst limits) (snd limits) ;; Returned (Float64 r)
  | Int64 xs =>
      r <- winsorize1D Z.leb xs (fst limits) (snd limits) ;; Returned (Int64 r)
  | _ => Raised (TypeError "cannot winsorize a non-numeric column")
  end.

(* ================================================================== *)
(** ** Shared by the three scripts *)

(** what a filter prints: its label and, when it prints one, the number of
    rows it says it removed *)
Record filter_report : Type := mkReport
  { label : string; removed : option Z }.

(** What [df[col].fillna(v, inplace=True)] does to [df]. The call fills the
    series that [df[col]] returns: without copy-on-write (the default of
    pandas 1 and 2) that series shares its values with the frame and the
    fill reaches the column; with copy-on-write (pandas 3) it is a temporary
    and the frame keeps its missing values. The scripts pin no pandas version,
    so the behaviour is an argument of what uses such a fill. *)
Inductive chained_fill : Type := WritesThrough | ActsOnCopy.

(** the stages of a pipeline run, in the order [main] calls them *)
Inductive stage : Type :=
| MissingValues | Outliers | Duplicates | Filters | Validation | Save.

(** [.dt.year]: integers, or floats with NaN where the timestamp is NaT *)
Definition dt_year (ts : list (option Timestamp)) : Series :=
  if forallb (fun o => match o with Some _ => true | None => false end) ts
  then Int64 (flat_map (fun o => match o with Some t => [year t] | None => [] end) ts)
  else Float64 (map (fun o => match o with
                              | Some t => Float.of_Z (year t)
                              | None => NaN
                              end) ts).

(** [missing_pct]: per column, nulls over row count (NaN on an empty frame) *)
Definition missing_ratio (df : DataFrame) (s : Series) : float :=
  Float.div (Stats.of_nat (count_true (Ser.isnull s))) (Stats.of_nat (DF.len df)).

(* ================================================================== *)
(** ** fetch_REIT_data.py *)

Module REIT.

Definition MISSING_VALUE_THRESHOLD : Q := 5 # 10.
Definition OUTLIER_METHOD : string := "iqr".
Definition OUTLIER_THRESHOLD : Q := 15 # 10.
Definition WINSORIZE_LIMITS : Q * Q := (5 # 100, 5 # 100).
Definition MIN_ASSETS : Q := 100.
Definition START_YEAR : Q := 2000.
Definition END_YEAR : Q := 2024.

Record missing_summary : Type := mkMissingSummary
  { rows_before : nat; cols_before : nat;
    rows_after : nat; cols_after : nat; cols_dropped : nat }.

(** the value imputed into a column and the column after [fillna]:
    median for float64/int64 (an int64 column has nothing to fill),
    otherwise most frequent value or ["Unknown"], which turns an all-NaT
    datetime column into an object column *)
Definition impute (s : Series) : Series :=
  match s with
  | Float64 xs => Float64 (Ser.fillna_float (Stats.median xs) xs)
  | Int64 xs => Int64 xs
  | Object xs =>
      let impute_val :=
        match mode_of String.eqb String.ltb (present xs) with
        | Some v => v
        | None => "Unknown"
        end in
      Object (fill impute_val xs)
  | Datetime64 xs =>
      match mode_of Time.eqb Time.ltb (present xs) with
      | Some t => Datetime64 (fill t xs)
      | None => Object (map (fun _ => Some "Unknown") xs)
      end
  end.

Definition impute_step (df : DataFrame) (col : string) : outcome DataFrame :=
  match DF.getitem df col with
  | None => Raised (KeyError col)
  | Some s =>
      if (0 <? count_true (Ser.isnull s))%nat
      then Returned (DF.setitem df col (impute s))
      else Returned df
  end.

(** Steps 1-2: the columns whose missing ratio exceeds the threshold *)
Definition cols_to_drop (df : DataFrame) (threshold : Q) : list string :=
  map fst (filter (fun col => Float.gtb (missing_ratio df (snd col)) (Fin threshold))
                  (columns df)).

Definition drop_excessive (df : DataFrame) (threshold : Q) : DataFrame :=
  if (0 <? List.length (cols_to_drop df threshold))%nat
  then DF.drop df (cols_to_drop df threshold)
  else df.

Definition clean_missing_values (df : DataFrame) (threshold : Q)
  : outcome (DataFrame * missing_summary) :=
  let rows0 := DF.len df in
  let cols0 := DF.ncols df in
  let df1 := drop_excessive df threshold in
  (* Step 3: impute what is left *)
  df2 <- for_each impute_step (DF.names df1) df1 ;;
  Returned (df2, mkMissingSummary rows0 cols0 (DF.len df2) (DF.ncols df2)
                   (List.length (cols_to_drop df threshold))).

(** values outside [Q1 - k * IQR, Q3 + k * IQR]; the quartiles and the two
    bounds are computed exactly *)
Definition identify_outliers_iqr (series : Series) (k : Q) : list bool :=
  let xs := Ser.floats series in
  let Q1 := Stats.quantile (25 # 100) xs in
  let Q3 := Stats.quantile (75 # 100) xs in
  let IQR := Float.sub Q3 Q1 in
  let lower_bound := Float.sub Q1 (Float.mul (Fin k) IQR) in
  let upper_bound := Float.add Q3 (Float.mul (Fin k) IQR) in
  mask_or (map (fun x => Float.ltb x lower_bound) xs)
          (map (fun x => Float.gtb x upper_bound) xs).

(** [np.abs(stats.zscore(series)) > threshold]; the z-scores computed
    first from [series.dropna()] are not used *)
Definition identify_outliers_zscore (series : Series) (threshold : Q) : list bool :=
  let z := B64.zscore (Ser.b64 series) in
  map (fun x => B64.ltb (B64.of_Q threshold) (B64.abs x)) z.

Record outlier_summary : Type := mkOutlierSummary
  { outliers_found : nat; columns_processed : nat }.

Definition outlier_step (method : string) (st : DataFrame * outlier_summary)
  (col : string) : outcome (DataFrame * outlier_summary) :=
  let (df, summary) := st in
  match DF.getitem df col with
  | None => Raised (KeyError col)
  | Some s =>
      outlier_mask <-
        (if String.eqb method "iqr"
         then Returned (identify_outliers_iqr s OUTLIER_THRESHOLD)
         else if String.eqb method "zscore"
         then Returned (identify_outliers_zscore s OUTLIER_THRESHOLD)
         else Raised (ValueError ("Unknown outlier method: " ++ method)%string)) ;;
      let outlier_count := count_true outlier_mask in
      if (0 <? outlier_count)%nat
      then w <- winsorize s WINSORIZE_LIMITS ;;
           Returned (DF.setitem df col w,
                     mkOutlierSummary (outliers_found summary + outlier_count)
                                      (columns_processed summary + 1))
      else Returned (df, summary)
  end.

(** [numeric_only] is left at its default, the only value the script uses *)
Definition handle_outliers (df : DataFrame) (method : string)
  : outcome (DataFrame * outlier_summary) :=
  for_each (outlier_step method) (DF.numeric_cols df) (df, mkOutlierSummary 0 0).

Record duplicate_summary : Type := mkDuplicateSummary
  { dup_rows_before : nat; duplicates_found : nat; dup_rows_after : nat }.

Definition remove_duplicates (df : DataFrame) : DataFrame * duplicate_summary :=
  let found := count_true (DF.duplicated df) in
  let df' := if (0 <? found)%nat then DF.drop_duplicates df else df in
  (df', mkDuplicateSummary (DF.len df) found (DF.len df')).

Record filter_summary : Type := mkFilterSummary
  { f_rows_before : nat; f_rows_after : nat; filters_applied : list string }.

Definition notna_count (df : DataFrame) (c : string) : Z :=
  match DF.getitem df c with
  | Some s => Z.of_nat (count_true (Ser.notna s))
  | None => 0%Z
  end.

Section Filters.
(** [pd.to_datetime] on a column: the parsed timestamps, or an exception *)
Variable to_datetime : Series -> outcome (list (option Timestamp)).

(** FILTER 1: derive [year] from [date], keep START_YEAR..END_YEAR *)
Definition filter_year (df : DataFrame) : outcome DataFrame :=
  match DF.getitem df "date" with
  | None => Raised (KeyError "date")
  | Some d =>
      ts <- to_datetime d ;;
      let y := dt_year ts in
      let df := DF.setitem df "year" y in
      lo <- Ser.compare_number Float.geb START_YEAR y ;;
      hi <- Ser.compare_number Float.leb END_YEAR y ;;
      Returned (DF.loc df (mask_and lo hi))
  end.

(** FILTER 2: [assets >= MIN_ASSETS]; the count printed is the drop in
    non-null [assets] cells *)
Definition filter_assets (df : DataFrame) : outcome (DataFrame * Z) :=
  match DF.getitem df "assets" with
  | None => Raised (KeyError "assets")
  | Some a =>
      let valid_assets := notna_count df "assets" in
      m <- Ser.compare_number Float.geb MIN_ASSETS a ;;
      let df := DF.loc df m in
      Returned (df, (valid_assets - notna_count df "assets")%Z)
  end.

(** FILTER 3: non-null [usdret] *)
Definition filter_returns (df : DataFrame) : outcome (DataFrame * Z) :=
  match DF.getitem df "usdret" with
  | None => Raised (KeyError "usdret")
  | Some r =>
      let returns_before := notna_count df "usdret" in
      let df := DF.loc df (Ser.notna r) in
      Returned (df, (returns_before - notna_count df "usdret")%Z)
  end.

(** FILTER 4: non-null and positive [usdprc] *)
Definition filter_prices (df : DataFrame) : outcome (DataFrame * Z) :=
  match DF.getitem df "usdprc" with
  | None => Raised (KeyError "usdprc")
  | Some p =>
      let price_before := notna_count df "usdprc" in
      pos <- Ser.compare_number Float.gtb 0 p ;;
      let df := DF.loc df (mask_and (Ser.notna p) pos) in
      Returned (df, (price_before - notna_count df "usdprc")%Z)
  end.

(** FILTER 5: [rtype == 2.0]; the count printed is the drop in rows *)
Definition filter_rtype (df : DataFrame) : outcome (DataFrame * Z) :=
  match DF.getitem df "rtype" with
  | None => Raised (KeyError "rtype")
  | Some t =>
      let rtype_before := DF.len df in
      let df := DF.loc df (map (Cell.eq_number 2) (Ser.cells t)) in
      Returned (df, (Z.of_nat rtype_before - Z.of_nat (DF.len df))%Z)
  end.

Definition filter_state : Type := (DataFrame * list string * list filter_report)%type.

(** one guarded filter: skipped when its column is absent *)
Definition guarded (c name text : string)
  (f : DataFrame -> outcome (DataFrame * option Z)) (st : filter_state)
  : outcome filter_state :=
  let '(df, applied, printed) := st in
  if DF.has df c
  then '(df', n) <- f df ;;
       Returned (df', applied ++ [name], printed ++ [mkReport text n])
  else Returned st.

Definition counted (f : DataFrame -> outcome (DataFrame * Z)) (df : DataFrame)
  : outcome (DataFrame * option Z) :=
  '(df', n) <- f df ;; Returned (df', Some n).

Definition apply_filters (df : DataFrame)
  : outcome (DataFrame * filter_summary * list filter_report) :=
  let rows0 := DF.len df in
  st <- guarded "date" "year_filter_2000_2024" "Filter 1"
          (fun d => d' <- filter_year d ;; Returned (d', None)) (df, [], []) ;;
  st <- guarded "assets" "min_assets_100M" "Filter 2" (counted filter_assets) st ;;
  st <- guarded "usdret" "valid_returns" "Filter 3" (counted filter_returns) st ;;
  st <- guarded "usdprc" "valid_prices" "Filter 4" (counted filter_prices) st ;;
  st <- guarded "rtype" "rtype_2.0" "Filter 5" (counted filter_rtype) st ;;
  let '(df', applied, printed) := st in
  Returned (df', mkFilterSummary rows0 (DF.len df') applied, printed).

(** [main], from the loaded frame to the frame handed to the writer,
    with the stages that ran to completion; the outlier method is the
    module-level setting [OUTLIER_METHOD], taken here as an argument *)
Definition main (outlier_method : string) (raw : DataFrame)
  : list stage * outcome DataFrame :=
  match clean_missing_values raw MISSING_VALUE_THRESHOLD with
  | Raised e => ([], Raised e)
  | Returned (df1, _) =>
      match handle_outliers df1 outlier_method with
      | Raised e => ([MissingValues], Raised e)
      | Returned (df2, _) =>
          let (df3, _) := remove_duplicates df2 in
          match apply_filters df3 with
          | Raised e => ([MissingValues; Outliers; Duplicates], Raised e)
          | Returned (df4, _, _) =>
              ([MissingValues; Outliers; Duplicates; Filters; Save], Returned df4)
          end
      end
  end.
End Filters.

End REIT.

(* ================================================================== *)
(** ** Small string and grouping helpers *)

Definition lower_ascii (c : ascii) : ascii :=
  let n := nat_of_ascii c in
  if (65 <=? n)%nat && (n <=? 90)%nat then ascii_of_nat (n + 32) else c.

(** [s.lower()] on ASCII letters *)
Fixpoint lower (s : string) : string :=
  match s with
  | EmptyString => EmptyString
  | String c s' => String (lower_ascii c) (lower s')
  end.

(** [sub in s] *)
Fixpoint contains (sub s : string) : bool :=
  String.prefix sub s
  || match s with
     | EmptyString => false
     | String _ s' => contains sub s'
     end.

(** distinct values in order of first appearance *)
Fixpoint distinct (seen l : list cell) : list cell :=
  match l with
  | [] => []
  | c :: l' =>
      if existsb (Cell.same c) seen then distinct seen l'
      else c :: distinct (c :: seen) l'
  end.

(** [value_counts()]: the distinct non-null values with their counts *)
Definition value_counts (s : Series) : list (cell * nat) :=
  let vals := filter (fun c => negb (Cell.isnull c)) (Ser.cells s) in
  map (fun v => (v, List.length (filter (Cell.same v) vals))) (distinct [] vals).

Inductive level : Type := INFO | WARNING | ERROR.

Inductive message : Type :=
| NoNullsInCritical (cols : list string)
| NullsFound (counts : list (string * nat))
| FinalRows (n : nat)
| DatasetEmpty
| DtypeSummary.

(* ================================================================== *)
(** ** fetch_Climate_data.py *)

Module Climate.

Definition MIN_OBSERVATIONS : nat := 20.
Definition MISSING_THRESHOLD : Q := 6 # 10.
Definition MIN_STOCK_PRICE : Q := 1.
Definition START_DATE : Timestamp := Time.date 2000 1 1.
Definition END_DATE : Timestamp := Time.date 2024 12 31.
Definition REQUIRED_COLUMNS : list string :=
  ["date"; "ticker"; "stock_price"; "climate_score"; "returns"].

(** the series [df[col]] after [fillna(fill_value, inplace=True)] *)
Definition impute (s : Series) : Series :=
  match s with
  | Float64 xs => Float64 (Ser.fillna_float (Stats.median xs) xs)
  | Int64 xs => Int64 xs
  | Datetime64 xs =>
      match mode_of Time.eqb Time.ltb (present xs) with
      | Some t => Datetime64 (fill t xs)
      | None => Datetime64 xs          (* max() of an all-NaT column is NaT *)
      end
  | Object xs =>
      let fill_value :=
        match mode_of String.eqb String.ltb (present xs) with
        | Some v => v
        | None => "Unknown"
        end in
      Object (fill fill_value xs)
  end.

(** one turn of the imputation loop: the fill value is computed (no path
    of it raises) and the chained in-place fill reaches the frame or not *)
Definition impute_step (mode : chained_fill) (df : DataFrame) (col : string)
  : outcome DataFrame :=
  match DF.getitem df col with
  | None => Raised (KeyError col)
  | Some s =>
      if (0 <? count_true (Ser.isnull s))%nat
      then match mode with
           | WritesThrough => Returned (DF.setitem df col (impute s))
           | ActsOnCopy => Returned df
           end
      else Returned df
  end.

(** the columns whose missing percentage exceeds the threshold's *)
Definition cols_to_drop (df : DataFrame) (threshold : Q) : list string :=
  map fst (filter (fun col =>
                     Float.gtb (Float.mul (missing_ratio df (snd col)) (Fin 100))
                               (Fin (threshold * 100)))
                  (columns df)).

Definition drop_excessive (df : DataFrame) (threshold : Q) : DataFrame :=
  match cols_to_drop df threshold with
  | [] => df
  | _ => DF.drop df (cols_to_drop df threshold)
  end.

Definition clean_missing_values (mode : chained_fill) (df : DataFrame) (threshold : Q)
  : outcome DataFrame :=
  let df1 := drop_excessive df threshold in
  for_each (impute_step mode) (DF.names df1) df1.

(** [np.abs((s - s.mean()) / s.std()) > threshold]: mean and sample
    deviation ([ddof = 1]) of the non-missing values, with no guard on
    the deviation *)
Definition zscore_mask (s : Series) (threshold : Q) : list bool :=
  let xs := Ser.b64 s in
  let mean := B64.nanmean xs in
  let std := B64.nanstd 1 xs in
  let z_scores := map (fun x => B64.abs (B64.div (B64.sub x mean) std)) xs in
  map (fun z => B64.ltb (B64.of_Q threshold) z) z_scores.

Definition zscore_step (threshold : Q) (st : DataFrame * nat) (col : string)
  : outcome (DataFrame * nat) :=
  let (df, outliers_count) := st in
  match DF.getitem df col with
  | None => Raised (KeyError col)
  | Some s =>
      let outlier_mask := zscore_mask s threshold in
      let col_outliers := count_true outlier_mask in
      if (0 <? col_outliers)%nat
      then Returned (DF.loc df (map negb outlier_mask), (outliers_count + col_outliers)%nat)
      else Returned (df, outliers_count)
  end.

Definition handle_outliers_zscore (df : DataFrame) (threshold : Q) : outcome DataFrame :=
  st <- for_each (zscore_step threshold) (DF.numeric_cols df) (df, 0%nat) ;;
  Returned (fst st).

Definition remove_duplicates (df : DataFrame) : DataFrame :=
  let dup_count := count_true (DF.duplicated df) in
  if (0 <? dup_count)%nat then DF.drop_duplicates df else df.

(** the row count a filter prints as removed *)
Definition rows_removed (before after : DataFrame) : Z :=
  (Z.of_nat (DF.len before) - Z.of_nat (DF.len after))%Z.

Section Filters.
Variable to_datetime : Series -> outcome (list (option Timestamp)).

Definition between_dates (o : option Timestamp) : bool :=
  match o with
  | Some t => Time.leb START_DATE t && Time.leb t END_DATE
  | None => false
  end.

(** FILTER 1: parse [date] in place, keep START_DATE..END_DATE *)
Definition filter_dates (df : DataFrame) : outcome DataFrame :=
  match DF.getitem df "date" with
  | None => Raised (KeyError "date")
  | Some d =>
      ts <- to_datetime d ;;
      let df := DF.setitem df "date" (Datetime64 ts) in
      Returned (DF.loc df (map between_dates ts))
  end.

(** FILTER 2: [stock_price >= MIN_STOCK_PRICE] *)
Definition filter_price (df : DataFrame) : outcome (DataFrame * Z) :=
  match DF.getitem df "stock_price" with
  | None => Raised (KeyError "stock_price")
  | Some p =>
      m <- Ser.compare_number Float.geb MIN_STOCK_PRICE p ;;
      let df' := DF.loc df m in
      Returned (df', rows_removed df df')
  end.

(** FILTER 3: non-null [climate_score] *)
Definition filter_climate (df : DataFrame) : outcome (DataFrame * Z) :=
  match DF.getitem df "climate_score" with
  | None => Raised (KeyError "climate_score")
  | Some c =>
      let df' := DF.loc df (Ser.notna c) in
      Returned (df', rows_removed df df')
  end.

(** FILTER 4: every required column that exists is non-null *)
Definition filter_paired (df : DataFrame) : DataFrame * Z :=
  let required_cols := filter (DF.has df) REQUIRED_COLUMNS in
  let all_notna :=
    fold_left (fun m c => match DF.getitem df c with
                          | Some s => mask_and m (Ser.notna s)
                          | None => m
                          end)
              required_cols (repeat true (DF.len df)) in
  let df' := DF.loc df all_notna in
  (df', rows_removed df df').

(** FILTER 5: non-null, finite [returns] *)
Definition filter_returns (df : DataFrame) : outcome (DataFrame * Z) :=
  match DF.getitem df "returns" with
  | None => Raised (KeyError "returns")
  | Some r =>
      fin <- Ser.isfinite r ;;
      let df' := DF.loc df (mask_and (Ser.notna r) fin) in
      Returned (df', rows_removed df df')
  end.

(** FILTER 6: drop the tickers seen fewer than MIN_OBSERVATIONS times;
    what it prints is a number of companies *)
Definition filter_companies (df : DataFrame) : outcome (DataFrame * option nat) :=
  match DF.getitem df "ticker" with
  | None => Raised (KeyError "ticker")
  | Some t =>
      let company_counts := value_counts t in
      let small_companies :=
        map fst (filter (fun vc => (snd vc <? MIN_OBSERVATIONS)%nat) company_counts) in
      if (0 <? List.length small_companies)%nat
      then Returned (DF.loc df (map (fun c => negb (existsb (Cell.same c) small_companies))
                                    (Ser.cells t)),
                     Some (List.length small_companies))
      else Returned (df, None)
  end.

Definition apply_filters (df : DataFrame) : outcome (DataFrame * list filter_report) :=
  '(df, out) <- (if DF.has df "date"
                 then d <- filter_dates df ;; Returned (d, [mkReport "Filter 1" None])
                 else Returned (df, [])) ;;
  '(df, out) <- (if DF.has df "stock_price"
                 then '(d, n) <- filter_price df ;;
                      Returned (d, out ++ [mkReport "Filter 2" (Some n)])
                 else Returned (df, out)) ;;
  '(df, out) <- (if DF.has df "climate_score"
                 then '(d, n) <- filter_climate df ;;
                      Returned (d, out ++ [mkReport "Filter 3" (Some n)])
                 else Returned (df, out)) ;;
  '(df, out) <- (let (d, n) := filter_paired df in
                 Returned (d, out ++ [mkReport "Filter 4" (Some n)])) ;;
  '(df, out) <- (if DF.has df "returns"
                 then '(d, n) <- filter_returns df ;;
                      Returned (d, out ++ [mkReport "Filter 5" (Some n)])
                 else Returned (df, out)) ;;
  '(df, out) <- (if DF.has df "ticker"
                 then '(d, n) <- filter_companies df ;;
                      Returned (d, match n with
                                   | Some _ => out ++ [mkReport "Filter 6" None]
                                   | None => out
                                   end)
                 else Returned (df, out)) ;;
  Returned (df, out).
End Filters.

(** Check 1 warns, Check 2 decides, Check 3 informs *)
Definition validate_cleaned_data (df : DataFrame) : list (level * message) * bool :=
  let critical_cols := filter (fun col => contains "id" (lower col)) (DF.names df) in
  let check1 :=
    match critical_cols with
    | [] => []
    | _ =>
        let null_check :=
          map (fun c => (c, match DF.getitem df c with
                            | Some s => count_true (Ser.isnull s)
                            | None => 0%nat
                            end)) critical_cols in
        if (list_sum (map snd null_check) =? 0)%nat
        then [(INFO, NoNullsInCritical critical_cols)]
        else [(WARNING, NullsFound (filter (fun cn => (0 <? snd cn)%nat) null_check))]
    end in
  if (0 <? DF.len df)%nat
  then (check1 ++ [(INFO, FinalRows (DF.len df)); (INFO, DtypeSummary)], true)
  else (check1 ++ [(ERROR, DatasetEmpty)], false).

Section Pipeline.
Variable to_datetime : Series -> outcome (list (option Timestamp)).

(** [main]: [Returned None] is the [(None, None)] of a failed validation *)
Definition main (mode : chained_fill) (raw : DataFrame)
  : list stage * outcome (option DataFrame) :=
  match clean_missing_values mode raw MISSING_THRESHOLD with
  | Raised e => ([], Raised e)
  | Returned df1 =>
      match handle_outliers_zscore df1 3 with
      | Raised e => ([MissingValues], Raised e)
      | Returned df2 =>
          let df3 := remove_duplicates df2 in
          match apply_filters to_datetime df3 with
          | Raised e => ([MissingValues; Outliers; Duplicates], Raised e)
          | Returned (df4, _) =>
              if snd (validate_cleaned_data df4)
              then ([MissingValues; Outliers; Duplicates; Filters; Validation; Save],
                    Returned (Some df4))
              else ([MissingValues; Outliers; Duplicates; Filters; Validation],
                    Returned None)
          end
      end
  end.
End Pipeline.

End Climate.

(* ================================================================== *)
(** ** fetch_dataset2_data.py

    [clean_missing_values], [handle_outliers_zscore], [remove_duplicates]
    and [validate_cleaned_data] are the same text as in
    fetch_Climate_data.py; only the threshold and the filter differ. *)

Module Dataset2.

Definition MIN_OBSERVATIONS : nat := 10.
Definition MISSING_THRESHOLD : Q := 7 # 10.

Definition clean_missing_values := Climate.clean_missing_values.
Definition handle_outliers_zscore := Climate.handle_outliers_zscore.
Definition remove_duplicates := Climate.remove_duplicates.
Definition validate_cleaned_data := Climate.validate_cleaned_data.

(** drops the rows whose numeric cells are all zero *)
Definition apply_filters (df : DataFrame) : DataFrame :=
  let numeric := filter (fun col => Ser.is_numeric (snd col)) (columns df) in
  if (0 <? List.length numeric)%nat
  then
    let all_zero_rows :=
      fold_left (fun m col => mask_and m (map (Cell.eq_number 0) (Ser.cells (snd col))))
                numeric (repeat true (DF.len df)) in
    if (0 <? count_true all_zero_rows)%nat
    then DF.loc df (map negb all_zero_rows)
    else df
  else df.

(** [main]: [Returned None] is the [(None, None)] of a failed validation *)
Definition main (mode : chained_fill) (raw : DataFrame)
  : list stage * outcome (option DataFrame) :=
  match clean_missing_values mode raw MISSING_THRESHOLD with
  | Raised e => ([], Raised e)
  | Returned df1 =>
      match handle_outliers_zscore df1 3 with
      | Raised e => ([MissingValues], Raised e)
      | Returned df2 =>
          let df3 := remove_duplicates df2 in
          let df4 := apply_filters df3 in
          if snd (validate_cleaned_data df4)
          then ([MissingValues; Outliers; Duplicates; Filters; Validation; Save],
                Returned (Some df4))
          else ([MissingValues; Outliers; Duplicates; Filters; Validation],
                Returned None)
      end
  end.

End Dataset2.

(* ================================================================== *)
(** ** An instance of [to_datetime]: ISO-8601 calendar dates

    Covers the declared [DATE_FORMAT] (["%Y-%m-%d"]) and columns that are
    already datetimes; the theorems below hold for any [to_datetime]. *)

Definition digit (c : ascii) : option Z :=
  let n := nat_of_ascii c in
  if (48 <=? n)%nat && (n <=? 57)%nat then Some (Z.of_nat (n - 48)) else None.

Fixpoint number (s : string) (acc : Z) : option Z :=
  match s with
  | EmptyString => Some acc
  | String c s' =>
      match digit c with
      | Some d => number s' (10 * acc + d)%Z
      | None => None
      end
  end.

Definition parse_iso (s : string) : option Timestamp :=
  if (String.length s =? 10)%nat
  then match number (substring 0 4 s) 0, String.get 4 s,
             number (substring 5 2 s) 0, String.get 7 s,
             number (substring 8 2 s) 0 with
       | Some y, Some sep1, Some m, Some sep2, Some d =>
           if Ascii.eqb sep1 "-" && Ascii.eqb sep2 "-"
              && (1 <=? m)%Z && (m <=? 12)%Z && (1 <=? d)%Z && (d <=? 31)%Z
           then Some (Time.date y m d) else None
       | _, _, _, _, _ => None
       end
  else None.

Fixpoint parse_all (xs : list (option string)) : outcome (list (option Timestamp)) :=
  match xs with
  | [] => Returned []
  | None :: xs' => ts <- parse_all xs' ;; Returned (None :: ts)
  | Some s :: xs' =>
      match parse_iso s with
      | Some t => ts <- parse_all xs' ;; Returned (Some t :: ts)
      | None => Raised (ParserError s)
      end
  end.

Definition to_datetime_iso (s : Series) : outcome (list (option Timestamp)) :=
  match s with
  | Datetime64 ts => Returned ts
  | Object xs => parse_all xs
  | _ => Raised (TypeError "numeric epochs are outside this instance")
  end.

(* ================================================================== *)
(** ** Predicates used in the statements *)

(** the output has no more rows and no more columns than the input *)
Definition no_larger (before after : DataFrame) : Prop :=
  (DF.len after <= DF.len before)%nat /\ (DF.ncols after <= DF.ncols before)%nat.

(** rows never grow, columns grow by at most [k] *)
Definition grows_by (k : nat) (before after : DataFrame) : Prop :=
  (DF.len after <= DF.len before)%nat /\ (DF.ncols after <= DF.ncols before + k)%nat.

(** no cell of the column is missing *)
Definition no_missing (s : Series) : Prop := count_true (Ser.isnull s) = 0%nat.

(** the float cells of the column are finite or missing, never infinite *)
Definition no_infinity (s : Series) : Prop :=
  match s with
  | Float64 xs => Forall (fun x => x <> PInf /\ x <> NInf) xs
  | _ => True
  end.

(** what the imputation loops leave in a column: it is rewritten only when
    it has a missing value *)
Definition reit_imputed (s : Series) : Series :=
  if (0 <? count_true (Ser.isnull s))%nat then REIT.impute s else s.

Definition climate_imputed (mode : chained_fill) (s : Series) : Series :=
  match mode with
  | WritesThrough =>
      if (0 <? count_true (Ser.isnull s))%nat then Climate.impute s else s
  | ActsOnCopy => s
  end.

(** how many values of a column the IQR rule flags at the script's setting *)
Definition iqr_flagged (s : Series) : nat :=
  count_true (REIT.identify_outliers_iqr s REIT.OUTLIER_THRESHOLD).

(** what one iteration of [handle_outliers] under "iqr" leaves in a column *)
Definition capped (s : Series) : Series :=
  if (0 <? iqr_flagged s)%nat
  then match winsorize s REIT.WINSORIZE_LIMITS with
       | Returned w => w
       | Raised _ => s
       end
  else s.

(** the per-position difference mask of two columns *)
Definition changed_mask (before after : Series) : list bool :=
  map (fun p => negb (Cell.same (fst p) (snd p)))
      (combine (Ser.cells before) (Ser.cells after)).

(** the sample standard deviation pandas computes for the column is zero *)
Definition std_is_zero (s : Series) : Prop :=
  B64.is_zero (B64.nanstd 1 (Ser.b64 s)) = true.

(** every value present in the column equals the mean pandas computes *)
Definition on_the_mean (s : Series) : Prop :=
  Forall (fun x => B64.isnan x = true \/
                   B64.eqb x (B64.nanmean (Ser.b64 s)) = true)
         (Ser.b64 s).

(** every value of the column equals the first one ([==] of numpy: a NaN
    equals nothing) *)
Definition constant_column (s : Series) : Prop :=
  match Ser.b64 s with
  | [] => True
  | first :: _ => forallb (B64.eqb first) (Ser.b64 s) = true
  end.

(** 0x1.999999999999ap-564, about 2.65e-170: a binary64 value whose
    threefold sum, divided by three, is the next binary64 value up *)
Definition tiny : float := Fin (7205759403792794 # 2 ^ 616).

(** a frame whose only column repeats [tiny] *)
Definition tiny_frame : DataFrame :=
  mkDataFrame [0; 1; 2]%nat [("rate", Float64 [tiny; tiny; tiny])].

(** the number of rows whose (non-missing) ticker equals [c] *)
Definition group_size (c : cell) (t : Series) : nat :=
  List.length (filter (Cell.same c)
                 (filter (fun x => negb (Cell.isnull x)) (Ser.cells t))).

(** the rows of groups with at least MIN_OBSERVATIONS rows, and the rows
    without a ticker *)
Definition large_group_mask (t : Series) : list bool :=
  map (fun c => Cell.isnull c || (Climate.MIN_OBSERVATIONS <=? group_size c t)%nat)
      (Ser.cells t).

(* ================================================================== *)
(** ** Sample frames *)

(** one observation with a [date] column and nothing else *)
Definition dated_frame : DataFrame :=
  mkDataFrame [0%nat] [("date", Object [Some "2001-05-01"])].

(** three rows, the second a copy of the first *)
Definition dup_frame : DataFrame :=
  mkDataFrame [0; 1; 2]%nat
    [("ticker", Object [Some "AAA"; Some "AAA"; None]);
     ("returns", Float64 [Fin 1; Fin 1; NaN])].

(** the column of the IQR example *)
Definition iqr_example : Series :=
  Float64 (map Float.of_Z [1; 2; 3; 4; 5; 100]%Z).

Definition iqr_example_frame : DataFrame :=
  mkDataFrame (seq 0 6) [("assets", iqr_example)].

(** twenty values, one extreme *)
Definition tail_column : Series :=
  Float64 (map Float.of_Z
             [1; 2; 3; 4; 5; 6; 7; 8; 9; 10; 11; 12; 13; 14; 15; 16; 17; 18; 19; 1000]%Z).

Definition tail_frame : DataFrame :=
  mkDataFrame (seq 0 20) [("assets", tail_column)].

(** two rows, the identifier of the second one missing *)
Definition missing_id_frame : DataFrame :=
  mkDataFrame [0; 1]%nat
    [("entity_id", Object [Some "R1"; None]); ("returns", Float64 [Fin 1; Fin 2])].

(** three observations of a constant column next to a varying one *)
Definition constant_frame : DataFrame :=
  mkDataFrame [0; 1; 2]%nat
    [("rate", Float64 [Fin 3; Fin 3; Fin 3]); ("returns", Float64 [Fin 1; Fin 2; Fin 4])].

(** a frame without any numeric column *)
Definition text_frame : DataFrame :=
  mkDataFrame [0; 1]%nat [("ticker", Object [Some "AAA"; Some "BBB"])].


(** a float column holding both infinities and one missing value *)
Definition inf_frame : DataFrame :=
  mkDataFrame [0; 1; 2]%nat [("usdret", Float64 [PInf; NInf; NaN])].

(** two observations, assets and return of the first one missing *)
Definition gap_frame : DataFrame :=
  mkDataFrame [0; 1]%nat
    [("assets", Float64 [NaN; Fin 150]); ("usdret", Float64 [NaN; Fin (1 # 100)])].

(** twenty observations of one company and nineteen of another *)
Definition companies_frame : DataFrame :=
  mkDataFrame (seq 0 39)
    [("ticker", Object (repeat (Some "BIG") 20 ++ repeat (Some "SMALL") 19))].

(** a small frame with a missing value in each kind of column *)
Definition patchy_frame : DataFrame :=
  mkDataFrame [0; 1; 2]%nat
    [("returns", Float64 [Fin 1; NaN; Fin 3]);
     ("ticker", Object [Some "AAA"; None; Some "AAA"]);
     ("empty", Float64 [NaN; NaN; NaN])].

(* ================================================================== *)
(** ** Proof tactics *)

Create HintDb frames.

Ltac inv H := inversion H; subst; clear H.

(** unfolds one monadic step of a hypothesis [x <- m ;; k = Returned r] *)
Ltac step_in H :=
  match type of H with
  | bind ?m _ = Returned _ =>
      let E := fresh "E" in
      destruct m eqn:E; cbn [bind] in H; [|discriminate H]
  end.

(* ================================================================== *)
(** ** Further predicates and sample frames *)

(** a date parser that returns one timestamp (or NaT) per cell *)
Definition keeps_length (to_datetime : Series -> outcome (list (option Timestamp)))
  : Prop :=
  forall s ts, to_datetime s = Returned ts -> List.length ts = Ser.len s.

(** every cell of column [c], when the frame has one, passes the test [P] *)
Definition column_satisfies (df : DataFrame) (c : string) (P : cell -> bool) : Prop :=
  forall s, DF.getitem df c = Some s -> forallb P (Ser.cells s) = true.

(** a numeric cell compared with a number; false on any other cell *)
Definition cell_compare (op : float -> float -> bool) (v : Q) (c : cell) : bool :=
  match c with
  | CFloat x => op x (Fin v)
  | CInt z => op (Float.of_Z z) (Fin v)
  | _ => false
  end.

Definition cell_present (c : cell) : bool := negb (Cell.isnull c).

(** a float or integer that is neither NaN nor infinite, or a timestamp *)
Definition cell_finite (c : cell) : bool :=
  match c with
  | CFloat x => Float.isfinite x
  | CInt _ | CTime _ => true
  | _ => false
  end.

(** a timestamp from START_DATE to END_DATE *)
Definition cell_in_period (c : cell) : bool :=
  match c with
  | CTime t => Time.leb Climate.START_DATE t && Time.leb t Climate.END_DATE
  | _ => false
  end.

(** no two rows of the frame are equal *)
Definition rows_distinct (df : DataFrame) : Prop :=
  forall i j, (i < j)%nat -> (j < DF.len df)%nat ->
    DF.row_same (DF.row df i) (DF.row df j) = false.

(** a frame with the columns every REIT filter looks at *)
Definition reit_frame : DataFrame :=
  mkDataFrame [0; 1; 2; 3]%nat
    [("date", Object [Some "2001-05-01"; Some "1999-03-31"; Some "2010-06-30";
                      Some "2012-06-30"]);
     ("assets", Float64 [Fin 150; Fin 500; Fin 50; Fin 900]);
     ("usdret", Float64 [Fin (1 # 100); Fin (2 # 100); Fin (3 # 100); NaN]);
     ("usdprc", Float64 [Fin 10; Fin 20; Fin 30; Fin 40]);
     ("rtype", Float64 [Fin 2; Fin 2; Fin 2; Fin 2])].

(** a frame with the columns every Climate filter looks at *)
Definition climate_frame : DataFrame :=
  mkDataFrame [0; 1; 2]%nat
    [("date", Object [Some "2001-05-01"; Some "1999-03-31"; None]);
     ("ticker", Object [Some "AAA"; Some "AAA"; Some "BBB"]);
     ("stock_price", Float64 [Fin 5; Fin 6; Fin (1 # 2)]);
     ("climate_score", Float64 [Fin 50; Fin 60; NaN]);
     ("returns", Float64 [Fin (1 # 10); PInf; Fin (2 # 10)])].

(** a frame without missing values *)
Definition complete_frame : DataFrame :=
  mkDataFrame [0; 1; 2]%nat
    [("ticker", Object [Some "AAA"; Some "BBB"; Some "CCC"]);
     ("returns", Float64 [Fin 1; Fin 2; Fin 4])].

(** no column of the frame has a missing value *)
Definition complete (df : DataFrame) : Prop :=
  forall c s, In (c, s) (columns df) -> no_missing s.

(** wherever the mask is true, the element at that position passes [P] *)
Definition mask_implies (A : Type) (m : list bool) (P : A -> bool) (l : list A) : Prop :=
  forall i x, nth_error m i = Some true -> nth_error l i = Some x -> P x = true.

(** a frame with the columns of the Climate filters but no [ticker] *)
Definition quotes_frame : DataFrame :=
  mkDataFrame [0; 1; 2]%nat
    [("date", Object [Some "2001-05-01"; Some "1999-03-31"; Some "2010-06-30"]);
     ("stock_price", Float64 [Fin 5; Fin 6; Fin (1 # 2)]);
     ("climate_score", Float64 [Fin 50; Fin 60; Fin 70]);
     ("returns", Float64 [Fin (1 # 10); Fin (2 # 10); PInf])].

(** raw quotes with a gap in every column *)
Definition raw_quotes : DataFrame :=
  mkDataFrame [0; 1; 2; 3]%nat
    [("date", Object [Some "2001-05-01"; None; Some "1999-03-31"; Some "2010-06-30"]);
     ("stock_price", Float64 [Fin 5; NaN; Fin 6; Fin 7]);
     ("climate_score", Float64 [Fin 50; Fin 60; NaN; Fin 70]);
     ("returns", Float64 [Fin (1 # 10); Fin (2 # 10); Fin (3 # 10); NaN])].

(** no float cell of the frame is infinite *)
Definition finite_data (df : DataFrame) : Prop :=
  forall c s, In (c, s) (columns df) -> no_infinity s.

(** a date that is not in the declared format *)
Definition misdated_frame : DataFrame :=
  mkDataFrame [0; 1]%nat
    [("date", Object [Some "2001-05-01"; Some "May 2001"])].

(** three rows, the middle one zero in every numeric column *)
Definition zero_frame : DataFrame :=
  mkDataFrame [0; 1; 2]%nat
    [("label", Object [Some "a"; Some "b"; Some "c"]);
     ("volume", Float64 [Fin 3; Fin 0; Fin 0]);
     ("trades", Int64 [0; 0; 7]%Z)].

(** the REIT filters in the order [apply_filters] tries them: the column
    each one needs and the name it records *)
Definition reit_filter_table : list (string * string) :=
  [("date", "year_filter_2000_2024"); ("assets", "min_assets_100M");
   ("usdret", "valid_returns"); ("usdprc", "valid_prices"); ("rtype", "rtype_2.0")].

(** the row counts a list of filter reports adds up to *)
Definition reported_total (out : list filter_report) : Z :=
  fold_right (fun r acc => match removed r with
                           | Some n => (n + acc)%Z
                           | None => acc
                           end) 0%Z out.

(** the mask that selects in one step what [m1] and then [m2] select *)
Fixpoint mask_compose (m1 m2 : list bool) : list bool :=
  match m1 with
  | [] => []
  | false :: m1' => false :: mask_compose m1' m2
  | true :: m1' =>
      match m2 with
      | [] => []
      | b :: m2' => b :: mask_compose m1' m2'
      end
  end.

(** the cell of a column at row [i] is the number zero *)
Definition zero_at (i : nat) (col : string * Series) : bool :=
  match nth_error (Ser.cells (snd col)) i with
  | Some c => Cell.eq_number 0 c
  | None => false
  end.

(** every numeric cell of row [i] is zero *)
Definition all_zero_row (df : DataFrame) (i : nat) : bool :=
  forallb (zero_at i) (filter (fun col => Ser.is_numeric (snd col)) (columns df)).

(** the frame has a numeric column *)
Definition has_numeric_column (df : DataFrame) : Prop :=
  exists col, In col (columns df) /\ Ser.is_numeric (snd col) = true.

(** [after] is [before] itself or a selection of its rows *)
Definition row_selection (before after : DataFrame) : Prop :=
  after = before \/ exists m, after = DF.loc before m.

(* ================================================================== *)
(** * Properties *)

(** ** Row and column counts of the frame operations *)

Lemma mask_filter_length (A : Type) (m : list bool) (l : list A) :
  (List.length (mask_filter m l) <= List.length l)%nat.
Proof.
  revert l; induction m as [|b m IH]; intros [|x l]; simpl; try lia.
  specialize (IH l). destruct b; simpl; lia.
Qed.

Lemma loc_len (df : DataFrame) (m : list bool) :
  (DF.len (DF.loc df m) <= DF.len df)%nat.
Proof. unfold DF.len, DF.loc; simpl. apply mask_filter_length. Qed.

Lemma loc_ncols (df : DataFrame) (m : list bool) :
  DF.ncols (DF.loc df m) = DF.ncols df.
Proof. unfold DF.ncols, DF.loc; simpl. apply length_map. Qed.

Lemma update_length_present (c : string) (v s : Series) cols :
  DF.lookup c cols = Some s ->
  List.length (DF.update c v cols) = List.length cols.
Proof.
  induction cols as [|[n s0] cols IH]; simpl; [discriminate|].
  destruct (String.eqb c n); simpl; auto.
Qed.

Lemma update_length_le (c : string) (v : Series) cols :
  (List.length (DF.update c v cols) <= S (List.length cols))%nat.
Proof.
  induction cols as [|[n s0] cols IH]; simpl; [lia|].
  destruct (String.eqb c n); simpl; lia.
Qed.

Lemma setitem_len (df : DataFrame) c v : DF.len (DF.setitem df c v) = DF.len df.
Proof. reflexivity. Qed.

Lemma setitem_ncols_present (df : DataFrame) c v s :
  DF.getitem df c = Some s -> DF.ncols (DF.setitem df c v) = DF.ncols df.
Proof. unfold DF.getitem, DF.ncols, DF.setitem; simpl. apply update_length_present. Qed.

Lemma setitem_ncols_le (df : DataFrame) c v :
  (DF.ncols (DF.setitem df c v) <= S (DF.ncols df))%nat.
Proof. unfold DF.ncols, DF.setitem; simpl. apply update_length_le. Qed.

Lemma drop_len (df : DataFrame) cs : DF.len (DF.drop df cs) = DF.len df.
Proof. reflexivity. Qed.

Lemma drop_ncols (df : DataFrame) cs : (DF.ncols (DF.drop df cs) <= DF.ncols df)%nat.
Proof. unfold DF.ncols, DF.drop; simpl. apply filter_length_le. Qed.

Lemma no_larger_refl df : no_larger df df.
Proof. split; lia. Qed.

Lemma no_larger_trans a b c : no_larger a b -> no_larger b c -> no_larger a c.
Proof. unfold no_larger; intros [? ?] [? ?]; split; lia. Qed.

Lemma no_larger_loc df m : no_larger df (DF.loc df m).
Proof. split; [apply loc_len | rewrite loc_ncols; lia]. Qed.

Lemma no_larger_setitem df c v s :
  DF.getitem df c = Some s -> no_larger df (DF.setitem df c v).
Proof.
  intros H; split; [rewrite setitem_len; lia|].
  erewrite setitem_ncols_present by eassumption; lia.
Qed.

#[local] Hint Resolve no_larger_refl no_larger_loc no_larger_setitem : frames.

(** a loop whose body keeps a transitive relation to its state keeps it *)
Lemma for_each_preserves (S X : Type) (R : S -> S -> Prop)
  (body : S -> X -> outcome S) :
  (forall s, R s s) ->
  (forall a b c, R a b -> R b c -> R a c) ->
  (forall s x s', body s x = Returned s' -> R s s') ->
  forall xs s s', for_each body xs s = Returned s' -> R s s'.
Proof.
  intros Hrefl Htrans Hbody; induction xs as [|x xs IH]; simpl; intros s s' H.
  - inversion H; subst; apply Hrefl.
  - destruct (body s x) as [s1|e] eqn:E; simpl in H; [|discriminate].
    eapply Htrans; [eapply Hbody; eauto | eauto].
Qed.

(** ** Stage by stage: no stage adds rows, and which ones can add a column *)

Lemma reit_impute_step_no_larger df col df' :
  REIT.impute_step df col = Returned df' -> no_larger df df'.
Proof.
  unfold REIT.impute_step. destruct (DF.getitem df col) eqn:G; [|discriminate].
  destruct (0 <? _)%nat; intros H; inv H; eauto with frames.
Qed.

Lemma no_larger_drop df cs : no_larger df (DF.drop df cs).
Proof. split; [rewrite drop_len; lia | apply drop_ncols]. Qed.

Lemma reit_clean_no_larger df th df' s :
  REIT.clean_missing_values df th = Returned (df', s) -> no_larger df df'.
Proof.
  unfold REIT.clean_missing_values. intros H. step_in H. inv H.
  eapply no_larger_trans;
    [| eapply for_each_preserves with (R := no_larger); eauto using
         no_larger_refl, no_larger_trans, reit_impute_step_no_larger].
  unfold REIT.drop_excessive.
  destruct (0 <? _)%nat; auto using no_larger_refl, no_larger_drop.
Qed.

Lemma reit_outlier_step_no_larger method st col st' :
  REIT.outlier_step method st col = Returned st' -> no_larger (fst st) (fst st').
Proof.
  destruct st as [df sm]. unfold REIT.outlier_step.
  destruct (DF.getitem df col) eqn:G; [|discriminate].
  intros H. step_in H.
  destruct (0 <? _)%nat.
  - step_in H. inv H. simpl. eauto with frames.
  - inv H. apply no_larger_refl.
Qed.

Lemma reit_handle_outliers_no_larger df method df' s :
  REIT.handle_outliers df method = Returned (df', s) -> no_larger df df'.
Proof.
  unfold REIT.handle_outliers. intros H.
  apply (for_each_preserves (fun a b : DataFrame * REIT.outlier_summary =>
                               no_larger (fst a) (fst b))) in H; auto.
  - intros; apply no_larger_refl.
  - intros; eapply no_larger_trans; eauto.
  - intros; eapply reit_outlier_step_no_larger; eauto.
Qed.

Lemma no_larger_drop_duplicates df : no_larger df (DF.drop_duplicates df).
Proof. unfold DF.drop_duplicates. destruct (DF.empty df); auto with frames. Qed.

Lemma reit_remove_duplicates_no_larger df :
  no_larger df (fst (REIT.remove_duplicates df)).
Proof.
  unfold REIT.remove_duplicates; simpl.
  destruct (0 <? _)%nat; auto using no_larger_refl, no_larger_drop_duplicates.
Qed.

Lemma climate_remove_duplicates_no_larger df :
  no_larger df (Climate.remove_duplicates df).
Proof.
  unfold Climate.remove_duplicates.
  destruct (0 <? _)%nat; auto using no_larger_refl, no_larger_drop_duplicates.
Qed.

Lemma climate_impute_step_no_larger (mode : chained_fill) df col df' :
  (Climate.impute_step mode) df col = Returned df' -> no_larger df df'.
Proof.
  unfold Climate.impute_step. destruct (DF.getitem df col) eqn:G; [|discriminate].
  destruct (0 <? _)%nat, mode; intros H; inv H; eauto with frames.
Qed.

Lemma climate_clean_no_larger (mode : chained_fill) df th df' :
  Climate.clean_missing_values mode df th = Returned df' -> no_larger df df'.
Proof.
  unfold Climate.clean_missing_values. intros H.
  eapply no_larger_trans;
    [| eapply for_each_preserves with (R := no_larger); eauto using
         no_larger_refl, no_larger_trans, climate_impute_step_no_larger].
  unfold Climate.drop_excessive.
  destruct (Climate.cols_to_drop df th); auto using no_larger_refl, no_larger_drop.
Qed.

Lemma climate_zscore_step_no_larger th st col st' :
  Climate.zscore_step th st col = Returned st' -> no_larger (fst st) (fst st').
Proof.
  destruct st as [df n]. unfold Climate.zscore_step.
  destruct (DF.getitem df col); [|discriminate].
  destruct (0 <? _)%nat; intros H; inv H; simpl; auto with frames.
Qed.

Lemma climate_handle_outliers_no_larger df th df' :
  Climate.handle_outliers_zscore df th = Returned df' -> no_larger df df'.
Proof.
  unfold Climate.handle_outliers_zscore. intros H. step_in H. inv H.
  apply (for_each_preserves (fun a b : DataFrame * nat =>
                               no_larger (fst a) (fst b))) in E; auto.
  - intros; apply no_larger_refl.
  - intros; eapply no_larger_trans; eauto.
  - intros; eapply climate_zscore_step_no_larger; eauto.
Qed.

Lemma grows_by_0 a b : grows_by 0 a b <-> no_larger a b.
Proof. unfold grows_by, no_larger; rewrite Nat.add_0_r; tauto. Qed.

Lemma grows_by_trans j k a b c :
  grows_by j a b -> grows_by k b c -> grows_by (j + k) a c.
Proof. unfold grows_by; intros [? ?] [? ?]; split; lia. Qed.

Section ReitFilterCounts.
Variable to_datetime : Series -> outcome (list (option Timestamp)).

Lemma reit_filter_year_counts df df' :
  REIT.filter_year to_datetime df = Returned df' ->
  grows_by 1 df df' /\ (DF.has df "year" = true -> no_larger df df').
Proof.
  unfold REIT.filter_year. destruct (DF.getitem df "date"); [|discriminate].
  intros H. do 3 step_in H. inv H.
  split.
  - split; [etransitivity; [apply loc_len|rewrite setitem_len; lia]|].
    rewrite loc_ncols. pose proof (setitem_ncols_le df "year" (dt_year a)). lia.
  - unfold DF.has. destruct (DF.getitem df "year") eqn:Y; [|discriminate]. intros _.
    eapply no_larger_trans; [eapply no_larger_setitem; eauto | apply no_larger_loc].
Qed.

Lemma reit_filter_assets_no_larger df df' n :
  REIT.filter_assets df = Returned (df', n) -> no_larger df df'.
Proof.
  unfold REIT.filter_assets. destruct (DF.getitem df "assets"); [|discriminate].
  intros H. step_in H. inv H. auto with frames.
Qed.

Lemma reit_filter_returns_no_larger df df' n :
  REIT.filter_returns df = Returned (df', n) -> no_larger df df'.
Proof.
  unfold REIT.filter_returns. destruct (DF.getitem df "usdret"); [|discriminate].
  intros H. inv H. auto with frames.
Qed.

Lemma reit_filter_prices_no_larger df df' n :
  REIT.filter_prices df = Returned (df', n) -> no_larger df df'.
Proof.
  unfold REIT.filter_prices. destruct (DF.getitem df "usdprc"); [|discriminate].
  intros H. step_in H. inv H. auto with frames.
Qed.

Lemma reit_filter_rtype_no_larger df df' n :
  REIT.filter_rtype df = Returned (df', n) -> no_larger df df'.
Proof.
  unfold REIT.filter_rtype. destruct (DF.getitem df "rtype"); [|discriminate].
  intros H. inv H. auto with frames.
Qed.

Lemma reit_guarded_counted c name text f st st' :
  (forall df df' n, f df = Returned (df', n) -> no_larger df df') ->
  REIT.guarded c name text (REIT.counted f) st = Returned st' ->
  no_larger (fst (fst st)) (fst (fst st')).
Proof.
  intros Hf. destruct st as [[df ap] pr]. unfold REIT.guarded, REIT.counted.
  destruct (DF.has df c); intros H.
  - step_in H. destruct a as [d o]. step_in E. destruct a as [d' n'].
    inv E. inv H. simpl. eauto.
  - inv H. apply no_larger_refl.
Qed.

Lemma reit_apply_filters_counts df df' s out :
  REIT.apply_filters to_datetime df = Returned (df', s, out) ->
  grows_by 1 df df' /\
  (DF.has df "date" = false \/ DF.has df "year" = true -> no_larger df df').
Proof.
  unfold REIT.apply_filters. intros H.
  step_in H. rename a into s1, E into E1.
  step_in H. rename a into s2, E into E2.
  step_in H. rename a into s3, E into E3.
  step_in H. rename a into s4, E into E4.
  step_in H. rename a into s5, E into E5.
  destruct s5 as [[d5 a5] p5]. inv H.
  apply reit_guarded_counted in E2; [|apply reit_filter_assets_no_larger].
  apply reit_guarded_counted in E3; [|apply reit_filter_returns_no_larger].
  apply reit_guarded_counted in E4; [|apply reit_filter_prices_no_larger].
  apply reit_guarded_counted in E5; [|apply reit_filter_rtype_no_larger].
  simpl in E5.
  assert (T : no_larger (fst (fst s1)) df')
    by (eapply no_larger_trans; [exact E2|];
        eapply no_larger_trans; [exact E3|];
        eapply no_larger_trans; [exact E4| exact E5]).
  clear E2 E3 E4 E5.
  unfold REIT.guarded in E1. destruct (DF.has df "date") eqn:D.
  - step_in E1. destruct a as [d1 o1]. step_in E. inv E. inv E1. simpl in T.
    apply reit_filter_year_counts in E0. destruct E0 as [G Y].
    split.
    + apply grows_by_0 in T. apply (grows_by_trans G T).
    + intros [F|Yes]; [discriminate|].
      eapply no_larger_trans; eauto.
  - inv E1. simpl in T. split; [|auto].
    destruct T; split; lia.
Qed.
End ReitFilterCounts.

Section ClimateFilterCounts.
Variable to_datetime : Series -> outcome (list (option Timestamp)).

Lemma climate_filter_dates_no_larger df df' :
  Climate.filter_dates to_datetime df = Returned df' -> no_larger df df'.
Proof.
  unfold Climate.filter_dates. destruct (DF.getitem df "date") eqn:G; [|discriminate].
  intros H. step_in H. inv H.
  eapply no_larger_trans; [eapply no_larger_setitem; eauto | apply no_larger_loc].
Qed.

Lemma climate_apply_filters_no_larger df df' out :
  Climate.apply_filters to_datetime df = Returned (df', out) -> no_larger df df'.
Proof.
  unfold Climate.apply_filters. intros H.
  step_in H. destruct a as [d1 o1].
  step_in H. destruct a as [d2 o2].
  step_in H. destruct a as [d3 o3].
  step_in H. destruct a as [d4 o4].
  step_in H. destruct a as [d5 o5].
  step_in H. destruct a as [d6 o6]. inv H.
  assert (S1 : no_larger df d1).
  { destruct (DF.has df "date"); [|inv E; apply no_larger_refl].
    step_in E. inv E. eapply climate_filter_dates_no_larger; eauto. }
  assert (S2 : no_larger d1 d2).
  { destruct (DF.has d1 "stock_price"); [|inv E0; apply no_larger_refl].
    step_in E0. destruct a as [d n]. inv E0.
    unfold Climate.filter_price in E5.
    destruct (DF.getitem d1 "stock_price"); [|discriminate].
    step_in E5. inv E5. apply no_larger_loc. }
  assert (S3 : no_larger d2 d3).
  { destruct (DF.has d2 "climate_score"); [|inv E1; apply no_larger_refl].
    step_in E1. destruct a as [d n]. inv E1.
    unfold Climate.filter_climate in E5.
    destruct (DF.getitem d2 "climate_score"); [|discriminate].
    inv E5. apply no_larger_loc. }
  assert (S4 : no_larger d3 d4).
  { unfold Climate.filter_paired in E2. inv E2. apply no_larger_loc. }
  assert (S5 : no_larger d4 d5).
  { destruct (DF.has d4 "returns"); [|inv E3; apply no_larger_refl].
    step_in E3. destruct a as [d n]. inv E3.
    unfold Climate.filter_returns in E5.
    destruct (DF.getitem d4 "returns"); [|discriminate].
    step_in E5. inv E5. apply no_larger_loc. }
  assert (S6 : no_larger d5 df').
  { destruct (DF.has d5 "ticker"); [|inv E4; apply no_larger_refl].
    step_in E4. destruct a as [d n]. inv E4.
    unfold Climate.filter_companies in E5.
    destruct (DF.getitem d5 "ticker"); [|discriminate].
    destruct (0 <? _)%nat; inv E5; auto with frames. }
  eauto 10 using no_larger_trans.
Qed.
End ClimateFilterCounts.

Lemma dataset2_apply_filters_no_larger df : no_larger df (Dataset2.apply_filters df).
Proof.
  unfold Dataset2.apply_filters.
  destruct (0 <? List.length _)%nat; [|apply no_larger_refl].
  destruct (0 <? count_true _)%nat; auto with frames.
Qed.

(** ** C1: row and column counts across stage boundaries *)

(** C1 (as stated, refuted). The REIT filter chain derives a [year] column
    from [date]: on a frame whose only column is [date] it returns a frame
    with two columns, so the column count went up across that stage. *)
Lemma reit_filters_add_a_column :
  exists df' s out,
    REIT.apply_filters to_datetime_iso dated_frame = Returned (df', s, out) /\
    DF.ncols dated_frame = 1%nat /\ DF.ncols df' = 2%nat /\
    ~ no_larger dated_frame df'.
Proof.
  eexists; eexists; eexists. split; [vm_compute; reflexivity|].
  split; [reflexivity|]. split; [reflexivity|].
  unfold no_larger; vm_compute. intros [_ H]. lia.
Qed.

(** C1 (amended). No stage of any pipeline adds rows. Missing-value
    handling, outlier handling, deduplication and the Climate and Dataset2
    filters add no column either. The REIT filter chain adds at most one
    column (the derived [year]), and none when the frame has no [date]
    column or already has a [year] column. *)
Theorem stage_counts_never_grow
  (to_datetime : Series -> outcome (list (option Timestamp))) (df : DataFrame) :
  (forall th df' s,
      REIT.clean_missing_values df th = Returned (df', s) -> no_larger df df') /\
  (forall method df' s,
      REIT.handle_outliers df method = Returned (df', s) -> no_larger df df') /\
  no_larger df (fst (REIT.remove_duplicates df)) /\
  (forall df' s out,
      REIT.apply_filters to_datetime df = Returned (df', s, out) ->
      grows_by 1 df df' /\
      (DF.has df "date" = false \/ DF.has df "year" = true -> no_larger df df')) /\
  (forall mode th df',
      Climate.clean_missing_values mode df th = Returned df' -> no_larger df df') /\
  (forall th df',
      Climate.handle_outliers_zscore df th = Returned df' -> no_larger df df') /\
  no_larger df (Climate.remove_duplicates df) /\
  (forall df' out,
      Climate.apply_filters to_datetime df = Returned (df', out) -> no_larger df df') /\
  no_larger df (Dataset2.apply_filters df).
Proof.
  split; [intros; eapply reit_clean_no_larger; eauto|].
  split; [intros; eapply reit_handle_outliers_no_larger; eauto|].
  split; [apply reit_remove_duplicates_no_larger|].
  split; [intros; eapply reit_apply_filters_counts; eauto|].
  split; [intros; eapply climate_clean_no_larger; eauto|].
  split; [intros; eapply climate_handle_outliers_no_larger; eauto|].
  split; [apply climate_remove_duplicates_no_larger|].
  split; [intros; eapply climate_apply_filters_no_larger; eauto|].
  apply dataset2_apply_filters_no_larger.
Qed.

Lemma stage_counts_never_grow_witness :
  exists df' s out,
    REIT.apply_filters to_datetime_iso dated_frame = Returned (df', s, out) /\
    grows_by 1 dated_frame df'.
Proof.
  eexists; eexists; eexists.
  assert (E : REIT.apply_filters to_datetime_iso dated_frame
              = Returned (mkDataFrame [0%nat]
                            [("date", Object [Some "2001-05-01"]); ("year", Int64 [2001%Z])],
                          REIT.mkFilterSummary 1 1 ["year_filter_2000_2024"],
                          [mkReport "Filter 1" None]))
    by (vm_compute; reflexivity).
  split; [exact E|].
  exact (proj1 (proj1 (proj2 (proj2 (proj2
           (stage_counts_never_grow to_datetime_iso dated_frame)))) _ _ _ E)).
Defined.

(** ** Boolean indexing and the rows of a frame *)

Lemma mask_filter_map (A B : Type) (f : A -> B) m l :
  mask_filter m (map f l) = map f (mask_filter m l).
Proof.
  revert l; induction m as [|b m IH]; intros [|x l]; simpl; auto.
  destruct b; simpl; rewrite IH; auto.
Qed.

Lemma cells_take m s : Ser.cells (Ser.take m s) = mask_filter m (Ser.cells s).
Proof. destruct s; simpl; symmetry; apply mask_filter_map. Qed.

Lemma mask_filter_count (A : Type) m (l : list A) :
  List.length m = List.length l -> List.length (mask_filter m l) = count_true m.
Proof.
  unfold count_true. revert l; induction m as [|b m IH]; intros [|x l]; simpl;
    try discriminate; auto.
  intros H; injection H as H. destruct b; simpl; rewrite IH; auto.
Qed.

Lemma transpose_length n cs : List.length (DF.transpose n cs) = n.
Proof. revert cs; induction n; simpl; intros; auto. Qed.

Lemma Forall_tl_length (n : nat) (cs : list (list cell)) :
  Forall (fun c => List.length c = S n) cs ->
  Forall (fun c => List.length c = n) (map (@tl cell) cs).
Proof.
  induction 1 as [|c cs Hc _ IH]; simpl; constructor; auto.
  destruct c; simpl in *; [discriminate|lia].
Qed.

Lemma map_mask_filter_cons b m (cs : list (list cell)) n :
  Forall (fun c => List.length c = S n) cs ->
  map (mask_filter (b :: m)) cs
  = if b
    then map (fun c => hd CNone c :: mask_filter m (tl c)) cs
    else map (fun c => mask_filter m (tl c)) cs.
Proof.
  induction 1 as [|c cs Hc _ IH]; simpl.
  - destruct b; reflexivity.
  - destruct c as [|x c]; [discriminate|]. simpl.
    destruct b; simpl in *; rewrite IH; reflexivity.
Qed.

Lemma transpose_mask_filter m cs :
  Forall (fun c => List.length c = List.length m) cs ->
  DF.transpose (count_true m) (map (mask_filter m) cs)
  = mask_filter m (DF.transpose (List.length m) cs).
Proof.
  revert cs; induction m as [|b m IH]; intros cs H; [reflexivity|].
  simpl List.length in *. rewrite (map_mask_filter_cons b m H).
  specialize (IH _ (Forall_tl_length H)).
  destruct b; simpl.
  - unfold count_true in *; simpl. f_equal.
    + rewrite map_map; reflexivity.
    + rewrite map_map. rewrite map_map in IH. exact IH.
  - unfold count_true in *; simpl. rewrite map_map in IH. exact IH.
Qed.

Lemma cells_length s : List.length (Ser.cells s) = Ser.len s.
Proof. destruct s; simpl; apply length_map. Qed.

Lemma rows_loc df m :
  DF.aligned df -> List.length m = DF.len df ->
  DF.rows (DF.loc df m) = mask_filter m (DF.rows df).
Proof.
  intros A L. unfold DF.rows, DF.loc; simpl.
  unfold DF.len at 1; simpl. rewrite (mask_filter_count _ _ L).
  rewrite map_map; simpl.
  rewrite (map_ext _ (fun col => mask_filter m (Ser.cells (snd col))))
    by (intros; apply cells_take).
  rewrite <- (map_map (fun col => Ser.cells (snd col)) (mask_filter m)).
  rewrite <- L. apply transpose_mask_filter.
  apply Forall_map. eapply Forall_impl; [|exact A].
  intros col H; simpl in *. rewrite cells_length. lia.
Qed.

(** ** Deduplication *)

Lemma count_true_false m : count_true (false :: m) = count_true m.
Proof. reflexivity. Qed.

Lemma seen_before_length S rs : List.length (DF.seen_before S rs) = List.length rs.
Proof. revert S; induction rs; simpl; intros; auto. Qed.

(** after the marked rows are dropped, nothing is marked any more *)
Lemma seen_before_kept_fresh rs : forall S S',
  (forall r, existsb (DF.row_same r) S' = true -> existsb (DF.row_same r) S = true) ->
  count_true (DF.seen_before S' (mask_filter (map negb (DF.seen_before S rs)) rs)) = 0%nat.
Proof.
  induction rs as [|r rs IH]; intros S S' H; [reflexivity|].
  simpl. destruct (existsb (DF.row_same r) S) eqn:E; simpl.
  - apply IH. intros x Hx. simpl. rewrite (H _ Hx). apply orb_true_r.
  - assert (E' : existsb (DF.row_same r) S' = false).
    { destruct (existsb (DF.row_same r) S') eqn:E'; auto.
      rewrite (H _ E') in E; discriminate. }
    rewrite E', count_true_false. apply IH.
    intros x; simpl. destruct (DF.row_same x r); simpl; auto.
Qed.

Lemma count_true_zero m : count_true m = 0%nat -> m = repeat false (List.length m).
Proof.
  unfold count_true. induction m as [|b m IH]; simpl; auto.
  destruct b; simpl; [discriminate|]. intros H; f_equal; auto.
Qed.

Lemma mask_filter_all_true (A : Type) (l : list A) n :
  (List.length l <= n)%nat -> mask_filter (repeat true n) l = l.
Proof.
  revert l; induction n; intros [|x l]; simpl; intros; auto; try lia.
  f_equal; apply IHn; lia.
Qed.

Lemma take_all_true s n : (Ser.len s <= n)%nat -> Ser.take (repeat true n) s = s.
Proof. destruct s; simpl; intros; f_equal; apply mask_filter_all_true; auto. Qed.

Lemma loc_all_true df :
  DF.aligned df -> DF.loc df (repeat true (DF.len df)) = df.
Proof.
  destruct df as [ix cols]; unfold DF.aligned, DF.loc, DF.len; simpl.
  intros A. f_equal; [apply mask_filter_all_true; lia|].
  induction A as [|[n s] cols Hs _ IH]; simpl; auto.
  f_equal; auto. simpl in Hs. rewrite take_all_true; auto; lia.
Qed.

Lemma rows_length df : List.length (DF.rows df) = DF.len df.
Proof. apply transpose_length. Qed.

(** the table part of [remove_duplicates], the same in both scripts *)
Lemma reit_remove_duplicates_table df :
  fst (REIT.remove_duplicates df) = Climate.remove_duplicates df.
Proof. reflexivity. Qed.

Lemma duplicated_after_drop df :
  DF.aligned df ->
  count_true (DF.duplicated (DF.drop_duplicates df)) = 0%nat.
Proof.
  intros A. unfold DF.drop_duplicates, DF.duplicated.
  destruct (DF.empty df) eqn:E; [rewrite E; reflexivity|].
  destruct (DF.empty (DF.loc df _)); [reflexivity|].
  rewrite rows_loc; auto.
  - apply seen_before_kept_fresh; auto.
  - rewrite length_map, seen_before_length. apply rows_length.
Qed.

Lemma remove_duplicates_idempotent df :
  DF.aligned df ->
  Climate.remove_duplicates (Climate.remove_duplicates df) = Climate.remove_duplicates df.
Proof.
  intros A.
  assert (E : Climate.remove_duplicates df = DF.drop_duplicates df
              \/ (Climate.remove_duplicates df = df
                  /\ (0 <? count_true (DF.duplicated df))%nat = false)).
  { unfold Climate.remove_duplicates.
    destruct (0 <? count_true (DF.duplicated df))%nat; auto. }
  destruct E as [E|[E F]]; rewrite E.
  - unfold Climate.remove_duplicates. rewrite duplicated_after_drop by auto.
    reflexivity.
  - unfold Climate.remove_duplicates. rewrite F. reflexivity.
Qed.

Lemma existsb_firstn_false (A : Type) (f : A -> bool) (d : A) l : forall i,
  (i <= List.length l)%nat ->
  (existsb f (firstn i l) = false <-> forall j, (j < i)%nat -> f (nth j l d) = false).
Proof.
  induction l as [|x l IH]; intros [|i] Hi; simpl in *; try lia.
  - split; auto. intros _ j Hj; lia.
  - split; auto. intros _ j Hj; lia.
  - rewrite orb_false_iff, IH by lia. split.
    + intros [Hx Hl] [|j] Hj; auto. apply Hl; lia.
    + intros H; split; [apply (H 0%nat); lia|]. intros j Hj. apply (H (S j)); lia.
Qed.

Lemma seen_before_nth rs : forall S i,
  (i < List.length rs)%nat ->
  nth i (DF.seen_before S rs) false
  = existsb (DF.row_same (nth i rs [])) S
    || existsb (DF.row_same (nth i rs [])) (firstn i rs).
Proof.
  induction rs as [|r rs IH]; intros S [|i] Hi; simpl in *; try lia.
  - rewrite orb_false_r; reflexivity.
  - rewrite IH by lia. simpl.
    destruct (DF.row_same (nth i rs []) r); simpl; auto using orb_true_r.
Qed.

Lemma keep_mask_nth rs i :
  (i < List.length rs)%nat ->
  (nth i (map negb (DF.seen_before [] rs)) false = true <->
   forall j, (j < i)%nat -> DF.row_same (nth i rs []) (nth j rs []) = false).
Proof.
  intros Hi.
  rewrite <- (existsb_firstn_false (DF.row_same (nth i rs [])) [] rs) by lia.
  change false with (negb true) at 1. rewrite map_nth.
  rewrite (nth_indep _ true false) by (rewrite seen_before_length; lia).
  rewrite seen_before_nth by lia. simpl.
  destruct (existsb _ (firstn i rs)); simpl; split; congruence.
Qed.

(** C5. Deduplication is idempotent in both scripts, and on a frame with at
    least one column it keeps exactly the rows that have no equal row
    above them (the first of every group of equal rows, two missing values
    counting as equal), in their original order. A frame without columns
    has no values to compare and is returned as it is. *)
Theorem remove_duplicates_idempotent_keeps_first (df : DataFrame) :
  DF.aligned df ->
  fst (REIT.remove_duplicates (fst (REIT.remove_duplicates df)))
    = fst (REIT.remove_duplicates df) /\
  Climate.remove_duplicates (Climate.remove_duplicates df)
    = Climate.remove_duplicates df /\
  (columns df <> [] ->
   exists keep : list bool,
     List.length keep = DF.len df /\
     (forall i, (i < DF.len df)%nat ->
        (nth i keep false = true <->
         forall j, (j < i)%nat -> DF.row_same (DF.row df i) (DF.row df j) = false)) /\
     fst (REIT.remove_duplicates df) = DF.loc df keep /\
     Climate.remove_duplicates df = DF.loc df keep /\
     DF.rows (DF.loc df keep) = mask_filter keep (DF.rows df)).
Proof.
  intros A. rewrite !reit_remove_duplicates_table.
  split; [apply remove_duplicates_idempotent; auto|].
  split; [apply remove_duplicates_idempotent; auto|].
  intros Hc. exists (map negb (DF.seen_before [] (DF.rows df))).
  assert (L : List.length (map negb (DF.seen_before [] (DF.rows df))) = DF.len df)
    by (rewrite length_map, seen_before_length; apply rows_length).
  split; [exact L|].
  split; [intros i Hi; unfold DF.row; apply keep_mask_nth; rewrite rows_length; auto|].
  assert (R : Climate.remove_duplicates df
              = DF.loc df (map negb (DF.seen_before [] (DF.rows df)))).
  { unfold Climate.remove_duplicates, DF.drop_duplicates, DF.duplicated.
    destruct (DF.empty df) eqn:E.
    - simpl. unfold DF.empty in E. apply orb_true_iff in E as [E|E].
      + apply Nat.eqb_eq in E. unfold DF.rows. rewrite E. simpl.
        change (@nil bool) with (repeat true 0). rewrite <- E.
        symmetry; apply loc_all_true; auto.
      + apply Nat.eqb_eq in E. unfold DF.ncols in E.
        destruct (columns df); [contradiction Hc; reflexivity|discriminate].
    - destruct (0 <? _)%nat eqn:F; [reflexivity|].
      apply Nat.ltb_ge in F.
      assert (Z0 : count_true (DF.seen_before [] (DF.rows df)) = 0%nat) by lia.
      apply count_true_zero in Z0. rewrite Z0.
      rewrite seen_before_length, rows_length.
      rewrite map_repeat. simpl. symmetry; apply loc_all_true; auto. }
  split; [exact R|]. split; [exact R|].
  apply rows_loc; auto.
Qed.

Lemma remove_duplicates_idempotent_keeps_first_witness :
  DF.aligned dup_frame /\
  Climate.remove_duplicates (Climate.remove_duplicates dup_frame)
    = Climate.remove_duplicates dup_frame.
Proof.
  assert (A : DF.aligned dup_frame) by (repeat constructor).
  split; [exact A|].
  exact (proj1 (proj2 (remove_duplicates_idempotent_keeps_first A))).
Defined.

(** ** Column assignment seen through [df[c]] *)

Lemma lookup_update_same c v cols : DF.lookup c (DF.update c v cols) = Some v.
Proof.
  induction cols as [|[n s] cols IH]; simpl.
  - rewrite String.eqb_refl; reflexivity.
  - destruct (String.eqb c n) eqn:E; simpl; rewrite E; auto.
Qed.

Lemma lookup_update_other c c' v cols :
  c <> c' -> DF.lookup c' (DF.update c v cols) = DF.lookup c' cols.
Proof.
  intros N. induction cols as [|[n s] cols IH]; simpl.
  - apply String.eqb_neq in N. rewrite String.eqb_sym, N. reflexivity.
  - destruct (String.eqb c n) eqn:E; simpl.
    + apply String.eqb_eq in E; subst n.
      destruct (String.eqb c' c) eqn:E'; auto.
      apply String.eqb_eq in E'; subst; contradiction.
    + destruct (String.eqb c' n); auto.
Qed.

Lemma names_update_present c v s cols :
  DF.lookup c cols = Some s -> map fst (DF.update c v cols) = map fst cols.
Proof.
  induction cols as [|[n s0] cols IH]; simpl; [discriminate|].
  destruct (String.eqb c n); simpl; intros; f_equal; auto.
Qed.

Lemma getitem_setitem_same df c v : DF.getitem (DF.setitem df c v) c = Some v.
Proof. apply lookup_update_same. Qed.

Lemma getitem_setitem_other df c c' v :
  c <> c' -> DF.getitem (DF.setitem df c v) c' = DF.getitem df c'.
Proof. apply lookup_update_other. Qed.

Lemma names_setitem_present df c v s :
  DF.getitem df c = Some s -> DF.names (DF.setitem df c v) = DF.names df.
Proof. apply names_update_present. Qed.

Lemma lookup_in_names c cols :
  In c (map fst cols) -> exists s, DF.lookup c cols = Some s.
Proof.
  induction cols as [|[n s] cols IH]; simpl; [tauto|].
  destruct (String.eqb c n) eqn:E; [eauto|].
  intros [H|H]; [subst; rewrite String.eqb_refl in E; discriminate | auto].
Qed.

Lemma lookup_names_in c cols s :
  DF.lookup c cols = Some s -> In c (map fst cols).
Proof.
  induction cols as [|[n s0] cols IH]; simpl; [discriminate|].
  destruct (String.eqb c n) eqn:E; [apply String.eqb_eq in E; auto | auto].
Qed.

(** A loop that rewrites one column per iteration, each from its own
    current content, rewrites every listed column once and leaves the
    others alone. *)
Section ColumnwiseLoop.
Variable S : Type.
Variable frame : S -> DataFrame.
Variable body : S -> string -> outcome S.
Variable T : Series -> Series.

Hypothesis body_columnwise : forall st c s,
  DF.getitem (frame st) c = Some s ->
  exists st', body st c = Returned st' /\
    DF.names (frame st') = DF.names (frame st) /\
    index (frame st') = index (frame st) /\
    DF.getitem (frame st') c = Some (T s) /\
    forall c', c <> c' -> DF.getitem (frame st') c' = DF.getitem (frame st) c'.

Lemma columnwise_loop cs : forall st,
  NoDup cs ->
  (forall c, In c cs -> In c (DF.names (frame st))) ->
  exists st', for_each body cs st = Returned st' /\
    DF.names (frame st') = DF.names (frame st) /\
    index (frame st') = index (frame st) /\
    forall c, DF.getitem (frame st') c
              = if existsb (String.eqb c) cs
                then option_map T (DF.getitem (frame st) c)
                else DF.getitem (frame st) c.
Proof.
  induction cs as [|c0 cs IH]; intros st ND Hin.
  - exists st; simpl; auto.
  - inversion ND as [|? ? Hn ND']; subst.
    destruct (lookup_in_names c0 (columns (frame st)) (Hin c0 (or_introl eq_refl)))
      as [s0 G0].
    destruct (body_columnwise st c0 G0) as (st1 & B & N1 & I1 & Gs & Go).
    destruct (IH st1 ND') as (st' & F & N' & I' & G').
    { intros c Hc. unfold DF.names in N1 |- *. rewrite N1. apply Hin; right; auto. }
    exists st'. simpl. rewrite B. cbn [bind]. split; [exact F|].
    split; [congruence|]. split; [congruence|].
    intros c. rewrite G'. simpl.
    destruct (String.eqb c c0) eqn:E; simpl.
    + apply String.eqb_eq in E; subst c.
      assert (X : existsb (String.eqb c0) cs = false).
      { destruct (existsb (String.eqb c0) cs) eqn:X; auto.
        apply existsb_exists in X as (y & Hy & Ey).
        apply String.eqb_eq in Ey; subst; contradiction. }
      rewrite X, Gs. unfold DF.getitem in G0 |- *. rewrite G0. reflexivity.
    + assert (c0 <> c) by (intros ->; rewrite String.eqb_refl in E; discriminate).
      rewrite Go by auto. reflexivity.
Qed.
End ColumnwiseLoop.

(** ** C8: the IQR rule on [1, 2, 3, 4, 5, 100] *)

(** C8. With k = 1.5 the IQR rule flags 100 and none of 1..5 in the column
    [1, 2, 3, 4, 5, 100]: the quartiles are 2.25 and 4.75, the upper bound
    is 8.5 and 100 lies above it. *)
Theorem iqr_flags_only_100 :
  REIT.identify_outliers_iqr iqr_example REIT.OUTLIER_THRESHOLD
    = [false; false; false; false; false; true] /\
  (let xs := Ser.floats iqr_example in
   let Q1 := Stats.quantile (25 # 100) xs in
   let Q3 := Stats.quantile (75 # 100) xs in
   let upper := Float.add Q3 (Float.mul (Fin REIT.OUTLIER_THRESHOLD) (Float.sub Q3 Q1)) in
   Float.eqb Q1 (Fin (225 # 100)) = true /\
   Float.eqb Q3 (Fin (475 # 100)) = true /\
   Float.eqb upper (Fin (85 # 10)) = true /\
   Float.gtb (Fin 100) upper = true).
Proof. vm_compute. repeat split. Qed.

(** ** C9: the validator *)

Lemma list_sum_pos (A : Type) (f : A -> nat) (l : list A) (x : A) :
  In x l -> (0 < f x)%nat -> (0 < list_sum (map f l))%nat.
Proof.
  induction l as [|y l IH]; simpl; [tauto|].
  intros [->|H] P; [lia|]. specialize (IH H P). lia.
Qed.

(** C9. [validate_cleaned_data] is a total function (no path raises): its
    verdict is false exactly when the frame has no rows. A missing value in
    a column whose name contains "id" adds a WARNING to the diagnostics and
    leaves the verdict to the row count alone. The Dataset2 validator is
    the same function. *)
Theorem validator_fails_exactly_on_empty (df : DataFrame) :
  (snd (Climate.validate_cleaned_data df) = false <-> DF.len df = 0%nat) /\
  (snd (Climate.validate_cleaned_data df) = true <-> (0 < DF.len df)%nat) /\
  Dataset2.validate_cleaned_data df = Climate.validate_cleaned_data df /\
  (forall c s,
      In c (DF.names df) -> contains "id" (lower c) = true ->
      DF.getitem df c = Some s -> (0 < count_true (Ser.isnull s))%nat ->
      (exists counts,
          In (WARNING, NullsFound counts) (fst (Climate.validate_cleaned_data df))) /\
      snd (Climate.validate_cleaned_data df) = (0 <? DF.len df)%nat).
Proof.
  assert (V : snd (Climate.validate_cleaned_data df) = (0 <? DF.len df)%nat).
  { unfold Climate.validate_cleaned_data. destruct (0 <? DF.len df)%nat; reflexivity. }
  split; [rewrite V, Nat.ltb_ge; lia|].
  split; [rewrite V, Nat.ltb_lt; lia|].
  split; [reflexivity|].
  intros c s Hin Hid G Hnull. split; [|exact V].
  unfold Climate.validate_cleaned_data.
  set (critical := filter (fun col => contains "id" (lower col)) (DF.names df)).
  assert (Hc : In c critical) by (apply filter_In; auto).
  set (null_check := map _ critical).
  assert (P : (0 < list_sum (map snd null_check))%nat).
  { unfold null_check. rewrite map_map; simpl.
    apply (list_sum_pos _ critical c Hc). rewrite G. exact Hnull. }
  destruct critical as [|c0 rest] eqn:Ec; [contradiction|].
  destruct (list_sum (map snd null_check) =? 0)%nat eqn:Z;
    [apply Nat.eqb_eq in Z; lia|].
  eexists. destruct (0 <? DF.len df)%nat; simpl; left; reflexivity.
Qed.

Lemma validator_fails_exactly_on_empty_witness :
  (exists counts,
      In (WARNING, NullsFound counts)
         (fst (Climate.validate_cleaned_data missing_id_frame))) /\
  snd (Climate.validate_cleaned_data missing_id_frame) = true.
Proof.
  refine (proj2 (proj2 (proj2 (validator_fails_exactly_on_empty missing_id_frame)))
            "entity_id" (Object [Some "R1"; None]) _ _ _ _).
  - left; reflexivity.
  - reflexivity.
  - reflexivity.
  - vm_compute; lia.
Defined.

(** ** Sorting and winsorizing *)

Section SortFacts.
Variable A : Type.
Variable le : A -> A -> bool.

Lemma insert_sorted_length x l :
  List.length (insert_sorted le x l) = Datatypes.S (List.length l).
Proof. induction l as [|y l IH]; simpl; auto. destruct (le x y); simpl; auto. Qed.

Lemma sort_length l : List.length (sort le l) = List.length l.
Proof.
  induction l as [|x l IH]; simpl; auto.
  unfold sort in *; simpl. rewrite insert_sorted_length; auto.
Qed.

Lemma insert_sorted_in x y l : In y (insert_sorted le x l) <-> y = x \/ In y l.
Proof.
  induction l as [|z l IH]; simpl; [intuition|].
  destruct (le x z); simpl; [intuition|]. rewrite IH. intuition.
Qed.

Lemma sort_in y l : In y (sort le l) <-> In y l.
Proof.
  induction l as [|x l IH]; simpl; [tauto|].
  unfold sort in *; simpl. rewrite insert_sorted_in, IH. intuition.
Qed.

End SortFacts.

Lemma argsort_length (A : Type) (le : A -> A -> bool) (a : list A) : List.length (argsort le a) = List.length a.
Proof.
  unfold argsort. rewrite length_map, sort_length, length_combine, length_seq. lia.
Qed.

Lemma argsort_in_range (A : Type) (le : A -> A -> bool) (a : list A) p : In p (argsort le a) -> (p < List.length a)%nat.
Proof.
  unfold argsort. intros H. apply in_map_iff in H as ([x q] & <- & H).
  apply sort_in in H. apply in_combine_r in H. apply in_seq in H. simpl; lia.
Qed.

Section AssignFacts.
Variable A : Type.

Lemma assign_length ps (v : A) a : List.length (assign ps v a) = List.length a.
Proof. unfold assign. rewrite length_map, length_combine, length_seq. lia. Qed.

Lemma combine_seq_nth_error (a : list A) : forall k p,
  nth_error (combine (seq k (List.length a)) a) p
  = option_map (fun x => ((k + p)%nat, x)) (nth_error a p).
Proof.
  induction a as [|x a IH]; intros k [|p]; simpl; auto.
  - rewrite Nat.add_0_r; reflexivity.
  - rewrite IH. destruct (nth_error a p); simpl; auto.
    do 2 f_equal. lia.
Qed.

(** positions outside [ps] keep their value *)
Lemma assign_outside ps (v : A) a p :
  ~ In p ps -> nth_error (assign ps v a) p = nth_error a p.
Proof.
  intros N. unfold assign. rewrite nth_error_map, combine_seq_nth_error.
  destruct (nth_error a p); simpl; auto.
  destruct (existsb (Nat.eqb p) ps) eqn:E; auto.
  apply existsb_exists in E as (q & Hq & E). apply Nat.eqb_eq in E; subst.
  contradiction.
Qed.

Lemma item_in_range (a : list A) idx k :
  (k < List.length idx)%nat ->
  (forall p, In p idx -> (p < List.length a)%nat) ->
  exists v, item a idx k = Returned v.
Proof.
  intros Hk Hr. unfold item.
  destruct (nth_error idx k) as [p|] eqn:E;
    [|apply nth_error_None in E; lia].
  apply nth_error_In in E. apply Hr in E.
  destruct (nth_error a p) eqn:E'; [eauto|apply nth_error_None in E'; lia].
Qed.
End AssignFacts.

Lemma low_rank_bound n :
  (0 < n)%nat -> (int ((5 # 100) * Q_of_nat n) < n)%nat.
Proof.
  intros H. change (Z.to_nat (5 * Z.of_nat n / 100) < n)%nat.
  assert ((5 * Z.of_nat n / 100 < Z.of_nat n)%Z)
    by (apply Z.div_lt_upper_bound; lia).
  assert ((0 <= 5 * Z.of_nat n / 100)%Z) by (apply Z.div_pos; lia).
  lia.
Qed.

Lemma up_rank_bound n :
  (0 < n)%nat -> (int (Q_of_nat n * (5 # 100)) < n)%nat.
Proof.
  intros H. change (Z.to_nat (Z.of_nat n * 5 / 100) < n)%nat.
  assert ((Z.of_nat n * 5 / 100 < Z.of_nat n)%Z)
    by (apply Z.div_lt_upper_bound; lia).
  assert ((0 <= Z.of_nat n * 5 / 100)%Z) by (apply Z.div_pos; lia).
  lia.
Qed.

(** On a non-empty column winsorizing at 5%/5% returns, keeps the length,
    and touches only the positions ranked in the lowest [int(0.05 n)] or
    the highest [int(0.05 n)] places. *)
Lemma winsorize1D_ranks (A : Type) (le : A -> A -> bool) (a : list A) :
  a <> [] ->
  exists w, winsorize1D le a (5 # 100) (5 # 100) = Returned w /\
    List.length w = List.length a /\
    forall p,
      ~ In p (firstn (int ((5 # 100) * Q_of_nat (List.length a))) (argsort le a)) ->
      ~ In p (skipn (List.length a - int (Q_of_nat (List.length a) * (5 # 100)))
                    (argsort le a)) ->
      nth_error w p = nth_error a p.
Proof.
  intros Ne. assert (Hn : (0 < List.length a)%nat) by (destruct a; simpl; [congruence|lia]).
  unfold winsorize1D. change (Qeq_bool (5 # 100) 0) with false. cbv iota.
  set (n := List.length a) in *. set (idx := argsort le a).
  set (lowidx := int ((5 # 100) * Q_of_nat n)).
  destruct (@item_in_range A a idx lowidx) as [v Hv].
  { unfold idx. rewrite argsort_length. apply low_rank_bound; auto. }
  { intros p Hp. eapply argsort_in_range; eauto. }
  rewrite Hv. cbn [bind].
  set (a1 := assign (firstn lowidx idx) v a).
  pose proof (up_rank_bound Hn) as Hu. fold n in Hu.
  set (u := int (Q_of_nat n * (5 # 100))) in *.
  destruct (n - u)%nat as [|k] eqn:Ek; [lia|].
  destruct (@item_in_range A a1 idx k) as [v' Hv'].
  { unfold idx. rewrite argsort_length. fold n. lia. }
  { intros p Hp. unfold a1. rewrite assign_length. eapply argsort_in_range; eauto. }
  rewrite Hv'. cbn [bind]. eexists; split; [reflexivity|].
  split; [unfold a1; rewrite !assign_length; reflexivity|].
  intros p N1 N2. rewrite assign_outside by exact N2.
  unfold a1. apply assign_outside; exact N1.
Qed.

(** ** C10: IQR detection followed by rank-based capping *)

Lemma lookup_In_pair c cols s : DF.lookup c cols = Some s -> In (c, s) cols.
Proof.
  induction cols as [|[n s0] cols IH]; simpl; [discriminate|].
  destruct (String.eqb c n) eqn:E; [|auto].
  apply String.eqb_eq in E; subst. intros H; inv H; auto.
Qed.

Lemma NoDup_map_filter (A B : Type) (f : A -> B) (p : A -> bool) l :
  NoDup (map f l) -> NoDup (map f (filter p l)).
Proof.
  induction l as [|x l IH]; simpl; auto.
  intros H; inv H. destruct (p x); simpl; auto.
  constructor; auto. intros Hin; apply H2.
  apply in_map_iff in Hin as (y & <- & Hy). apply filter_In in Hy as [Hy _].
  apply in_map; auto.
Qed.

Lemma numeric_cols_in df c : In c (DF.numeric_cols df) -> In c (DF.names df).
Proof.
  unfold DF.numeric_cols, DF.names. intros H.
  apply in_map_iff in H as (x & <- & H). apply filter_In in H as [H _].
  apply in_map; auto.
Qed.

Lemma numeric_cols_complete df c s :
  DF.getitem df c = Some s -> Ser.is_numeric s = true -> In c (DF.numeric_cols df).
Proof.
  intros G N. apply lookup_In_pair in G. unfold DF.numeric_cols.
  apply in_map_iff. exists (c, s); split; auto. apply filter_In; auto.
Qed.

Lemma iqr_flagged_numeric s :
  (0 < iqr_flagged s)%nat ->
  (exists xs, s = Float64 xs /\ xs <> []) \/ (exists xs, s = Int64 xs /\ xs <> []).
Proof.
  destruct s as [xs|xs|xs|xs]; unfold iqr_flagged, REIT.identify_outliers_iqr; simpl.
  - destruct xs; [simpl; unfold count_true; simpl; lia|]. left; eexists; split; eauto; congruence.
  - destruct xs; [simpl; unfold count_true; simpl; lia|]. right; eexists; split; eauto; congruence.
  - unfold count_true; simpl; lia.
  - unfold count_true; simpl; lia.
Qed.

Lemma winsorize_flagged_returns s :
  (0 < iqr_flagged s)%nat -> exists w, winsorize s REIT.WINSORIZE_LIMITS = Returned w.
Proof.
  intros H. apply iqr_flagged_numeric in H as [(xs & -> & Ne)|(xs & -> & Ne)];
    unfold winsorize, REIT.WINSORIZE_LIMITS; simpl fst; simpl snd.
  - destruct (winsorize1D_ranks Float.sort_leb Ne) as (w & -> & _). simpl; eauto.
  - destruct (winsorize1D_ranks Z.leb Ne) as (w & -> & _). simpl; eauto.
Qed.

Lemma outlier_step_columnwise st c s :
  DF.getitem (fst st) c = Some s ->
  exists st', REIT.outlier_step "iqr" st c = Returned st' /\
    DF.names (fst st') = DF.names (fst st) /\
    index (fst st') = index (fst st) /\
    DF.getitem (fst st') c = Some (capped s) /\
    forall c', c <> c' -> DF.getitem (fst st') c' = DF.getitem (fst st) c'.
Proof.
  destruct st as [df sm]; simpl. intros G.
  unfold REIT.outlier_step. rewrite G.
  change (String.eqb "iqr" "iqr") with true. cbv iota. cbn [bind].
  unfold capped, iqr_flagged.
  destruct (0 <? count_true (REIT.identify_outliers_iqr s REIT.OUTLIER_THRESHOLD))%nat eqn:F.
  - apply Nat.ltb_lt in F. destruct (winsorize_flagged_returns s F) as [w W].
    rewrite W. cbn [bind]. eexists; split; [reflexivity|]. simpl.
    split; [eapply names_setitem_present; eauto|].
    split; [reflexivity|].
    split; [apply getitem_setitem_same|].
    intros; apply getitem_setitem_other; auto.
  - eexists; split; [reflexivity|]. simpl. auto.
Qed.

Lemma handle_outliers_iqr_columns df :
  NoDup (DF.names df) ->
  exists df' sm, REIT.handle_outliers df "iqr" = Returned (df', sm) /\
    DF.names df' = DF.names df /\
    index df' = index df /\
    forall c s, DF.getitem df c = Some s -> DF.getitem df' c = Some (capped s).
Proof.
  intros ND. unfold REIT.handle_outliers.
  destruct (columnwise_loop (@fst DataFrame REIT.outlier_summary)
              (REIT.outlier_step "iqr") capped outlier_step_columnwise
              (cs := DF.numeric_cols df) (df, REIT.mkOutlierSummary 0 0))
    as ([df' sm] & F & N & I & G).
  { apply NoDup_map_filter; exact ND. }
  { intros c Hc; simpl. apply numeric_cols_in; auto. }
  exists df', sm. simpl in *. split; [exact F|]. split; [exact N|]. split; [exact I|].
  intros c s Gc. rewrite G, Gc. simpl.
  destruct (existsb (String.eqb c) (DF.numeric_cols df)) eqn:E; [reflexivity|].
  f_equal. unfold capped.
  destruct (0 <? iqr_flagged s)%nat eqn:F'; [|reflexivity].
  apply Nat.ltb_lt in F'.
  assert (Ser.is_numeric s = true)
    by (apply iqr_flagged_numeric in F' as [(xs & -> & _)|(xs & -> & _)]; reflexivity).
  pose proof (numeric_cols_complete df c Gc H) as Hin.
  assert (existsb (String.eqb c) (DF.numeric_cols df) = true)
    by (apply existsb_exists; exists c; split; auto; apply String.eqb_refl).
  congruence.
Qed.

(** C10. Under "iqr", [handle_outliers] returns for every frame with
    distinct column labels; a column with no flagged value comes back
    unchanged, and a column with at least one flagged value comes back
    winsorized as a whole at the fixed 5%/5% limits. Winsorizing touches
    only the positions ranked in the lowest or highest [int(0.05 n)]
    places, whatever the IQR rule flagged: in [tail_column] one value is
    flagged and two are changed, one of them never flagged; in
    [iqr_example] one value is flagged and none is changed. *)
Theorem iqr_capping_is_rank_based :
  (forall df, NoDup (DF.names df) ->
     exists df' sm,
       REIT.handle_outliers df "iqr" = Returned (df', sm) /\
       DF.names df' = DF.names df /\
       forall c s, DF.getitem df c = Some s ->
         (iqr_flagged s = 0%nat -> DF.getitem df' c = Some s) /\
         ((0 < iqr_flagged s)%nat ->
          exists w, winsorize s REIT.WINSORIZE_LIMITS = Returned w /\
                    DF.getitem df' c = Some w)) /\
  (forall xs : list float, xs <> [] ->
     exists w,
       winsorize (Float64 xs) REIT.WINSORIZE_LIMITS = Returned (Float64 w) /\
       List.length w = List.length xs /\
       forall p,
         ~ In p (firstn (int ((5 # 100) * Q_of_nat (List.length xs)))
                        (argsort Float.sort_leb xs)) ->
         ~ In p (skipn (List.length xs - int (Q_of_nat (List.length xs) * (5 # 100)))
                       (argsort Float.sort_leb xs)) ->
         nth_error w p = nth_error xs p) /\
  (forall zs : list Z, zs <> [] ->
     exists w,
       winsorize (Int64 zs) REIT.WINSORIZE_LIMITS = Returned (Int64 w) /\
       List.length w = List.length zs /\
       forall p,
         ~ In p (firstn (int ((5 # 100) * Q_of_nat (List.length zs)))
                        (argsort Z.leb zs)) ->
         ~ In p (skipn (List.length zs - int (Q_of_nat (List.length zs) * (5 # 100)))
                       (argsort Z.leb zs)) ->
         nth_error w p = nth_error zs p) /\
  (exists df' sm w,
     REIT.handle_outliers tail_frame "iqr" = Returned (df', sm) /\
     DF.getitem df' "assets" = Some w /\
     REIT.outliers_found sm = 1%nat /\
     count_true (changed_mask tail_column w) = 2%nat /\
     nth 0 (REIT.identify_outliers_iqr tail_column REIT.OUTLIER_THRESHOLD) true = false /\
     nth 0 (changed_mask tail_column w) false = true) /\
  (exists df' sm,
     REIT.handle_outliers iqr_example_frame "iqr" = Returned (df', sm) /\
     REIT.outliers_found sm = 1%nat /\
     DF.getitem df' "assets" = Some iqr_example).
Proof.
  split; [|split; [|split; [|split]]].
  - intros df ND.
    destruct (handle_outliers_iqr_columns df ND) as (df' & sm & F & N & _ & G).
    exists df', sm. split; [exact F|]. split; [exact N|].
    intros c s Gc. rewrite (G _ _ Gc). unfold capped. split.
    + intros Z0. rewrite Z0. reflexivity.
    + intros P. destruct (winsorize_flagged_returns s P) as [w W].
      exists w. split; [exact W|].
      apply Nat.ltb_lt in P. rewrite P, W. reflexivity.
  - intros xs Ne. destruct (winsorize1D_ranks Float.sort_leb Ne) as (w & W & L & R).
    exists w. unfold winsorize, REIT.WINSORIZE_LIMITS; simpl fst; simpl snd.
    rewrite W. cbn [bind]. auto.
  - intros zs Ne. destruct (winsorize1D_ranks Z.leb Ne) as (w & W & L & R).
    exists w. unfold winsorize, REIT.WINSORIZE_LIMITS; simpl fst; simpl snd.
    rewrite W. cbn [bind]. auto.
  - eexists; eexists; eexists.
    split; [vm_compute; reflexivity|].
    split; [vm_compute; reflexivity|].
    repeat split; vm_compute; reflexivity.
  - eexists; eexists.
    split; [vm_compute; reflexivity|].
    split; vm_compute; reflexivity.
Qed.

Lemma iqr_capping_is_rank_based_witness :
  NoDup (DF.names tail_frame) /\
  exists df' sm,
    REIT.handle_outliers tail_frame "iqr" = Returned (df', sm) /\
    DF.names df' = DF.names tail_frame /\
    forall c s, DF.getitem tail_frame c = Some s ->
      (iqr_flagged s = 0%nat -> DF.getitem df' c = Some s) /\
      ((0 < iqr_flagged s)%nat ->
       exists w, winsorize s REIT.WINSORIZE_LIMITS = Returned w /\
                 DF.getitem df' c = Some w).
Proof.
  assert (ND : NoDup (DF.names tail_frame))
    by (repeat constructor; simpl; tauto).
  split; [exact ND|].
  exact (proj1 iqr_capping_is_rank_based tail_frame ND).
Defined.

(** ** C6: z-scores of a column without spread *)

Lemma Q_of_nat_nonzero k : (0 < k)%nat -> Qeq_bool (Q_of_nat k) 0 = false.
Proof.
  intros H. destruct (Qeq_bool (Q_of_nat k) 0) eqn:E; auto.
  apply Qeq_bool_eq in E. unfold Q_of_nat, Qeq in E; simpl in E. lia.
Qed.

Lemma Q_of_nat_succ n : (Q_of_nat (Datatypes.S n) == Q_of_nat n + 1)%Q.
Proof.
  unfold Q_of_nat. rewrite Nat2Z.inj_succ, <- Z.add_1_r, inject_Z_plus. reflexivity.
Qed.

Lemma count_true_all_false (A : Type) (f : A -> bool) (l : list A) :
  (forall x, In x l -> f x = false) -> map f l = repeat false (List.length l).
Proof.
  induction l as [|x l IH]; simpl; intros H; auto.
  rewrite (H x) by auto. f_equal; auto.
Qed.

Lemma count_true_repeat_false n : count_true (repeat false n) = 0%nat.
Proof. induction n; simpl; auto. Qed.

Lemma b64_length s : List.length (Ser.b64 s) = List.length (Ser.floats s).
Proof. unfold Ser.b64. apply length_map. Qed.

(** the cuts of [pairwise_sum] never run out of fuel: any bound from the
    length of the array on gives the same sum *)
Lemma pairwise_sum_fuel_enough f1 : forall f2 xs,
  (List.length xs <= f1)%nat -> (List.length xs <= f2)%nat ->
  B64.pairwise_sum f1 xs = B64.pairwise_sum f2 xs.
Proof.
  induction f1 as [|f1 IH]; intros [|f2] xs L1 L2; cbn [B64.pairwise_sum]; cbv zeta;
    destruct (List.length xs <=? 128)%nat eqn:E; try reflexivity;
    apply Nat.leb_gt in E; try lia.
  pose proof (Nat.div_mod_eq (List.length xs) 2) as D.
  pose proof (Nat.mod_upper_bound (List.length xs) 2) as M2.
  pose proof (Nat.mod_upper_bound (List.length xs / 2) 8) as M8.
  f_equal; apply IH; rewrite ?length_firstn, ?length_skipn; lia.
Qed.

(** two finite binary64 values that compare equal are the same value *)
Lemma b64_eqb_finite s m e s' m' e' :
  B64.eqb (S754_finite s m e) (S754_finite s' m' e') = true ->
  s = s' /\ m = m' /\ e = e'.
Proof.
  unfold B64.eqb, SFeqb, SFcompare.
  destruct s, s'; try discriminate;
    destruct (Z.compare e e') eqn:E; try discriminate;
    destruct (Pos.compare_cont Eq m m') eqn:M; try discriminate; intros _;
    apply Z.compare_eq in E; apply Pos.compare_eq in M; auto.
Qed.

(** a value minus an equal value is a zero, or NaN for two infinities *)
Lemma b64_sub_equal x m :
  B64.eqb x m = true ->
  B64.isnan (B64.sub x m) = true \/ B64.is_zero (B64.sub x m) = true.
Proof.
  destruct x as [[]|[]| |sx mx ex], m as [[]|[]| |sm mm em]; intros H;
    try discriminate H; try (destruct sx; discriminate H);
    try (destruct sm; discriminate H);
    try (right; reflexivity); try (left; reflexivity).
  apply b64_eqb_finite in H as (<- & <- & <-). right.
  unfold B64.sub, SFsub. rewrite Z.sub_diag. reflexivity.
Qed.

(** zero or NaN over zero is NaN: the division raises nothing *)
Lemma b64_div_by_zero d sd :
  B64.isnan d = true \/ B64.is_zero d = true ->
  B64.is_zero sd = true -> B64.div d sd = B64.nan.
Proof.
  destruct sd; try discriminate.
  destruct d; intros [H|H] _; try discriminate; reflexivity.
Qed.

Lemma b64_sub_nan m : B64.sub B64.nan m = B64.nan.
Proof. destruct m; reflexivity. Qed.

Lemma b64_div_nan sd : B64.div B64.nan sd = B64.nan.
Proof. destruct sd; reflexivity. Qed.

(** NaN is above no threshold *)
Lemma b64_nan_not_above th : B64.ltb th (B64.abs B64.nan) = false.
Proof. destruct th; reflexivity. Qed.

(** a missing value has a NaN z-score, whatever mean and deviation are *)
Lemma b64_z_of_nan mean std th :
  B64.ltb th (B64.abs (B64.div (B64.sub B64.nan mean) std)) = false.
Proof. rewrite b64_sub_nan, b64_div_nan. apply b64_nan_not_above. Qed.

(** fetch_Climate_data.py: no flag on a column whose computed deviation
    is zero and whose values sit on the computed mean *)
Lemma climate_zscore_mask_on_the_mean s t :
  std_is_zero s -> on_the_mean s ->
  Climate.zscore_mask s t = repeat false (List.length (Ser.floats s)).
Proof.
  unfold std_is_zero, on_the_mean. intros Z M.
  unfold Climate.zscore_mask. cbv zeta. rewrite map_map, <- b64_length.
  apply count_true_all_false. intros x Hx.
  rewrite Forall_forall in M. destruct (M x Hx) as [N|E].
  - destruct x; try discriminate. apply b64_z_of_nan.
  - rewrite (@b64_div_by_zero _ _ (@b64_sub_equal _ _ E) Z). apply b64_nan_not_above.
Qed.

(** fetch_REIT_data.py: scipy gives a constant column NaN z-scores *)
Lemma reit_zscore_mask_constant s t :
  constant_column s ->
  REIT.identify_outliers_zscore s t = repeat false (List.length (Ser.floats s)).
Proof.
  unfold constant_column, REIT.identify_outliers_zscore. cbv zeta.
  rewrite <- b64_length. destruct (Ser.b64 s) as [|first rest] eqn:E; [reflexivity|].
  intros C. unfold B64.zscore. rewrite C. rewrite map_map.
  apply count_true_all_false. intros x _. apply b64_nan_not_above.
Qed.

(** C6 (as stated, refuted). A column that repeats the binary64 value
    0x1.999999999999ap-564 three times is constant, and the standard
    deviation pandas computes for it is zero: the computed mean is the
    next value up, and the squared deviations underflow to zero. Every
    z-score is then an infinity, every value is flagged, and
    [handle_outliers_zscore] of the Climate script removes every row. *)
Lemma constant_column_off_its_mean_is_removed :
  constant_column (Float64 [tiny; tiny; tiny]) /\
  std_is_zero (Float64 [tiny; tiny; tiny]) /\
  B64.eqb (B64.of_float tiny) (B64.nanmean (Ser.b64 (Float64 [tiny; tiny; tiny])))
    = false /\
  Climate.zscore_mask (Float64 [tiny; tiny; tiny]) 3 = [true; true; true] /\
  Climate.handle_outliers_zscore tiny_frame 3
    = Returned (mkDataFrame [] [("rate", Float64 [])]).
Proof. repeat split; vm_compute; reflexivity. Qed.

(** C6 (amended). A numeric column whose computed standard deviation is
    zero and whose values all equal the computed mean gets no z-score flag
    in the Climate script: the division by that deviation yields NaN, not
    an exception, and NaN is above no threshold; the loop, which removes
    flagged rows, returns the frame and its counter untouched for such a
    column. In the REIT script a constant column gets no flag either
    (scipy gives it NaN z-scores), and the loop under "zscore" returns the
    frame and its summary untouched. *)
Theorem zscore_on_the_mean_flags_nothing (s : Series) (t : Q) :
  (std_is_zero s -> on_the_mean s ->
   Climate.zscore_mask s t = repeat false (List.length (Ser.floats s)) /\
   count_true (Climate.zscore_mask s t) = 0%nat /\
   forall df col n,
     DF.getitem df col = Some s ->
     Climate.zscore_step t (df, n) col = Returned (df, n)) /\
  (constant_column s ->
   REIT.identify_outliers_zscore s t = repeat false (List.length (Ser.floats s)) /\
   count_true (REIT.identify_outliers_zscore s t) = 0%nat /\
   forall df sm col,
     DF.getitem df col = Some s ->
     REIT.outlier_step "zscore" (df, sm) col = Returned (df, sm)).
Proof.
  split.
  - intros Z O. pose proof (climate_zscore_mask_on_the_mean t Z O) as M.
    split; [exact M|]. split; [rewrite M; apply count_true_repeat_false|].
    intros df col n G. unfold Climate.zscore_step. rewrite G, M.
    rewrite count_true_repeat_false. reflexivity.
  - intros C. pose proof (fun th => reit_zscore_mask_constant s th C) as M.
    split; [apply M|].
    split; [rewrite M; apply count_true_repeat_false|].
    intros df sm col G. unfold REIT.outlier_step. rewrite G.
    change (String.eqb "zscore" "iqr") with false.
    change (String.eqb "zscore" "zscore") with true. cbv iota. cbn [bind].
    rewrite M, count_true_repeat_false. reflexivity.
Qed.

Lemma zscore_on_the_mean_flags_nothing_witness :
  (std_is_zero (Float64 [Fin 3; Fin 3; Fin 3]) /\
   on_the_mean (Float64 [Fin 3; Fin 3; Fin 3]) /\
   Climate.zscore_step 3 (constant_frame, 0%nat) "rate"
     = Returned (constant_frame, 0%nat)) /\
  (constant_column (Float64 [Fin 3; Fin 3; Fin 3]) /\
   forall sm, REIT.outlier_step "zscore" (constant_frame, sm) "rate"
              = Returned (constant_frame, sm)).
Proof.
  assert (Z : std_is_zero (Float64 [Fin 3; Fin 3; Fin 3]))
    by (vm_compute; reflexivity).
  assert (O : on_the_mean (Float64 [Fin 3; Fin 3; Fin 3]))
    by (repeat constructor; right; vm_compute; reflexivity).
  assert (C : constant_column (Float64 [Fin 3; Fin 3; Fin 3]))
    by (vm_compute; reflexivity).
  split; [split; [exact Z|split; [exact O|]] | split; [exact C|]].
  - refine (proj2 (proj2 (proj1
              (zscore_on_the_mean_flags_nothing (Float64 [Fin 3; Fin 3; Fin 3]) 3)
              Z O)) constant_frame "rate" 0%nat _).
    reflexivity.
  - intros sm.
    refine (proj2 (proj2 (proj2
              (zscore_on_the_mean_flags_nothing (Float64 [Fin 3; Fin 3; Fin 3]) 3)
              C)) constant_frame sm "rate" _).
    reflexivity.
Defined.

(** ** C7: an unknown outlier method *)

(** C7 (as stated, refuted). With the outlier method set to an unknown
    name, the REIT pipeline runs every stage and hands a frame to the
    writer when the frame has no numeric column: no error is raised. *)
Lemma unknown_method_passes_without_numeric_columns :
  DF.numeric_cols text_frame = [] /\
  REIT.main to_datetime_iso "kmeans" text_frame
    = ([MissingValues; Outliers; Duplicates; Filters; Save], Returned text_frame).
Proof. split; vm_compute; reflexivity. Qed.

(** C7 (amended). With the outlier method neither "iqr" nor "zscore", the
    REIT pipeline aborts with [ValueError "Unknown outlier method: ..."]
    raised inside the outlier stage, once missing-value handling has run to
    completion, when the frame that stage receives has a numeric column;
    no later stage runs. *)
Theorem unknown_method_raises_in_outlier_stage
  (to_datetime : Series -> outcome (list (option Timestamp)))
  (method : string) (raw df1 : DataFrame) (ms : REIT.missing_summary) :
  method <> "iqr" -> method <> "zscore" ->
  REIT.clean_missing_values raw REIT.MISSING_VALUE_THRESHOLD = Returned (df1, ms) ->
  DF.numeric_cols df1 <> [] ->
  REIT.handle_outliers df1 method
    = Raised (ValueError ("Unknown outlier method: " ++ method)%string) /\
  REIT.main to_datetime method raw
    = ([MissingValues], Raised (ValueError ("Unknown outlier method: " ++ method)%string)).
Proof.
  intros N1 N2 C Hn.
  assert (H : REIT.handle_outliers df1 method
              = Raised (ValueError ("Unknown outlier method: " ++ method)%string)).
  { unfold REIT.handle_outliers.
    destruct (DF.numeric_cols df1) as [|c rest] eqn:E; [contradiction|].
    assert (Hin : In c (DF.names df1))
      by (apply numeric_cols_in; rewrite E; left; reflexivity).
    destruct (lookup_in_names c (columns df1) Hin) as [s G].
    cbn [for_each]. unfold REIT.outlier_step at 1. unfold DF.getitem. rewrite G.
    apply String.eqb_neq in N1, N2. rewrite N1, N2. reflexivity. }
  split; [exact H|].
  unfold REIT.main. rewrite C, H. reflexivity.
Qed.

Lemma unknown_method_raises_in_outlier_stage_witness :
  REIT.main to_datetime_iso "kmeans" tail_frame
    = ([MissingValues], Raised (ValueError "Unknown outlier method: kmeans")).
Proof.
  refine (proj2 (@unknown_method_raises_in_outlier_stage to_datetime_iso "kmeans"
                   tail_frame tail_frame
                   (REIT.mkMissingSummary 20 1 20 1 0) _ _ _ _)).
  - discriminate.
  - discriminate.
  - vm_compute; reflexivity.
  - vm_compute; discriminate.
Defined.

(** ** Missing-value handling, column by column *)

Lemma lookup_not_in c cols : ~ In c (map fst cols) -> DF.lookup c cols = None.
Proof.
  intros N. destruct (DF.lookup c cols) eqn:E; auto.
  apply lookup_names_in in E. contradiction.
Qed.

Lemma lookup_drop c cs cols :
  DF.lookup c (filter (fun col => negb (existsb (String.eqb (fst col)) cs)) cols)
  = if existsb (String.eqb c) cs then None else DF.lookup c cols.
Proof.
  induction cols as [|[n s] cols IH]; simpl.
  - destruct (existsb _ cs); reflexivity.
  - destruct (existsb (String.eqb n) cs) eqn:En; simpl.
    + rewrite IH. destruct (String.eqb c n) eqn:E; auto.
      apply String.eqb_eq in E; subst. rewrite En. reflexivity.
    + rewrite IH. destruct (String.eqb c n) eqn:E; auto.
      apply String.eqb_eq in E; subst. rewrite En. reflexivity.
Qed.

Lemma reit_impute_step_columnwise df c s :
  DF.getitem df c = Some s ->
  exists df', REIT.impute_step df c = Returned df' /\
    DF.names df' = DF.names df /\ index df' = index df /\
    DF.getitem df' c = Some (reit_imputed s) /\
    forall c', c <> c' -> DF.getitem df' c' = DF.getitem df c'.
Proof.
  intros G. unfold REIT.impute_step, reit_imputed. rewrite G.
  destruct (0 <? count_true (Ser.isnull s))%nat.
  - eexists; split; [reflexivity|].
    split; [eapply names_setitem_present; eauto|]. split; [reflexivity|].
    split; [apply getitem_setitem_same|]. intros; apply getitem_setitem_other; auto.
  - eexists; split; [reflexivity|]. auto.
Qed.

Lemma climate_impute_step_columnwise (mode : chained_fill) df c s :
  DF.getitem df c = Some s ->
  exists df', (Climate.impute_step mode) df c = Returned df' /\
    DF.names df' = DF.names df /\ index df' = index df /\
    DF.getitem df' c = Some (climate_imputed mode s) /\
    forall c', c <> c' -> DF.getitem df' c' = DF.getitem df c'.
Proof.
  intros G. unfold Climate.impute_step, climate_imputed. rewrite G.
  destruct (0 <? count_true (Ser.isnull s))%nat, mode;
    try (eexists; split; [reflexivity|]; auto; fail).
  eexists; split; [reflexivity|].
  split; [eapply names_setitem_present; eauto|]. split; [reflexivity|].
  split; [apply getitem_setitem_same|]. intros; apply getitem_setitem_other; auto.
Qed.

Lemma names_drop_NoDup df cs : NoDup (DF.names df) -> NoDup (DF.names (DF.drop df cs)).
Proof. unfold DF.names, DF.drop; simpl. apply NoDup_map_filter. Qed.

Lemma reit_drop_excessive_NoDup df th :
  NoDup (DF.names df) -> NoDup (DF.names (REIT.drop_excessive df th)).
Proof.
  unfold REIT.drop_excessive. destruct (0 <? _)%nat; auto using names_drop_NoDup.
Qed.

Lemma climate_drop_excessive_NoDup df th :
  NoDup (DF.names df) -> NoDup (DF.names (Climate.drop_excessive df th)).
Proof.
  unfold Climate.drop_excessive.
  destruct (Climate.cols_to_drop df th); auto using names_drop_NoDup.
Qed.

Lemma imputation_loop_columns (body : DataFrame -> string -> outcome DataFrame)
  (T : Series -> Series) (df1 : DataFrame) :
  (forall df c s, DF.getitem df c = Some s ->
     exists df', body df c = Returned df' /\
       DF.names df' = DF.names df /\ index df' = index df /\
       DF.getitem df' c = Some (T s) /\
       forall c', c <> c' -> DF.getitem df' c' = DF.getitem df c') ->
  NoDup (DF.names df1) ->
  exists df2, for_each body (DF.names df1) df1 = Returned df2 /\
    DF.names df2 = DF.names df1 /\ index df2 = index df1 /\
    forall c, DF.getitem df2 c = option_map T (DF.getitem df1 c).
Proof.
  intros B ND.
  destruct (columnwise_loop (fun d : DataFrame => d) body T B (cs := DF.names df1) df1 ND)
    as (df2 & F & N & I & G); [auto|].
  exists df2. repeat (split; auto).
  intros c. rewrite G. destruct (existsb (String.eqb c) (DF.names df1)) eqn:E; auto.
  assert (~ In c (DF.names df1)).
  { intros Hin. assert (existsb (String.eqb c) (DF.names df1) = true)
      by (apply existsb_exists; exists c; split; auto; apply String.eqb_refl).
    congruence. }
  unfold DF.getitem. rewrite lookup_not_in by auto. reflexivity.
Qed.

(** [clean_missing_values] always returns: the surviving columns are those
    of the frame after the drop step, each imputed on its own *)
Lemma reit_clean_columns df th :
  NoDup (DF.names df) ->
  exists df' sm,
    REIT.clean_missing_values df th = Returned (df', sm) /\
    DF.names df' = DF.names (REIT.drop_excessive df th) /\
    index df' = index df /\
    forall c, DF.getitem df' c
              = option_map reit_imputed (DF.getitem (REIT.drop_excessive df th) c).
Proof.
  intros ND. unfold REIT.clean_missing_values.
  destruct (imputation_loop_columns REIT.impute_step reit_imputed
              (REIT.drop_excessive df th) reit_impute_step_columnwise
              (reit_drop_excessive_NoDup df th ND)) as (df2 & -> & N & I & G).
  cbn [bind]. eexists; eexists; split; [reflexivity|].
  repeat (split; auto). rewrite I. unfold REIT.drop_excessive.
  destruct (0 <? _)%nat; reflexivity.
Qed.

Lemma climate_clean_columns (mode : chained_fill) df th :
  NoDup (DF.names df) ->
  exists df',
    Climate.clean_missing_values mode df th = Returned df' /\
    DF.names df' = DF.names (Climate.drop_excessive df th) /\
    index df' = index df /\
    forall c, DF.getitem df' c
              = option_map (climate_imputed mode) (DF.getitem (Climate.drop_excessive df th) c).
Proof.
  intros ND. unfold Climate.clean_missing_values.
  destruct (imputation_loop_columns (Climate.impute_step mode) (climate_imputed mode)
              (Climate.drop_excessive df th) (climate_impute_step_columnwise mode)
              (climate_drop_excessive_NoDup df th ND)) as (df2 & -> & N & I & G).
  eexists; split; [reflexivity|].
  repeat (split; auto). rewrite I. unfold Climate.drop_excessive.
  destruct (Climate.cols_to_drop df th); reflexivity.
Qed.

(** ** C3: a threshold of 1.0 or more *)

Lemma count_true_map_le (A : Type) (f : A -> bool) l :
  (count_true (map f l) <= List.length l)%nat.
Proof.
  unfold count_true. rewrite <- (length_map f l). apply filter_length_le.
Qed.

Lemma isnull_count_le s : (count_true (Ser.isnull s) <= Ser.len s)%nat.
Proof.
  unfold Ser.isnull. rewrite <- cells_length. apply count_true_map_le.
Qed.



Lemma filter_nil (A : Type) (p : A -> bool) l :
  (forall x, In x l -> p x = false) -> filter p l = [].
Proof.
  induction l as [|x l IH]; simpl; intros H; auto.
  rewrite (H x) by auto. apply IH; auto.
Qed.

Lemma Qlt_bool_false a b : (b <= a)%Q -> Float.Qlt_bool a b = false.
Proof.
  intros H. unfold Float.Qlt_bool. apply Qle_bool_iff in H. rewrite H. reflexivity.
Qed.









(** ** C4: what the filters print as removed *)

Lemma lookup_loc m c cols :
  DF.lookup c (map (fun col => (fst col, Ser.take m (snd col))) cols)
  = option_map (Ser.take m) (DF.lookup c cols).
Proof.
  induction cols as [|[n s] cols IH]; simpl; auto.
  destruct (String.eqb c n); auto.
Qed.

Lemma getitem_loc df m c :
  DF.getitem (DF.loc df m) c = option_map (Ser.take m) (DF.getitem df c).
Proof. apply lookup_loc. Qed.

Lemma count_true_kept (A : Type) (f : A -> bool) (l : list A) :
  count_true (map f (mask_filter (map f l) l)) = count_true (map f l).
Proof.
  unfold count_true. induction l as [|x l IH]; simpl; auto.
  destruct (f x) eqn:E; simpl; rewrite ?E; simpl; rewrite IH; reflexivity.
Qed.

(** fetch_REIT_data.py, FILTER 3: the number printed is always zero *)
Lemma reit_filter_returns_prints_zero df df' n :
  REIT.filter_returns df = Returned (df', n) -> n = 0%Z.
Proof.
  unfold REIT.filter_returns. destruct (DF.getitem df "usdret") as [r|] eqn:G;
    [|discriminate].
  intros H; inv H. unfold REIT.notna_count. rewrite getitem_loc, G.
  cbn [option_map]. unfold Ser.notna. rewrite cells_take, count_true_kept. lia.
Qed.

(** C4 (the code differs). On [gap_frame] the REIT chain removes the one
    row whose [assets] is missing in Filter 2 and prints "removed 0 rows"
    for it, because it subtracts counts of non-null cells; Filter 3
    prints 0 whatever it removes, also at the end of the whole pipeline
    run on [inf_frame], where it removes one row of three. The Climate
    filters print the drop in row count. *)
Theorem reit_filter_reports_miss_removed_rows :
  (exists df1 df2 s,
     REIT.filter_assets gap_frame = Returned (df1, 0%Z) /\
     DF.len gap_frame = 2%nat /\ DF.len df1 = 1%nat /\
     REIT.apply_filters to_datetime_iso gap_frame
       = Returned (df2, s, [mkReport "Filter 2" (Some 0%Z); mkReport "Filter 3" (Some 0%Z)]) /\
     REIT.f_rows_before s = 2%nat /\ REIT.f_rows_after s = 1%nat) /\
  (exists df1,
     REIT.filter_returns (DF.drop gap_frame ["assets"]) = Returned (df1, 0%Z) /\
     DF.len (DF.drop gap_frame ["assets"]) = 2%nat /\ DF.len df1 = 1%nat) /\
  (exists df1 ms os ds df4 s,
     REIT.clean_missing_values inf_frame REIT.MISSING_VALUE_THRESHOLD
       = Returned (df1, ms) /\
     REIT.handle_outliers df1 REIT.OUTLIER_METHOD = Returned (df1, os) /\
     REIT.remove_duplicates df1 = (df1, ds) /\
     REIT.apply_filters to_datetime_iso df1
       = Returned (df4, s, [mkReport "Filter 3" (Some 0%Z)]) /\
     REIT.f_rows_before s = 3%nat /\ REIT.f_rows_after s = 2%nat) /\
  (forall df df' n, REIT.filter_returns df = Returned (df', n) -> n = 0%Z) /\
  (forall df df' n,
     Climate.filter_price df = Returned (df', n) \/
     Climate.filter_climate df = Returned (df', n) \/
     Climate.filter_paired df = (df', n) \/
     Climate.filter_returns df = Returned (df', n) ->
     n = (Z.of_nat (DF.len df) - Z.of_nat (DF.len df'))%Z).
Proof.
  split; [|split; [|split; [|split]]].
  - eexists; eexists; eexists.
    split; [vm_compute; reflexivity|].
    split; [reflexivity|]. split; [reflexivity|].
    split; [vm_compute; reflexivity|]. split; reflexivity.
  - eexists. split; [vm_compute; reflexivity|]. split; reflexivity.
  - do 6 eexists.
    split; [vm_compute; reflexivity|].
    split; [vm_compute; reflexivity|].
    split; [vm_compute; reflexivity|].
    split; [vm_compute; reflexivity|]. split; reflexivity.
  - apply reit_filter_returns_prints_zero.
  - intros df df' n [H|[H|[H|H]]].
    + unfold Climate.filter_price in H.
      destruct (DF.getitem df "stock_price"); [|discriminate].
      step_in H. inv H. reflexivity.
    + unfold Climate.filter_climate in H.
      destruct (DF.getitem df "climate_score"); [|discriminate].
      inv H. reflexivity.
    + unfold Climate.filter_paired in H. inv H. reflexivity.
    + unfold Climate.filter_returns in H.
      destruct (DF.getitem df "returns"); [|discriminate].
      step_in H. inv H. reflexivity.
Qed.

(** ** C2: what missing-value handling leaves behind *)

(** C2 (the code differs). A float column holding [inf], [-inf] and one
    missing value passes the drop step (one third missing), its median is
    the mean of [-inf] and [inf], which is NaN, and filling with NaN fills
    nothing: both scripts return the frame with the missing value still
    in it. *)
Theorem infinite_median_leaves_missing_value :
  REIT.clean_missing_values inf_frame REIT.MISSING_VALUE_THRESHOLD
    = Returned (inf_frame, REIT.mkMissingSummary 3 1 3 1 0) /\
  (forall mode,
      Climate.clean_missing_values mode inf_frame Climate.MISSING_THRESHOLD
      = Returned inf_frame) /\
  DF.getitem inf_frame "usdret" = Some (Float64 [PInf; NInf; NaN]) /\
  Ser.isnull (Float64 [PInf; NInf; NaN]) = [false; false; true] /\
  Stats.median [PInf; NInf; NaN] = NaN.
Proof. repeat split; try intros []; vm_compute; reflexivity. Qed.

Lemma count_true_map (A : Type) (f : A -> bool) l :
  count_true (map f l) = List.length (filter f l).
Proof.
  unfold count_true. induction l as [|x l IH]; simpl; auto.
  destruct (f x); simpl; auto.
Qed.

(** a column that survives a threshold below one has a present value,
    unless the frame is empty *)
Lemma ratio_below_one cnt len th :
  (cnt <= len)%nat -> (th < 1)%Q ->
  Float.gtb (Float.div (Stats.of_nat cnt) (Stats.of_nat len)) (Fin th) = false ->
  (cnt < len)%nat \/ len = 0%nat.
Proof.
  intros L T H. destruct len as [|len]; [auto|]. left.
  destruct (Nat.eq_dec cnt (Datatypes.S len)) as [->|]; [|lia].
  exfalso. unfold Stats.of_nat, Float.div in H.
  rewrite Q_of_nat_nonzero in H by lia.
  unfold Float.gtb, Float.ltb, Float.Qlt_bool in H.
  apply negb_false_iff, Qle_bool_iff in H.
  assert (N : ~ (Q_of_nat (Datatypes.S len) == 0)%Q).
  { intros E. apply Qeq_eq_bool in E. rewrite Q_of_nat_nonzero in E by lia.
    discriminate. }
  assert (E1 : (Q_of_nat (Datatypes.S len) / Q_of_nat (Datatypes.S len) == 1)%Q)
    by (field; exact N).
  rewrite E1 in H. lra.
Qed.

Lemma climate_ratio_below_one cnt len th :
  (cnt <= len)%nat -> (th < 1)%Q ->
  Float.gtb (Float.mul (Float.div (Stats.of_nat cnt) (Stats.of_nat len)) (Fin 100))
            (Fin (th * 100)) = false ->
  (cnt < len)%nat \/ len = 0%nat.
Proof.
  intros L T H. destruct len as [|len]; [auto|]. left.
  destruct (Nat.eq_dec cnt (Datatypes.S len)) as [->|]; [|lia].
  exfalso. unfold Stats.of_nat, Float.div in H.
  rewrite Q_of_nat_nonzero in H by lia.
  unfold Float.gtb, Float.ltb, Float.mul, Float.Qlt_bool in H.
  apply negb_false_iff, Qle_bool_iff in H.
  assert (N : ~ (Q_of_nat (Datatypes.S len) == 0)%Q).
  { intros E. apply Qeq_eq_bool in E. rewrite Q_of_nat_nonzero in E by lia.
    discriminate. }
  assert (E1 : (Q_of_nat (Datatypes.S len) / Q_of_nat (Datatypes.S len) == 1)%Q)
    by (field; exact N).
  rewrite E1 in H. lra.
Qed.

(** the columns of the frame after the drop step come from the input and
    were not above the threshold *)
Lemma reit_survivor df th c s :
  DF.getitem (REIT.drop_excessive df th) c = Some s ->
  In (c, s) (columns df) /\
  Float.gtb (missing_ratio df s) (Fin th) = false.
Proof.
  intros G.
  assert (G0 : DF.getitem df c = Some s /\ ~ In c (REIT.cols_to_drop df th)).
  { unfold REIT.drop_excessive in G.
    destruct (0 <? List.length (REIT.cols_to_drop df th))%nat eqn:E.
    - unfold DF.getitem, DF.drop in G; simpl in G. rewrite lookup_drop in G.
      destruct (existsb (String.eqb c) (REIT.cols_to_drop df th)) eqn:X; [discriminate|].
      split; auto. intros Hin.
      assert (existsb (String.eqb c) (REIT.cols_to_drop df th) = true)
        by (apply existsb_exists; exists c; split; auto; apply String.eqb_refl).
      congruence.
    - apply Nat.ltb_ge in E. destruct (REIT.cols_to_drop df th); simpl in *; [auto|lia]. }
  destruct G0 as [G0 N]. apply lookup_In_pair in G0. split; auto.
  destruct (Float.gtb (missing_ratio df s) (Fin th)) eqn:R; auto.
  exfalso. apply N. unfold REIT.cols_to_drop.
  apply in_map_iff. exists (c, s). split; auto. apply filter_In; auto.
Qed.

Lemma climate_survivor df th c s :
  DF.getitem (Climate.drop_excessive df th) c = Some s ->
  In (c, s) (columns df) /\
  Float.gtb (Float.mul (missing_ratio df s) (Fin 100)) (Fin (th * 100)) = false.
Proof.
  intros G.
  assert (G0 : DF.getitem df c = Some s /\ ~ In c (Climate.cols_to_drop df th)).
  { unfold Climate.drop_excessive in G.
    destruct (Climate.cols_to_drop df th) as [|c0 rest] eqn:E; [auto|].
    rewrite <- E in G.
    unfold DF.getitem, DF.drop in G; simpl in G. rewrite lookup_drop in G.
    destruct (existsb (String.eqb c) (Climate.cols_to_drop df th)) eqn:X; [discriminate|].
    split; auto. rewrite <- E. intros Hin.
    assert (existsb (String.eqb c) (Climate.cols_to_drop df th) = true)
      by (apply existsb_exists; exists c; split; auto; apply String.eqb_refl).
    congruence. }
  destruct G0 as [G0 N]. apply lookup_In_pair in G0. split; auto.
  destruct (Float.gtb _ (Fin (th * 100))) eqn:R; auto.
  exfalso. apply N. unfold Climate.cols_to_drop.
  apply in_map_iff. exists (c, s). split; auto. apply filter_In; auto.
Qed.

Lemma dropna_length xs :
  (List.length (Stats.dropna xs) + count_true (Ser.isnull (Float64 xs)) = List.length xs)%nat.
Proof.
  unfold Stats.dropna, Ser.isnull. simpl. rewrite map_map, count_true_map. simpl.
  rewrite Nat.add_comm. apply filter_length.
Qed.

Lemma dropna_finite xs x :
  no_infinity (Float64 xs) -> In x (Stats.dropna xs) -> exists q, x = Fin q.
Proof.
  simpl. rewrite Forall_forall. intros H Hx. unfold Stats.dropna in Hx.
  apply filter_In in Hx as [Hx N]. destruct (H x Hx) as [P M].
  destruct x; try discriminate; try congruence. eauto.
Qed.

(** the median of finite data with at least one present value is finite *)
Lemma median_finite xs :
  no_infinity (Float64 xs) -> Stats.dropna xs <> [] -> exists m, Stats.median xs = Fin m.
Proof.
  intros F Ne. unfold Stats.median.
  set (s := sort Float.sort_leb (Stats.dropna xs)).
  assert (Hs : forall x, In x s -> exists q, x = Fin q).
  { intros x Hx. apply sort_in in Hx. eapply dropna_finite; eauto. }
  assert (Hn : (0 < List.length s)%nat).
  { unfold s. rewrite sort_length. destruct (Stats.dropna xs); simpl; [congruence|lia]. }
  destruct (List.length s =? 0)%nat eqn:Z; [apply Nat.eqb_eq in Z; lia|].
  assert (H2 : (List.length s / 2 < List.length s)%nat) by (apply Nat.div_lt; lia).
  destruct (Hs (nth (List.length s / 2) s NaN)) as [b Hb]; [apply nth_In; lia|].
  destruct (Nat.even (List.length s)).
  - destruct (Hs (nth (List.length s / 2 - 1) s NaN)) as [a Ha]; [apply nth_In; lia|].
    rewrite Ha, Hb. eexists. reflexivity.
  - eauto.
Qed.

Lemma fillna_no_missing m xs : no_missing (Float64 (Ser.fillna_float (Fin m) xs)).
Proof.
  unfold no_missing, Ser.isnull, Ser.fillna_float. simpl. rewrite !map_map.
  rewrite count_true_map. apply length_zero_iff_nil, filter_nil.
  intros x _. simpl. destruct x; reflexivity.
Qed.

Lemma fill_no_missing_object v xs : no_missing (Object (fill v xs)).
Proof.
  unfold no_missing, Ser.isnull, fill. simpl. rewrite !map_map.
  rewrite count_true_map. apply length_zero_iff_nil, filter_nil.
  intros x _. destruct x; reflexivity.
Qed.

Lemma fill_no_missing_datetime v xs : no_missing (Datetime64 (fill v xs)).
Proof.
  unfold no_missing, Ser.isnull, fill. simpl. rewrite !map_map.
  rewrite count_true_map. apply length_zero_iff_nil, filter_nil.
  intros x _. destruct x; reflexivity.
Qed.

Lemma unknown_no_missing (A : Type) (xs : list A) :
  no_missing (Object (map (fun _ => Some "Unknown") xs)).
Proof.
  unfold no_missing, Ser.isnull. simpl. rewrite !map_map.
  rewrite count_true_map. apply length_zero_iff_nil, filter_nil. reflexivity.
Qed.

Lemma fold_best_some (A : Type) (g : A -> A -> bool) l : forall b,
  exists v,
    fold_left (fun best x =>
                 match best with
                 | None => Some x
                 | Some b => if g b x then Some x else Some b
                 end) l (Some b) = Some v.
Proof.
  induction l as [|y l IH]; simpl; intros b; [eauto|].
  destruct (g b y); apply IH.
Qed.

Lemma mode_of_nonempty (A : Type) (eqb ltb : A -> A -> bool) l :
  l <> [] -> exists v, mode_of eqb ltb l = Some v.
Proof.
  intros Ne. unfold mode_of.
  assert (G : forall full, exists v,
    fold_left
      (fun best x =>
         match best with
         | None => Some x
         | Some b =>
             if (occurrences eqb b full <? occurrences eqb x full)%nat
                || ((occurrences eqb b full =? occurrences eqb x full)%nat && ltb x b)
             then Some x else Some b
         end) l None = Some v).
  { intros full. destruct l as [|x l']; [congruence|]. cbn [fold_left].
    apply (fold_best_some
             (fun b x0 => (occurrences eqb b full <? occurrences eqb x0 full)%nat
                          || ((occurrences eqb b full =? occurrences eqb x0 full)%nat
                              && ltb x0 b))). }
  apply G.
Qed.

Lemma present_nonempty (A : Type) (xs : list (option A)) :
  (List.length (filter (fun o => match o with None => true | Some _ => false end) xs)
   < List.length xs)%nat ->
  present xs <> [].
Proof.
  induction xs as [|[a|] xs IH]; simpl; intros H; [lia|discriminate|].
  apply IH. lia.
Qed.

Lemma datetime_nulls xs :
  count_true (Ser.isnull (Datetime64 xs))
  = List.length (filter (fun o : option Timestamp =>
                           match o with None => true | Some _ => false end) xs).
Proof.
  unfold Ser.isnull. simpl. rewrite map_map, count_true_map.
  f_equal. apply filter_ext. intros [t|]; reflexivity.
Qed.

Lemma int_no_missing xs : no_missing (Int64 xs).
Proof.
  unfold no_missing, Ser.isnull. simpl. rewrite map_map, count_true_map.
  apply length_zero_iff_nil, filter_nil. reflexivity.
Qed.

Lemma reit_imputed_no_missing s :
  no_infinity s ->
  (count_true (Ser.isnull s) < Ser.len s)%nat \/ Ser.len s = 0%nat ->
  no_missing (reit_imputed s).
Proof.
  intros F H. unfold reit_imputed.
  destruct (0 <? count_true (Ser.isnull s))%nat eqn:P;
    [|apply Nat.ltb_ge in P; unfold no_missing; lia].
  apply Nat.ltb_lt in P.
  assert (L : (count_true (Ser.isnull s) < Ser.len s)%nat)
    by (pose proof (isnull_count_le s); lia).
  destruct s as [xs|xs|xs|xs]; simpl REIT.impute.
  - destruct (median_finite F) as [m ->]; [|apply fillna_no_missing].
    pose proof (dropna_length xs). simpl in L.
    destruct (Stats.dropna xs); simpl in *; [lia|congruence].
  - apply int_no_missing.
  - apply fill_no_missing_object.
  - destruct (mode_of Time.eqb Time.ltb (present xs));
      [apply fill_no_missing_datetime | apply unknown_no_missing].
Qed.

Lemma climate_imputed_no_missing s :
  no_infinity s ->
  (count_true (Ser.isnull s) < Ser.len s)%nat \/ Ser.len s = 0%nat ->
  no_missing (climate_imputed WritesThrough s).
Proof.
  intros F H. unfold climate_imputed.
  destruct (0 <? count_true (Ser.isnull s))%nat eqn:P;
    [|apply Nat.ltb_ge in P; unfold no_missing; lia].
  apply Nat.ltb_lt in P.
  assert (L : (count_true (Ser.isnull s) < Ser.len s)%nat)
    by (pose proof (isnull_count_le s); lia).
  destruct s as [xs|xs|xs|xs]; simpl Climate.impute.
  - destruct (median_finite F) as [m ->]; [|apply fillna_no_missing].
    pose proof (dropna_length xs). simpl in L.
    destruct (Stats.dropna xs); simpl in *; [lia|congruence].
  - apply int_no_missing.
  - apply fill_no_missing_object.
  - rewrite datetime_nulls in L. simpl in L.
    destruct (mode_of_nonempty Time.eqb Time.ltb (present_nonempty xs L)) as [t ->].
    apply fill_no_missing_datetime.
Qed.

Lemma copy_fill_changes_nothing df : forall cs,
  (forall c, In c cs -> In c (DF.names df)) ->
  for_each (Climate.impute_step ActsOnCopy) cs df = Returned df.
Proof.
  induction cs as [|c cs IH]; intros Hin; [reflexivity|].
  simpl. destruct (lookup_in_names c (columns df) (Hin c (or_introl eq_refl)))
    as [s G].
  unfold Climate.impute_step at 1. unfold DF.getitem at 1. rewrite G.
  destruct (0 <? _)%nat; cbn [bind]; apply IH; intros; apply Hin; right; auto.
Qed.

(** with a fill that acts on a copy, [clean_missing_values] of the Climate
    and Dataset2 scripts only drops columns *)
Lemma climate_clean_on_copy df th :
  Climate.clean_missing_values ActsOnCopy df th
  = Returned (Climate.drop_excessive df th).
Proof.
  unfold Climate.clean_missing_values. apply copy_fill_changes_nothing. auto.
Qed.

(** X1. On a well-formed frame without infinite cells and with a threshold
    below one, the REIT [clean_missing_values] returns and no column of
    its result has a missing value. The Climate and Dataset2 function does
    the same when its in-place fill writes through to the frame; when the
    fill acts on a copy it fills nothing and returns the frame as the drop
    step left it. *)
Theorem clean_missing_values_fills_finite_data (df : DataFrame) (th : Q) :
  DF.wf df -> (th < 1)%Q ->
  (forall c s, In (c, s) (columns df) -> no_infinity s) ->
  (exists df' sm,
      REIT.clean_missing_values df th = Returned (df', sm) /\
      forall c s, DF.getitem df' c = Some s -> no_missing s) /\
  (exists df',
      Climate.clean_missing_values WritesThrough df th = Returned df' /\
      forall c s, DF.getitem df' c = Some s -> no_missing s) /\
  Climate.clean_missing_values ActsOnCopy df th
  = Returned (Climate.drop_excessive df th).
Proof.
  intros [ND A] T F. unfold DF.aligned in *. rewrite Forall_forall in A.
  split; [|split].
  - destruct (reit_clean_columns df th ND) as (df' & sm & C & _ & _ & G).
    exists df', sm. split; [exact C|]. intros c s' Gs. rewrite G in Gs.
    destruct (DF.getitem (REIT.drop_excessive df th) c) as [s|] eqn:G1; [|discriminate].
    simpl in Gs. inv Gs. destruct (reit_survivor df th c G1) as [Hin R].
    apply reit_imputed_no_missing; [eapply F; eauto|].
    specialize (A _ Hin). simpl in A. rewrite A.
    unfold missing_ratio in R. eapply ratio_below_one; eauto.
    rewrite <- A. apply isnull_count_le.
  - destruct (climate_clean_columns WritesThrough df th ND) as (df' & C & _ & _ & G).
    exists df'. split; [exact C|]. intros c s' Gs. rewrite G in Gs.
    destruct (DF.getitem (Climate.drop_excessive df th) c) as [s|] eqn:G1; [|discriminate].
    simpl in Gs. inv Gs. destruct (climate_survivor df th c G1) as [Hin R].
    apply climate_imputed_no_missing; [eapply F; eauto|].
    specialize (A _ Hin). simpl in A. rewrite A.
    unfold missing_ratio in R. eapply climate_ratio_below_one; eauto.
    rewrite <- A. apply isnull_count_le.
  - apply climate_clean_on_copy.
Qed.

Lemma clean_missing_values_fills_finite_data_witness :
  (exists df' sm,
      REIT.clean_missing_values patchy_frame REIT.MISSING_VALUE_THRESHOLD
        = Returned (df', sm) /\
      forall c s, DF.getitem df' c = Some s -> no_missing s) /\
  (exists df',
      Climate.clean_missing_values WritesThrough patchy_frame Climate.MISSING_THRESHOLD
        = Returned df' /\
      forall c s, DF.getitem df' c = Some s -> no_missing s) /\
  Climate.clean_missing_values ActsOnCopy patchy_frame Climate.MISSING_THRESHOLD
  = Returned (DF.drop patchy_frame ["empty"]).
Proof.
  assert (W : DF.wf patchy_frame)
    by (split; [repeat constructor; simpl; intuition discriminate | repeat constructor]).
  assert (F : forall c s, In (c, s) (columns patchy_frame) -> no_infinity s)
    by (intros c s [E|[E|[E|[]]]]; inversion E; subst; simpl; auto;
        repeat constructor; discriminate).
  split; [|split].
  - exact (proj1 (@clean_missing_values_fills_finite_data patchy_frame
                    REIT.MISSING_VALUE_THRESHOLD W eq_refl F)).
  - exact (proj1 (proj2 (@clean_missing_values_fills_finite_data patchy_frame
                           Climate.MISSING_THRESHOLD W eq_refl F))).
  - exact (proj2 (proj2 (@clean_missing_values_fills_finite_data patchy_frame
                           Climate.MISSING_THRESHOLD W eq_refl F))).
Defined.

(** ** Capping keeps every row *)

Lemma outlier_step_index method st col st' :
  REIT.outlier_step method st col = Returned st' -> index (fst st') = index (fst st).
Proof.
  destruct st as [df sm]. unfold REIT.outlier_step.
  destruct (DF.getitem df col); [|discriminate].
  intros H. step_in H.
  destruct (0 <? _)%nat.
  - step_in H. inv H. reflexivity.
  - inv H. reflexivity.
Qed.

(** Whatever the method, when [handle_outliers] returns, the frame it
    returns has the row index of its input: capping removes no row. *)
Theorem handle_outliers_keeps_rows (df df' : DataFrame) (method : string)
  (sm : REIT.outlier_summary) :
  REIT.handle_outliers df method = Returned (df', sm) ->
  index df' = index df /\ DF.len df' = DF.len df.
Proof.
  unfold REIT.handle_outliers. intros H.
  apply (for_each_preserves (fun a b : DataFrame * REIT.outlier_summary =>
                               index (fst b) = index (fst a))) in H.
  - simpl in H. unfold DF.len. rewrite H. auto.
  - reflexivity.
  - intros a b c H1 H2. congruence.
  - intros s x s' B. eapply outlier_step_index; eauto.
Qed.

Lemma handle_outliers_keeps_rows_witness :
  exists df' sm,
    REIT.handle_outliers tail_frame "iqr" = Returned (df', sm) /\
    index df' = index tail_frame /\ DF.len df' = DF.len tail_frame.
Proof.
  assert (E : REIT.handle_outliers tail_frame "iqr"
              = Returned
                  (mkDataFrame (seq 0 20)
                     [("assets",
                       Float64 (map Float.of_Z
                                  [2; 2; 3; 4; 5; 6; 7; 8; 9; 10; 11; 12; 13; 14; 15;
                                   16; 17; 18; 19; 19]%Z))],
                   REIT.mkOutlierSummary 1 1))
    by (vm_compute; reflexivity).
  eexists; eexists. split; [exact E|].
  exact (@handle_outliers_keeps_rows _ _ _ _ E).
Defined.

(** ** The minimum-observations filter *)

Lemma float_same_refl x : Float.same x x = true.
Proof. destruct x; simpl; auto. apply Qeq_bool_refl. Qed.

Lemma float_same_sym x y : Float.same x y = true -> Float.same y x = true.
Proof. destruct x, y; simpl; auto. apply Qeq_bool_sym. Qed.

Lemma float_same_trans x y z :
  Float.same x y = true -> Float.same y z = true -> Float.same x z = true.
Proof. destruct x, y, z; simpl; auto; try discriminate. apply Qeq_bool_trans. Qed.

Lemma time_eqb_eq a b : Time.eqb a b = true <-> a = b.
Proof.
  destruct a, b; unfold Time.eqb; simpl.
  rewrite !andb_true_iff, !Z.eqb_eq. split.
  - intros [[[-> ->] ->] ->]. reflexivity.
  - intros H; inv H. auto.
Qed.

Lemma cell_same_refl c : Cell.same c c = true.
Proof.
  destruct c; simpl; auto using float_same_refl, Z.eqb_refl, String.eqb_refl.
  apply time_eqb_eq; reflexivity.
Qed.

Lemma cell_same_sym a b : Cell.same a b = true -> Cell.same b a = true.
Proof.
  destruct a, b; simpl; auto using float_same_sym.
  - rewrite Z.eqb_sym; auto.
  - rewrite String.eqb_sym; auto.
  - rewrite !time_eqb_eq; auto.
Qed.

Lemma cell_same_trans a b c :
  Cell.same a b = true -> Cell.same b c = true -> Cell.same a c = true.
Proof.
  destruct a, b, c; simpl; auto; try discriminate.
  - apply float_same_trans.
  - rewrite !Z.eqb_eq; congruence.
  - rewrite !String.eqb_eq; congruence.
  - rewrite !time_eqb_eq; congruence.
Qed.

Lemma cell_same_congr a b :
  Cell.same a b = true -> forall y, Cell.same a y = Cell.same b y.
Proof.
  intros H y. destruct (Cell.same a y) eqn:E1, (Cell.same b y) eqn:E2; auto.
  - rewrite (cell_same_trans _ _ _ (cell_same_sym _ _ H) E1) in E2. discriminate.
  - rewrite (cell_same_trans _ _ _ H E2) in E1. discriminate.
Qed.

Lemma cell_same_isnull a b : Cell.same a b = true -> Cell.isnull a = Cell.isnull b.
Proof.
  destruct a, b; simpl; auto; try discriminate.
  destruct x, x0; simpl; auto; discriminate.
Qed.

Lemma distinct_subset seen l v : In v (distinct seen l) -> In v l.
Proof.
  revert seen; induction l as [|c l IH]; simpl; intros seen H; auto.
  destruct (existsb (Cell.same c) seen); [eauto|].
  destruct H as [->|H]; eauto.
Qed.

(** every value has a representative among the distinct ones *)
Lemma distinct_covers l : forall seen x,
  In x l ->
  existsb (Cell.same x) seen = true \/
  exists v, In v (distinct seen l) /\ Cell.same x v = true.
Proof.
  induction l as [|c l IH]; simpl; intros seen x H; [tauto|].
  destruct (existsb (Cell.same c) seen) eqn:E.
  - destruct H as [->|H]; auto.
  - destruct H as [->|H].
    + right. exists x. split; [left; reflexivity | apply cell_same_refl].
    + destruct (IH (c :: seen) x H) as [S|(v & Hv & Sv)].
      * simpl in S. apply orb_true_iff in S as [S|S]; auto.
        right. exists c. split; [left; reflexivity | exact S].
      * right. exists v. split; [right; exact Hv | exact Sv].
Qed.

(** membership in [small_companies], read on the ticker column *)
Lemma small_company_iff t c :
  In c (Ser.cells t) -> Cell.isnull c = false ->
  existsb (Cell.same c)
    (map fst (filter (fun vc => (snd vc <? Climate.MIN_OBSERVATIONS)%nat)
                     (value_counts t)))
  = (group_size c t <? Climate.MIN_OBSERVATIONS)%nat.
Proof.
  intros Hin Hn. unfold value_counts, group_size.
  set (vals := filter (fun x => negb (Cell.isnull x)) (Ser.cells t)).
  assert (Hv : In c vals) by (apply filter_In; rewrite Hn; auto).
  destruct (List.length (filter (Cell.same c) vals) <? Climate.MIN_OBSERVATIONS)%nat eqn:L.
  - apply existsb_exists.
    destruct (distinct_covers vals [] c Hv) as [S|(v & Dv & Sv)]; [discriminate|].
    exists v. split; [|exact Sv].
    apply in_map_iff. exists (v, List.length (filter (Cell.same v) vals)).
    split; [reflexivity|]. apply filter_In. split.
    + apply in_map_iff. exists v; auto.
    + simpl. rewrite <- (filter_ext _ _ (cell_same_congr _ _ Sv)). exact L.
  - destruct (existsb _ _) eqn:X; auto.
    apply existsb_exists in X as (v & Hv' & Sv).
    apply in_map_iff in Hv' as ([v' n] & <- & Hf).
    apply filter_In in Hf as [Hm Hlt]. simpl in *.
    apply in_map_iff in Hm as (v0 & Ev & _). inv Ev.
    rewrite <- (filter_ext _ _ (cell_same_congr _ _ Sv)) in Hlt. congruence.
Qed.

Lemma small_companies_present t v :
  In v (map fst (filter (fun vc => (snd vc <? Climate.MIN_OBSERVATIONS)%nat)
                        (value_counts t))) ->
  Cell.isnull v = false.
Proof.
  intros H. apply in_map_iff in H as ([v' n] & <- & Hf).
  apply filter_In in Hf as [Hm _]. unfold value_counts in Hm.
  apply in_map_iff in Hm as (v0 & Ev & D). injection Ev as E1 E2. subst v'.
  apply distinct_subset in D. apply filter_In in D as [_ N].
  simpl. destruct (Cell.isnull v0); auto; discriminate.
Qed.

Lemma companies_mask t :
  map (fun c =>
         negb (existsb (Cell.same c)
                 (map fst (filter (fun vc => (snd vc <? Climate.MIN_OBSERVATIONS)%nat)
                                  (value_counts t)))))
      (Ser.cells t)
  = large_group_mask t.
Proof.
  unfold large_group_mask. apply map_ext_in. intros c Hc.
  destruct (Cell.isnull c) eqn:N; simpl.
  - destruct (existsb _ _) eqn:X; auto.
    apply existsb_exists in X as (v & Hv & Sv).
    apply small_companies_present in Hv. apply cell_same_isnull in Sv. congruence.
  - rewrite small_company_iff by auto.
    rewrite Nat.ltb_antisym, negb_involutive. reflexivity.
Qed.

Lemma map_const_true (A : Type) (l : list A) :
  map (fun _ => true) l = repeat true (List.length l).
Proof. induction l; simpl; f_equal; auto. Qed.

(** FILTER 6 of the Climate chain, on a frame whose columns are as long as
    its index: it returns, and keeps exactly the rows whose ticker is
    missing or belongs to a group of at least MIN_OBSERVATIONS rows, in
    their original order. *)
Theorem min_observations_filter_keeps_large_groups (df : DataFrame) (t : Series) :
  DF.aligned df ->
  DF.getitem df "ticker" = Some t ->
  exists df' n,
    Climate.filter_companies df = Returned (df', n) /\
    df' = DF.loc df (large_group_mask t) /\
    DF.rows df' = mask_filter (large_group_mask t) (DF.rows df).
Proof.
  intros A G.
  assert (L : List.length (large_group_mask t) = DF.len df).
  { unfold large_group_mask. rewrite length_map, cells_length.
    apply lookup_In_pair in G. unfold DF.aligned in A. rewrite Forall_forall in A.
    apply (A _ G). }
  assert (R : forall d, d = DF.loc df (large_group_mask t) ->
              DF.rows d = mask_filter (large_group_mask t) (DF.rows df))
    by (intros d ->; apply rows_loc; auto).
  unfold Climate.filter_companies. rewrite G.
  pose proof (companies_mask t) as M.
  set (small := map fst (filter (fun vc => (snd vc <? Climate.MIN_OBSERVATIONS)%nat)
                                (value_counts t))) in *.
  destruct (0 <? List.length small)%nat eqn:P.
  - eexists; eexists. split; [reflexivity|]. rewrite M. auto.
  - apply Nat.ltb_ge in P. destruct small; [|simpl in P; lia].
    simpl in M. rewrite map_const_true, cells_length in M.
    assert (E : df = DF.loc df (large_group_mask t)).
    { rewrite <- M. apply lookup_In_pair in G.
      unfold DF.aligned in A. pose proof A as A'. rewrite Forall_forall in A'.
      pose proof (A' _ G) as Ht. simpl in Ht. rewrite Ht.
      symmetry. apply loc_all_true; auto. }
    eexists; eexists. split; [reflexivity|]. auto.
Qed.

Lemma min_observations_filter_keeps_large_groups_witness :
  exists df' n,
    Climate.filter_companies companies_frame = Returned (df', n) /\
    df' = DF.loc companies_frame
            (large_group_mask (Object (repeat (Some "BIG") 20 ++ repeat (Some "SMALL") 19))) /\
    DF.rows df'
    = mask_filter
        (large_group_mask (Object (repeat (Some "BIG") 20 ++ repeat (Some "SMALL") 19)))
        (DF.rows companies_frame).
Proof.
  refine (@min_observations_filter_keeps_large_groups companies_frame _ _ _).
  - repeat constructor.
  - reflexivity.
Defined.

(* ================================================================== *)
(** * Further properties of the pipelines *)

(** ** Every stage keeps the columns as long as the index *)

Lemma mask_filter_same_length (A B : Type) m : forall (l1 : list A) (l2 : list B),
  List.length l1 = List.length l2 ->
  List.length (mask_filter m l1) = List.length (mask_filter m l2).
Proof.
  induction m as [|b m IH]; intros [|x l1] [|y l2] H; simpl in *;
    try discriminate; auto.
  injection H as H. destruct b; simpl; auto.
Qed.

Lemma take_len (A : Type) m s (l : list A) :
  Ser.len s = List.length l ->
  Ser.len (Ser.take m s) = List.length (mask_filter m l).
Proof. destruct s; simpl; apply mask_filter_same_length. Qed.

Lemma aligned_loc df m : DF.aligned df -> DF.aligned (DF.loc df m).
Proof.
  unfold DF.aligned, DF.loc, DF.len; simpl. intros A.
  apply Forall_map. eapply Forall_impl; [|exact A].
  intros col H; simpl. apply take_len. exact H.
Qed.

Lemma aligned_setitem df c v :
  DF.aligned df -> Ser.len v = DF.len df -> DF.aligned (DF.setitem df c v).
Proof.
  unfold DF.aligned, DF.setitem, DF.len; simpl. intros A L.
  induction A as [|[n s] cols Hs Hc IH]; simpl.
  - constructor; simpl; auto.
  - destruct (String.eqb c n); constructor; simpl; auto.
Qed.

Lemma aligned_drop df cs : DF.aligned df -> DF.aligned (DF.drop df cs).
Proof.
  unfold DF.aligned, DF.drop, DF.len; simpl. intros A.
  apply Forall_forall. rewrite Forall_forall in A.
  intros col H. apply filter_In in H as [H _]. auto.
Qed.

Lemma aligned_getitem df c s :
  DF.aligned df -> DF.getitem df c = Some s -> Ser.len s = DF.len df.
Proof.
  intros A G. apply lookup_In_pair in G.
  unfold DF.aligned in A. rewrite Forall_forall in A. apply (A _ G).
Qed.

Lemma reit_impute_len s : Ser.len (REIT.impute s) = Ser.len s.
Proof.
  destruct s; simpl; unfold Ser.fillna_float, fill; rewrite ?length_map; auto.
  destruct (mode_of Time.eqb Time.ltb (present xs)); simpl;
    unfold fill; rewrite length_map; auto.
Qed.

Lemma climate_impute_len s : Ser.len (Climate.impute s) = Ser.len s.
Proof.
  destruct s; simpl; unfold Ser.fillna_float, fill; rewrite ?length_map; auto.
  destruct (mode_of Time.eqb Time.ltb (present xs)); simpl;
    unfold fill; rewrite ?length_map; auto.
Qed.

Lemma winsorize1D_length (A : Type) (le : A -> A -> bool) a lo up w :
  winsorize1D le a lo up = Returned w -> List.length w = List.length a.
Proof.
  unfold winsorize1D. intros H. step_in H.
  assert (L : List.length a0 = List.length a).
  { destruct (Qeq_bool lo 0); [inv E; auto|].
    step_in E. inv E. apply assign_length. }
  destruct (List.length a - int (Q_of_nat (List.length a) * up))%nat;
    step_in H; inv H; rewrite assign_length; exact L.
Qed.

Lemma winsorize_len s limits w :
  winsorize s limits = Returned w -> Ser.len w = Ser.len s.
Proof.
  destruct s; simpl; try discriminate; intros H; step_in H; inv H; simpl;
    eapply winsorize1D_length; eauto.
Qed.

Lemma dt_year_len ts : Ser.len (dt_year ts) = List.length ts.
Proof.
  unfold dt_year. destruct (forallb _ ts) eqn:F; simpl; [|apply length_map].
  induction ts as [|[t|] ts IH]; simpl in *; try discriminate; auto.
Qed.

Lemma aligned_drop_duplicates df : DF.aligned df -> DF.aligned (DF.drop_duplicates df).
Proof. unfold DF.drop_duplicates. destruct (DF.empty df); auto using aligned_loc. Qed.

Lemma aligned_climate_remove_duplicates df :
  DF.aligned df -> DF.aligned (Climate.remove_duplicates df).
Proof.
  unfold Climate.remove_duplicates. destruct (0 <? _)%nat; auto using aligned_drop_duplicates.
Qed.

Lemma aligned_reit_clean df th df' sm :
  REIT.clean_missing_values df th = Returned (df', sm) ->
  DF.aligned df -> DF.aligned df'.
Proof.
  unfold REIT.clean_missing_values. intros H. step_in H. inv H.
  intros A.
  apply (for_each_preserves (fun a b => DF.aligned a -> DF.aligned b)) in E;
    [exact E | auto | auto | | ].
  - intros s x s'. unfold REIT.impute_step.
    destruct (DF.getitem s x) as [c|] eqn:G; [|discriminate].
    destruct (0 <? _)%nat; intros H; inv H; auto.
    intros As. apply aligned_setitem; auto.
    rewrite reit_impute_len. eapply aligned_getitem; eauto.
  - unfold REIT.drop_excessive. destruct (0 <? _)%nat; auto using aligned_drop.
Qed.

Lemma aligned_climate_clean (mode : chained_fill) df th df' :
  Climate.clean_missing_values mode df th = Returned df' ->
  DF.aligned df -> DF.aligned df'.
Proof.
  unfold Climate.clean_missing_values. intros E A.
  apply (for_each_preserves (fun a b => DF.aligned a -> DF.aligned b)) in E;
    [exact E | auto | auto | | ].
  - intros s x s'. unfold Climate.impute_step.
    destruct (DF.getitem s x) as [c|] eqn:G; [|discriminate].
    destruct (0 <? _)%nat, mode; intros H; inv H; auto.
    intros As. apply aligned_setitem; auto.
    rewrite climate_impute_len. eapply aligned_getitem; eauto.
  - unfold Climate.drop_excessive.
    destruct (Climate.cols_to_drop df th); auto using aligned_drop.
Qed.

Lemma aligned_reit_handle_outliers df method df' sm :
  REIT.handle_outliers df method = Returned (df', sm) ->
  DF.aligned df -> DF.aligned df'.
Proof.
  unfold REIT.handle_outliers. intros H A0.
  apply (for_each_preserves (fun a b : DataFrame * REIT.outlier_summary =>
                               DF.aligned (fst a) -> DF.aligned (fst b))) in H;
    [exact H | auto | auto | | exact A0 ].
  intros [d sm0] col st'. unfold REIT.outlier_step.
  destruct (DF.getitem d col) as [s|] eqn:G; [|discriminate].
  intros B. step_in B. destruct (0 <? _)%nat.
  - step_in B. inv B. simpl. intros A. apply aligned_setitem; auto.
    erewrite winsorize_len by eauto. eapply aligned_getitem; eauto.
  - inv B. auto.
Qed.

Lemma aligned_climate_handle_outliers df th df' :
  Climate.handle_outliers_zscore df th = Returned df' ->
  DF.aligned df -> DF.aligned df'.
Proof.
  unfold Climate.handle_outliers_zscore. intros H A0. step_in H. inv H.
  apply (for_each_preserves (fun a b : DataFrame * nat =>
                               DF.aligned (fst a) -> DF.aligned (fst b))) in E;
    [exact E | auto | auto | | exact A0 ].
  intros [d n] col st'. unfold Climate.zscore_step.
  destruct (DF.getitem d col); [|discriminate].
  destruct (0 <? _)%nat; intros B; inv B; simpl; auto using aligned_loc.
Qed.

Section FilterAlignment.
Variable to_datetime : Series -> outcome (list (option Timestamp)).
Hypothesis parser_keeps_length : keeps_length to_datetime.

Lemma aligned_reit_filter_year df df' :
  REIT.filter_year to_datetime df = Returned df' -> DF.aligned df -> DF.aligned df'.
Proof.
  unfold REIT.filter_year. destruct (DF.getitem df "date") as [d|] eqn:G; [|discriminate].
  intros H A. do 3 step_in H. inv H.
  apply aligned_loc, aligned_setitem; auto.
  rewrite dt_year_len, (parser_keeps_length E). eapply aligned_getitem; eauto.
Qed.

Lemma aligned_reit_guarded c name text f st st' :
  (forall df df' n, f df = Returned (df', n) -> DF.aligned df -> DF.aligned df') ->
  REIT.guarded c name text f st = Returned st' ->
  DF.aligned (fst (fst st)) -> DF.aligned (fst (fst st')).
Proof.
  intros Hf. destruct st as [[df ap] pr]. unfold REIT.guarded.
  destruct (DF.has df c); intros H; [|inv H; auto].
  step_in H. destruct a as [d n]. inv H. simpl. eauto.
Qed.

Lemma aligned_reit_counted_loc (f : DataFrame -> outcome (DataFrame * Z)) :
  (forall df df' n, f df = Returned (df', n) -> exists m, df' = DF.loc df m) ->
  forall df df' n, REIT.counted f df = Returned (df', n) ->
                   DF.aligned df -> DF.aligned df'.
Proof.
  intros Hf df df' n H A. unfold REIT.counted in H. step_in H.
  destruct a as [d k]. inv H. destruct (Hf _ _ _ E) as [m ->]. apply aligned_loc; auto.
Qed.

Lemma reit_filter_assets_loc df df' n :
  REIT.filter_assets df = Returned (df', n) -> exists m, df' = DF.loc df m.
Proof.
  unfold REIT.filter_assets. destruct (DF.getitem df "assets"); [|discriminate].
  intros H. step_in H. inv H. eauto.
Qed.

Lemma reit_filter_returns_loc df df' n :
  REIT.filter_returns df = Returned (df', n) -> exists m, df' = DF.loc df m.
Proof.
  unfold REIT.filter_returns. destruct (DF.getitem df "usdret"); [|discriminate].
  intros H. inv H. eauto.
Qed.

Lemma reit_filter_prices_loc df df' n :
  REIT.filter_prices df = Returned (df', n) -> exists m, df' = DF.loc df m.
Proof.
  unfold REIT.filter_prices. destruct (DF.getitem df "usdprc"); [|discriminate].
  intros H. step_in H. inv H. eauto.
Qed.

Lemma reit_filter_rtype_loc df df' n :
  REIT.filter_rtype df = Returned (df', n) -> exists m, df' = DF.loc df m.
Proof.
  unfold REIT.filter_rtype. destruct (DF.getitem df "rtype"); [|discriminate].
  intros H. inv H. eauto.
Qed.

Lemma aligned_reit_apply_filters df df' s out :
  REIT.apply_filters to_datetime df = Returned (df', s, out) ->
  DF.aligned df -> DF.aligned df'.
Proof.
  unfold REIT.apply_filters. intros H A.
  step_in H. rename a into s1, E into E1.
  step_in H. rename a into s2, E into E2.
  step_in H. rename a into s3, E into E3.
  step_in H. rename a into s4, E into E4.
  step_in H. rename a into s5, E into E5.
  destruct s5 as [[d5 a5] p5]. inv H.
  apply aligned_reit_guarded in E1;
    [| intros d d' n Hd; step_in Hd; inv Hd; eapply aligned_reit_filter_year; eauto
     | exact A].
  apply aligned_reit_guarded in E2;
    [| apply aligned_reit_counted_loc, reit_filter_assets_loc | exact E1].
  apply aligned_reit_guarded in E3;
    [| apply aligned_reit_counted_loc, reit_filter_returns_loc | exact E2].
  apply aligned_reit_guarded in E4;
    [| apply aligned_reit_counted_loc, reit_filter_prices_loc | exact E3].
  apply aligned_reit_guarded in E5;
    [| apply aligned_reit_counted_loc, reit_filter_rtype_loc | exact E4].
  exact E5.
Qed.

Lemma aligned_climate_filter_dates df df' :
  Climate.filter_dates to_datetime df = Returned df' -> DF.aligned df -> DF.aligned df'.
Proof.
  unfold Climate.filter_dates. destruct (DF.getitem df "date") as [d|] eqn:G; [|discriminate].
  intros H A. step_in H. inv H.
  apply aligned_loc, aligned_setitem; auto. simpl.
  rewrite (parser_keeps_length E). eapply aligned_getitem; eauto.
Qed.

Lemma aligned_climate_apply_filters df df' out :
  Climate.apply_filters to_datetime df = Returned (df', out) ->
  DF.aligned df -> DF.aligned df'.
Proof.
  unfold Climate.apply_filters. intros H A.
  step_in H. destruct a as [d1 o1].
  step_in H. destruct a as [d2 o2].
  step_in H. destruct a as [d3 o3].
  step_in H. destruct a as [d4 o4].
  step_in H. destruct a as [d5 o5].
  step_in H. destruct a as [d6 o6]. inv H.
  assert (S1 : DF.aligned d1).
  { destruct (DF.has df "date"); [|inv E; auto].
    step_in E. inv E. eapply aligned_climate_filter_dates; eauto. }
  assert (S2 : DF.aligned d2).
  { destruct (DF.has d1 "stock_price"); [|inv E0; auto].
    step_in E0. destruct a as [d n]. inv E0.
    unfold Climate.filter_price in E5.
    destruct (DF.getitem d1 "stock_price"); [|discriminate].
    step_in E5. inv E5. apply aligned_loc; auto. }
  assert (S3 : DF.aligned d3).
  { destruct (DF.has d2 "climate_score"); [|inv E1; auto].
    step_in E1. destruct a as [d n]. inv E1.
    unfold Climate.filter_climate in E5.
    destruct (DF.getitem d2 "climate_score"); [|discriminate].
    inv E5. apply aligned_loc; auto. }
  assert (S4 : DF.aligned d4).
  { unfold Climate.filter_paired in E2. inv E2. apply aligned_loc; auto. }
  assert (S5 : DF.aligned d5).
  { destruct (DF.has d4 "returns"); [|inv E3; auto].
    step_in E3. destruct a as [d n]. inv E3.
    unfold Climate.filter_returns in E5.
    destruct (DF.getitem d4 "returns"); [|discriminate].
    step_in E5. inv E5. apply aligned_loc; auto. }
  destruct (DF.has d5 "ticker"); [|inv E4; auto].
  step_in E4. destruct a as [d n]. inv E4.
  unfold Climate.filter_companies in E5.
  destruct (DF.getitem d5 "ticker"); [|discriminate].
  destruct (0 <? _)%nat; inv E5; auto using aligned_loc.
Qed.
End FilterAlignment.

Lemma aligned_dataset2_apply_filters df :
  DF.aligned df -> DF.aligned (Dataset2.apply_filters df).
Proof.
  unfold Dataset2.apply_filters. intros A.
  destruct (0 <? List.length _)%nat; auto.
  destruct (0 <? count_true _)%nat; auto using aligned_loc.
Qed.

Lemma parse_all_length xs ts : parse_all xs = Returned ts -> List.length ts = List.length xs.
Proof.
  revert ts; induction xs as [|[x|] xs IH]; simpl; intros ts H.
  - inv H; auto.
  - destruct (parse_iso x); [|discriminate]. step_in H. inv H. simpl; f_equal; auto.
  - step_in H. inv H. simpl; f_equal; auto.
Qed.

Lemma to_datetime_iso_keeps_length : keeps_length to_datetime_iso.
Proof.
  intros s ts. destruct s; simpl; try discriminate.
  - apply parse_all_length.
  - intros H; inv H; auto.
Qed.

(** X4. In every script, every stage maps a frame whose columns are as long as
    its index to such a frame, provided the date parser returns one
    timestamp per cell: no stage leaves the table ragged. *)
Theorem stages_keep_columns_aligned
  (to_datetime : Series -> outcome (list (option Timestamp))) (df : DataFrame) :
  keeps_length to_datetime ->
  DF.aligned df ->
  (forall th df' sm,
      REIT.clean_missing_values df th = Returned (df', sm) -> DF.aligned df') /\
  (forall method df' sm,
      REIT.handle_outliers df method = Returned (df', sm) -> DF.aligned df') /\
  DF.aligned (fst (REIT.remove_duplicates df)) /\
  (forall df' s out,
      REIT.apply_filters to_datetime df = Returned (df', s, out) -> DF.aligned df') /\
  (forall mode th df',
      Climate.clean_missing_values mode df th = Returned df' -> DF.aligned df') /\
  (forall th df', Climate.handle_outliers_zscore df th = Returned df' -> DF.aligned df') /\
  DF.aligned (Climate.remove_duplicates df) /\
  (forall df' out,
      Climate.apply_filters to_datetime df = Returned (df', out) -> DF.aligned df') /\
  DF.aligned (Dataset2.apply_filters df).
Proof.
  intros K A.
  split; [intros; eapply aligned_reit_clean; eauto|].
  split; [intros; eapply aligned_reit_handle_outliers; eauto|].
  split; [rewrite reit_remove_duplicates_table;
          apply aligned_climate_remove_duplicates; auto|].
  split; [intros; eapply aligned_reit_apply_filters; eauto|].
  split; [intros; eapply aligned_climate_clean; eauto|].
  split; [intros; eapply aligned_climate_handle_outliers; eauto|].
  split; [apply aligned_climate_remove_duplicates; auto|].
  split; [intros; eapply aligned_climate_apply_filters; eauto|].
  apply aligned_dataset2_apply_filters; auto.
Qed.

Lemma stages_keep_columns_aligned_witness :
  DF.aligned (Climate.remove_duplicates dup_frame) /\
  DF.aligned (Dataset2.apply_filters dup_frame).
Proof.
  assert (A : DF.aligned dup_frame) by (repeat constructor).
  pose proof (@stages_keep_columns_aligned to_datetime_iso dup_frame
                to_datetime_iso_keeps_length A) as H.
  split; [exact (proj1 (proj2 (proj2 (proj2 (proj2 (proj2 (proj2 H)))))))
         | exact (proj2 (proj2 (proj2 (proj2 (proj2 (proj2 (proj2 (proj2 H))))))))].
Defined.

(** ** What [remove_duplicates] leaves and reports *)

Lemma row_same_sym a : forall b, DF.row_same a b = DF.row_same b a.
Proof.
  induction a as [|x a IH]; intros [|y b]; simpl; auto.
  rewrite IH. f_equal.
  destruct (Cell.same x y) eqn:E1, (Cell.same y x) eqn:E2; auto.
  - apply cell_same_sym in E1. congruence.
  - apply cell_same_sym in E2. congruence.
Qed.

Lemma count_true_nth_false m i :
  count_true m = 0%nat -> nth i m false = false.
Proof.
  intros H. rewrite (count_true_zero _ H). apply nth_repeat.
Qed.

Lemma seen_before_none_marked rs :
  count_true (DF.seen_before [] rs) = 0%nat ->
  forall i j, (i < j)%nat -> (j < List.length rs)%nat ->
    DF.row_same (nth i rs []) (nth j rs []) = false.
Proof.
  intros H i j Hij Hj.
  pose proof (@count_true_nth_false _ j H) as N.
  rewrite seen_before_nth in N by lia. simpl in N.
  rewrite row_same_sym.
  assert (L : (j <= List.length rs)%nat) by lia.
  apply (proj1 (@existsb_firstn_false _ (DF.row_same (nth j rs [])) [] rs j L) N);
    auto.
Qed.

Lemma duplicated_none_rows_distinct df :
  columns df <> [] -> count_true (DF.duplicated df) = 0%nat -> rows_distinct df.
Proof.
  intros NE H i j Hij Hj. unfold DF.row, DF.duplicated in *.
  assert (E : DF.empty df = false).
  { unfold DF.empty, DF.ncols. apply orb_false_iff; split; apply Nat.eqb_neq; [lia|].
    destruct (columns df); [congruence|simpl; lia]. }
  rewrite E in H. apply seen_before_none_marked; auto.
  rewrite rows_length; auto.
Qed.

Lemma columns_drop_duplicates df : columns df <> [] -> columns (DF.drop_duplicates df) <> [].
Proof.
  unfold DF.drop_duplicates. destruct (DF.empty df); auto.
  simpl. destruct (columns df); [congruence|discriminate].
Qed.

(** X5. After [remove_duplicates] no two rows of the table are equal,
    whenever the frame has a column and its columns are as long as its
    index. *)
Theorem remove_duplicates_leaves_distinct_rows (df : DataFrame) :
  DF.aligned df -> columns df <> [] ->
  rows_distinct (Climate.remove_duplicates df) /\
  rows_distinct (fst (REIT.remove_duplicates df)).
Proof.
  intros A NE. rewrite reit_remove_duplicates_table.
  assert (R : rows_distinct (Climate.remove_duplicates df)); [|split; exact R].
  unfold Climate.remove_duplicates.
  destruct (0 <? count_true (DF.duplicated df))%nat eqn:E.
  - apply duplicated_none_rows_distinct;
      [apply columns_drop_duplicates; auto | apply duplicated_after_drop; auto].
  - apply duplicated_none_rows_distinct; auto.
    apply Nat.ltb_ge in E. lia.
Qed.

Lemma remove_duplicates_leaves_distinct_rows_witness :
  rows_distinct (Climate.remove_duplicates dup_frame) /\
  rows_distinct (fst (REIT.remove_duplicates dup_frame)).
Proof.
  apply (@remove_duplicates_leaves_distinct_rows dup_frame).
  - repeat constructor.
  - discriminate.
Defined.

Lemma count_true_negb m :
  (count_true m + count_true (map negb m) = List.length m)%nat.
Proof.
  unfold count_true. induction m as [|[|] m IH]; simpl; auto. lia.
Qed.

Lemma duplicated_length df :
  DF.empty df = false -> List.length (DF.duplicated df) = DF.len df.
Proof.
  unfold DF.duplicated. intros ->. rewrite seen_before_length. apply rows_length.
Qed.

(** X6. The summary [remove_duplicates] returns adds up: the rows before
    are the duplicates found plus the rows after; and the table keeps its
    columns. *)
Theorem remove_duplicates_summary_adds_up (df : DataFrame) :
  let (df', summary) := REIT.remove_duplicates df in
  REIT.dup_rows_before summary = DF.len df /\
  REIT.dup_rows_after summary = DF.len df' /\
  (REIT.dup_rows_before summary
   = REIT.duplicates_found summary + REIT.dup_rows_after summary)%nat /\
  DF.names df' = DF.names df.
Proof.
  unfold REIT.remove_duplicates. cbv zeta. simpl.
  split; [reflexivity|]. split; [reflexivity|].
  destruct (0 <? count_true (DF.duplicated df))%nat eqn:E.
  - unfold DF.drop_duplicates.
    destruct (DF.empty df) eqn:Em.
    + unfold DF.duplicated in E. rewrite Em in E. discriminate.
    + split.
      * unfold DF.loc, DF.len at 2; simpl.
        rewrite mask_filter_count
          by (rewrite length_map; apply duplicated_length; auto).
        rewrite <- (duplicated_length _ Em). symmetry. apply count_true_negb.
      * unfold DF.names, DF.loc; simpl. rewrite map_map; reflexivity.
  - apply Nat.ltb_ge in E. split; [lia|reflexivity].
Qed.

(** ** Frames without missing values pass [clean_missing_values] untouched *)

Lemma zero_ratio_not_above len th :
  (0 <= th)%Q ->
  Float.gtb (Float.div (Stats.of_nat 0) (Stats.of_nat len)) (Fin th) = false.
Proof.
  intros T. unfold Stats.of_nat, Float.div. destruct len as [|len]; [reflexivity|].
  rewrite Q_of_nat_nonzero by lia.
  unfold Float.gtb, Float.ltb. apply Qlt_bool_false.
  change (Q_of_nat 0) with 0%Q. unfold Qdiv. rewrite Qmult_0_l. exact T.
Qed.

Lemma zero_percentage_not_above len th :
  (0 <= th)%Q ->
  Float.gtb (Float.mul (Float.div (Stats.of_nat 0) (Stats.of_nat len)) (Fin 100))
            (Fin (th * 100)) = false.
Proof.
  intros T. unfold Stats.of_nat, Float.div. destruct len as [|len]; [reflexivity|].
  rewrite Q_of_nat_nonzero by lia.
  unfold Float.gtb, Float.ltb, Float.mul. apply Qlt_bool_false.
  change (Q_of_nat 0) with 0%Q. unfold Qdiv. rewrite !Qmult_0_l. lra.
Qed.

Lemma imputation_skips_complete_columns
  (body : DataFrame -> string -> outcome DataFrame) (df : DataFrame) :
  (forall c s, DF.getitem df c = Some s -> no_missing s -> body df c = Returned df) ->
  (forall c s, In (c, s) (columns df) -> no_missing s) ->
  forall cs, (forall c, In c cs -> In c (DF.names df)) ->
             for_each body cs df = Returned df.
Proof.
  intros B C. induction cs as [|c cs IH]; intros Hin; [reflexivity|].
  simpl. destruct (lookup_in_names c (columns df) (Hin c (or_introl eq_refl)))
    as [s G].
  rewrite (B c s G (C c s (lookup_In_pair _ _ G))). cbn [bind].
  apply IH. intros; apply Hin; right; auto.
Qed.

Lemma reit_clean_complete df th :
  (0 <= th)%Q -> complete df ->
  REIT.clean_missing_values df th
  = Returned (df, REIT.mkMissingSummary (DF.len df) (DF.ncols df)
                    (DF.len df) (DF.ncols df) 0).
Proof.
  intros T C.
  assert (D : REIT.cols_to_drop df th = []).
  { unfold REIT.cols_to_drop. rewrite filter_nil; [reflexivity|].
    intros [n s] Hin. simpl. unfold missing_ratio.
    rewrite (C n s Hin). apply zero_ratio_not_above; auto. }
  unfold REIT.clean_missing_values, REIT.drop_excessive. rewrite D. simpl.
  rewrite (@imputation_skips_complete_columns REIT.impute_step df); auto.
  intros c s G N. unfold REIT.impute_step. rewrite G, N. reflexivity.
Qed.

Lemma climate_clean_complete (mode : chained_fill) df th :
  (0 <= th)%Q -> complete df -> Climate.clean_missing_values mode df th = Returned df.
Proof.
  intros T C.
  assert (D : Climate.cols_to_drop df th = []).
  { unfold Climate.cols_to_drop. rewrite filter_nil; [reflexivity|].
    intros [n s] Hin. simpl. unfold missing_ratio.
    rewrite (C n s Hin). apply zero_percentage_not_above; auto. }
  unfold Climate.clean_missing_values, Climate.drop_excessive. rewrite D.
  apply (@imputation_skips_complete_columns (Climate.impute_step mode) df); auto.
  intros c s G N. unfold Climate.impute_step. rewrite G, N. reflexivity.
Qed.

(** X7. With a non-negative threshold, [clean_missing_values] returns a
    frame without missing values exactly as it received it, dropping no
    column -- in both scripts, whatever the column labels. *)
Theorem clean_missing_values_keeps_complete_frames (df : DataFrame) (th : Q) :
  (0 <= th)%Q ->
  (forall c s, In (c, s) (columns df) -> no_missing s) ->
  (exists sm,
      REIT.clean_missing_values df th = Returned (df, sm) /\
      REIT.cols_dropped sm = 0%nat /\
      REIT.rows_after sm = REIT.rows_before sm /\
      REIT.cols_after sm = REIT.cols_before sm) /\
  (forall mode, Climate.clean_missing_values mode df th = Returned df).
Proof.
  intros T C. split.
  - rewrite reit_clean_complete by auto. eexists; split; [reflexivity|]. simpl; auto.
  - intros mode. apply climate_clean_complete; auto.
Qed.

Lemma clean_missing_values_keeps_complete_frames_witness :
  Climate.clean_missing_values WritesThrough complete_frame Climate.MISSING_THRESHOLD
  = Returned complete_frame /\
  Climate.clean_missing_values ActsOnCopy complete_frame Climate.MISSING_THRESHOLD
  = Returned complete_frame.
Proof.
  assert (T : (0 <= Climate.MISSING_THRESHOLD)%Q) by discriminate.
  assert (C : complete complete_frame)
    by (intros c s [E|[E|[]]]; inversion E; subst; reflexivity).
  pose proof (proj2 (@clean_missing_values_keeps_complete_frames complete_frame
                       Climate.MISSING_THRESHOLD T C)) as K.
  split; apply K.
Defined.

(** ** A second pass of [clean_missing_values] changes nothing *)

Lemma In_lookup_NoDup c s cols :
  NoDup (map fst cols) -> In (c, s) cols -> DF.lookup c cols = Some s.
Proof.
  induction cols as [|[n s0] cols IH]; simpl; [tauto|].
  intros ND [E|Hin].
  - inv E. rewrite String.eqb_refl. reflexivity.
  - inversion ND as [|? ? Hn ND']; subst.
    destruct (String.eqb c n) eqn:E; [|auto].
    apply String.eqb_eq in E; subst. exfalso. apply Hn.
    change n with (fst (n, s)). apply in_map; auto.
Qed.

Lemma reit_clean_fills df th :
  DF.wf df -> (th < 1)%Q ->
  (forall c s, In (c, s) (columns df) -> no_infinity s) ->
  exists df' sm,
    REIT.clean_missing_values df th = Returned (df', sm) /\ complete df'.
Proof.
  intros [ND A] T F. unfold DF.aligned in *. rewrite Forall_forall in A.
  destruct (reit_clean_columns df th ND) as (df' & sm & C & N & _ & G).
  exists df', sm. split; [exact C|]. intros c s' Hin.
  assert (Gs : DF.getitem df' c = Some s').
  { apply In_lookup_NoDup; auto. fold (DF.names df'). rewrite N.
    apply reit_drop_excessive_NoDup; auto. }
  rewrite G in Gs.
  destruct (DF.getitem (REIT.drop_excessive df th) c) as [s|] eqn:G1; [|discriminate].
  simpl in Gs. inv Gs. destruct (reit_survivor df th c G1) as [Hs R].
  apply reit_imputed_no_missing; [eapply F; eauto|].
  specialize (A _ Hs). simpl in A. rewrite A.
  unfold missing_ratio in R. eapply ratio_below_one; eauto.
  rewrite <- A. apply isnull_count_le.
Qed.

Lemma climate_clean_fills df th :
  DF.wf df -> (th < 1)%Q ->
  (forall c s, In (c, s) (columns df) -> no_infinity s) ->
  exists df',
    Climate.clean_missing_values WritesThrough df th = Returned df' /\ complete df'.
Proof.
  intros [ND A] T F. unfold DF.aligned in *. rewrite Forall_forall in A.
  destruct (climate_clean_columns WritesThrough df th ND) as (df' & C & N & _ & G).
  exists df'. split; [exact C|]. intros c s' Hin.
  assert (Gs : DF.getitem df' c = Some s').
  { apply In_lookup_NoDup; auto. fold (DF.names df'). rewrite N.
    apply climate_drop_excessive_NoDup; auto. }
  rewrite G in Gs.
  destruct (DF.getitem (Climate.drop_excessive df th) c) as [s|] eqn:G1; [|discriminate].
  simpl in Gs. inv Gs. destruct (climate_survivor df th c G1) as [Hs R].
  apply climate_imputed_no_missing; [eapply F; eauto|].
  specialize (A _ Hs). simpl in A. rewrite A.
  unfold missing_ratio in R. eapply climate_ratio_below_one; eauto.
  rewrite <- A. apply isnull_count_le.
Qed.

Lemma climate_drop_excessive_twice df th :
  Climate.drop_excessive (Climate.drop_excessive df th) th = Climate.drop_excessive df th.
Proof.
  assert (K : forall d, Climate.cols_to_drop d th = [] -> Climate.drop_excessive d th = d)
    by (intros d E; unfold Climate.drop_excessive; rewrite E; reflexivity).
  apply K. unfold Climate.drop_excessive at 1.
  destruct (Climate.cols_to_drop df th) as [|c0 cs] eqn:E; [exact E|].
  rewrite <- E. unfold Climate.cols_to_drop at 1.
  rewrite filter_nil; [reflexivity|].
  intros [n s] Hin. unfold DF.drop in Hin; simpl in Hin.
  apply filter_In in Hin as [Hin Hk]. simpl in Hk.
  change (DF.len (DF.drop df (Climate.cols_to_drop df th))) with (DF.len df).
  unfold missing_ratio. change (DF.len (DF.drop df (Climate.cols_to_drop df th)))
    with (DF.len df).
  simpl snd.
  destruct (Float.gtb _ _) eqn:P; [|reflexivity].
  exfalso. apply negb_true_iff in Hk.
  assert (X : existsb (String.eqb n) (Climate.cols_to_drop df th) = true).
  { apply existsb_exists. exists n. split; [|apply String.eqb_refl].
    unfold Climate.cols_to_drop. apply in_map_iff. exists (n, s). split; auto.
    apply filter_In. split; auto. }
  congruence.
Qed.

(** X8. On a well-formed frame without infinite cells and with a threshold
    in [0, 1), running [clean_missing_values] on its own result returns
    that result again and drops no column -- in both scripts, and whether
    the Climate fill reaches the frame or not. *)
Theorem clean_missing_values_twice_is_once (df : DataFrame) (th : Q) :
  DF.wf df -> (0 <= th)%Q -> (th < 1)%Q ->
  (forall c s, In (c, s) (columns df) -> no_infinity s) ->
  (exists df' sm sm',
      REIT.clean_missing_values df th = Returned (df', sm) /\
      REIT.clean_missing_values df' th = Returned (df', sm') /\
      REIT.cols_dropped sm' = 0%nat) /\
  (forall mode, exists df',
      Climate.clean_missing_values mode df th = Returned df' /\
      Climate.clean_missing_values mode df' th = Returned df').
Proof.
  intros W T0 T1 F. split.
  - destruct (reit_clean_fills W T1 F) as (df' & sm & C & K).
    exists df', sm. eexists. split; [exact C|].
    split; [apply reit_clean_complete; auto | reflexivity].
  - intros [|].
    + destruct (climate_clean_fills W T1 F) as (df' & C & K).
      exists df'. split; [exact C | apply climate_clean_complete; auto].
    + exists (Climate.drop_excessive df th). rewrite !climate_clean_on_copy.
      rewrite climate_drop_excessive_twice. auto.
Qed.

Lemma clean_missing_values_twice_is_once_witness :
  (exists df',
      Climate.clean_missing_values WritesThrough patchy_frame Climate.MISSING_THRESHOLD
        = Returned df' /\
      Climate.clean_missing_values WritesThrough df' Climate.MISSING_THRESHOLD
        = Returned df') /\
  (exists df',
      Climate.clean_missing_values ActsOnCopy patchy_frame Climate.MISSING_THRESHOLD
        = Returned df' /\
      Climate.clean_missing_values ActsOnCopy df' Climate.MISSING_THRESHOLD
        = Returned df').
Proof.
  assert (W : DF.wf patchy_frame)
    by (split; [repeat constructor; simpl; intuition discriminate | repeat constructor]).
  assert (T0 : (0 <= Climate.MISSING_THRESHOLD)%Q) by discriminate.
  assert (T1 : (Climate.MISSING_THRESHOLD < 1)%Q) by reflexivity.
  assert (F : forall c s, In (c, s) (columns patchy_frame) -> no_infinity s)
    by (intros c s [E|[E|[E|[]]]]; inversion E; subst; simpl; auto;
        repeat constructor; discriminate).
  pose proof (proj2 (@clean_missing_values_twice_is_once patchy_frame
                       Climate.MISSING_THRESHOLD W T0 T1 F)) as K.
  split; apply K.
Defined.

(** ** Capping only moves values around *)

Section WinsorizeValues.
Variable A : Type.
Variable le : A -> A -> bool.

Lemma assign_values ps (v : A) a x :
  In x (assign ps v a) -> x = v \/ In x a.
Proof.
  unfold assign. intros H. apply in_map_iff in H as ([i y] & E & Hin).
  simpl in E. destruct (existsb (Nat.eqb i) ps); [left; auto|].
  right. subst. eapply in_combine_r; eauto.
Qed.

Lemma item_value (a : list A) idx k v : item a idx k = Returned v -> In v a.
Proof.
  unfold item. destruct (nth_error idx k) as [p|]; [|discriminate].
  destruct (nth_error a p) eqn:E; [|discriminate].
  intros H; inv H. eapply nth_error_In; eauto.
Qed.

Lemma winsorize1D_values a lo up w :
  winsorize1D le a lo up = Returned w -> incl w a.
Proof.
  unfold winsorize1D. intros H. step_in H.
  assert (L : incl a0 a).
  { destruct (Qeq_bool lo 0); [inv E; apply incl_refl|].
    step_in E. inv E. intros x Hx.
    apply assign_values in Hx as [->|Hx]; auto. eapply item_value; eauto. }
  destruct (List.length a - int (Q_of_nat (List.length a) * up))%nat;
    step_in H; inv H; intros x Hx;
    (apply assign_values in Hx as [->|Hx]; [apply L; eapply item_value; eauto | auto]).
Qed.
End WinsorizeValues.

Lemma winsorize_values s limits w :
  winsorize s limits = Returned w -> incl (Ser.cells w) (Ser.cells s).
Proof.
  destruct s; simpl; try discriminate; intros H; step_in H; inv H; simpl;
    apply incl_map; eapply winsorize1D_values; eauto.
Qed.

(** X9. Whatever the method, every cell of a column [handle_outliers]
    returns is a cell the same column had before: capping copies values of
    the column, it computes no new one. *)
Theorem handle_outliers_invents_no_value (df df' : DataFrame) (method : string)
  (sm : REIT.outlier_summary) :
  REIT.handle_outliers df method = Returned (df', sm) ->
  forall c s', DF.getitem df' c = Some s' ->
    exists s, DF.getitem df c = Some s /\
              Ser.len s' = Ser.len s /\
              incl (Ser.cells s') (Ser.cells s).
Proof.
  unfold REIT.handle_outliers. intros H.
  set (R := fun a b : DataFrame * REIT.outlier_summary =>
              forall c s', DF.getitem (fst b) c = Some s' ->
                exists s, DF.getitem (fst a) c = Some s /\
                          Ser.len s' = Ser.len s /\
                          incl (Ser.cells s') (Ser.cells s)).
  assert (Hrefl : forall st, R st st).
  { intros st c s' G. exists s'. split; [exact G|].
    split; [reflexivity|apply incl_refl]. }
  assert (Htrans : forall a b c, R a b -> R b c -> R a c).
  { intros a b c0 Rab Rbc c s' G.
    destruct (Rbc _ _ G) as (s1 & G1 & L1 & I1).
    destruct (Rab _ _ G1) as (s0 & G0 & L0 & I0).
    exists s0. split; [exact G0|]. split; [congruence|].
    eapply incl_tran; eauto. }
  assert (Hbody : forall st col st',
             REIT.outlier_step method st col = Returned st' -> R st st').
  { intros [d sm0] col st'. unfold REIT.outlier_step.
    destruct (DF.getitem d col) as [s|] eqn:G; [|discriminate].
    intros S. step_in S.
    destruct (0 <? count_true a)%nat.
    - step_in S. inv S. unfold R. simpl. intros c s' G'.
      destruct (String.eqb col c) eqn:Ec.
      + apply String.eqb_eq in Ec; subst c.
        rewrite getitem_setitem_same in G'. inv G'.
        exists s. split; [exact G|].
        split; [eapply winsorize_len; eauto | eapply winsorize_values; eauto].
      + apply String.eqb_neq in Ec. rewrite getitem_setitem_other in G' by auto.
        exact (Hrefl (d, sm0) c s' G').
    - inv S. apply Hrefl. }
  exact (for_each_preserves R _ Hrefl Htrans Hbody _ _ H).
Qed.

Lemma handle_outliers_invents_no_value_witness :
  exists df' sm,
    REIT.handle_outliers tail_frame "iqr" = Returned (df', sm) /\
    forall c s', DF.getitem df' c = Some s' ->
      exists s, DF.getitem tail_frame c = Some s /\
                Ser.len s' = Ser.len s /\
                incl (Ser.cells s') (Ser.cells s).
Proof.
  assert (E : REIT.handle_outliers tail_frame "iqr"
              = Returned
                  (mkDataFrame (seq 0 20)
                     [("assets",
                       Float64 (map Float.of_Z
                                  [2; 2; 3; 4; 5; 6; 7; 8; 9; 10; 11; 12; 13; 14; 15;
                                   16; 17; 18; 19; 19]%Z))],
                   REIT.mkOutlierSummary 1 1))
    by (vm_compute; reflexivity).
  eexists; eexists. split; [exact E|].
  exact (@handle_outliers_invents_no_value _ _ _ _ E).
Defined.

(** ** Frames shorter than twenty rows come back from capping unchanged *)

Lemma low_rank_zero n : (n < 20)%nat -> int ((5 # 100) * Q_of_nat n) = 0%nat.
Proof.
  intros H. change (Z.to_nat (5 * Z.of_nat n / 100) = 0)%nat.
  rewrite Z.div_small by lia. reflexivity.
Qed.

Lemma up_rank_zero n : (n < 20)%nat -> int (Q_of_nat n * (5 # 100)) = 0%nat.
Proof.
  intros H. change (Z.to_nat (Z.of_nat n * 5 / 100) = 0)%nat.
  rewrite Z.div_small by lia. reflexivity.
Qed.

Lemma assign_nowhere (A : Type) (v : A) a : assign [] v a = a.
Proof.
  unfold assign. simpl.
  generalize 0%nat. induction a as [|x a IH]; intros k; simpl; f_equal; auto.
Qed.

Lemma winsorize1D_short (A : Type) (le : A -> A -> bool) a w :
  (List.length a < 20)%nat ->
  winsorize1D le a (5 # 100) (5 # 100) = Returned w -> w = a.
Proof.
  intros L. unfold winsorize1D. change (Qeq_bool (5 # 100) 0) with false. cbv iota.
  rewrite (low_rank_zero L), (up_rank_zero L), Nat.sub_0_r. simpl firstn.
  intros H. step_in H. step_in E. inv E. rewrite assign_nowhere in H.
  destruct (List.length a) as [|k] eqn:N.
  - destruct a; [|discriminate]. discriminate.
  - step_in H. inv H.
    change (assign (skipn (S k) (argsort le a)) a0 a = a).
    rewrite skipn_all2 by (rewrite argsort_length; lia).
    apply assign_nowhere.
Qed.

Lemma winsorize_short s w :
  (Ser.len s < 20)%nat -> winsorize s REIT.WINSORIZE_LIMITS = Returned w -> w = s.
Proof.
  unfold REIT.WINSORIZE_LIMITS.
  destruct s; simpl; try discriminate; intros L H; step_in H; inv H; f_equal;
    eapply winsorize1D_short; eauto.
Qed.

Lemma update_same c s cols : DF.lookup c cols = Some s -> DF.update c s cols = cols.
Proof.
  induction cols as [|[n s0] cols IH]; simpl; [discriminate|].
  destruct (String.eqb c n) eqn:E.
  - intros H; inv H. reflexivity.
  - intros H. f_equal. auto.
Qed.

Lemma setitem_same df c s : DF.getitem df c = Some s -> DF.setitem df c s = df.
Proof.
  intros G. destruct df as [ix cols]. unfold DF.setitem; simpl. f_equal.
  apply update_same; auto.
Qed.

(** X10. On a frame of fewer than twenty rows [handle_outliers] changes no
    cell, whatever the method and however many outliers it counts: the 5%
    winsorizing limits round down to no position at all. *)
Theorem handle_outliers_leaves_short_frames (df df' : DataFrame) (method : string)
  (sm : REIT.outlier_summary) :
  DF.aligned df -> (DF.len df < 20)%nat ->
  REIT.handle_outliers df method = Returned (df', sm) ->
  df' = df.
Proof.
  unfold REIT.handle_outliers. intros A L H.
  set (short := fun d : DataFrame =>
                  forall c s, DF.getitem d c = Some s -> (Ser.len s < 20)%nat).
  set (R := fun a b : DataFrame * REIT.outlier_summary =>
              short (fst a) -> fst b = fst a).
  assert (Hrefl : forall st, R st st) by (intros st _; reflexivity).
  assert (Htrans : forall a b c, R a b -> R b c -> R a c).
  { intros a b c Rab Rbc Sa. pose proof (Rab Sa) as E.
    rewrite <- E. apply Rbc. rewrite E. exact Sa. }
  assert (Hbody : forall st col st',
             REIT.outlier_step method st col = Returned st' -> R st st').
  { intros [d sm0] col st'. unfold REIT.outlier_step.
    destruct (DF.getitem d col) as [s|] eqn:G; [|discriminate].
    intros S. step_in S.
    destruct (0 <? count_true a)%nat.
    - step_in S. inv S. unfold R. simpl. intros Sh.
      pose proof (Sh _ _ G) as Ls.
      rewrite (@winsorize_short s _ Ls E0). apply setitem_same; auto.
    - inv S. apply Hrefl. }
  apply (for_each_preserves R _ Hrefl Htrans Hbody _ _ H).
  intros c s G. simpl in G. apply lookup_In_pair in G.
  unfold DF.aligned in A. rewrite Forall_forall in A.
  specialize (A _ G). simpl in A. lia.
Qed.

Lemma handle_outliers_leaves_short_frames_witness :
  exists df' sm,
    REIT.handle_outliers iqr_example_frame "iqr" = Returned (df', sm) /\
    REIT.outliers_found sm = 1%nat /\
    df' = iqr_example_frame.
Proof.
  assert (E : REIT.handle_outliers iqr_example_frame "iqr"
              = Returned (mkDataFrame (seq 0 6)
                            [("assets", Float64 (map Float.of_Z [1; 2; 3; 4; 5; 100]%Z))],
                          REIT.mkOutlierSummary 1 1))
    by (vm_compute; reflexivity).
  assert (A : DF.aligned iqr_example_frame) by (repeat constructor).
  assert (L : (DF.len iqr_example_frame < 20)%nat) by (vm_compute; lia).
  eexists; eexists. split; [exact E|]. split; [reflexivity|].
  exact (@handle_outliers_leaves_short_frames _ _ _ _ A L E).
Defined.

(** ** What the filter chains guarantee about the frame they return *)

Section MaskFacts.
Variable A : Type.

Lemma forallb_mask_filter (P : A -> bool) m : forall l,
  mask_implies m P l -> forallb P (mask_filter m l) = true.
Proof.
  induction m as [|b m IH]; intros [|x l] H; simpl; auto.
  assert (T : mask_implies m P l) by (intros i y Hm Hl; apply (H (S i) y); auto).
  destruct b; simpl; [|auto].
  rewrite (H 0%nat x) by reflexivity. simpl. auto.
Qed.

Lemma forallb_mask_filter_kept (P : A -> bool) m : forall l,
  forallb P l = true -> forallb P (mask_filter m l) = true.
Proof.
  induction m as [|b m IH]; intros [|x l]; simpl; auto.
  intros H. apply andb_true_iff in H as [Hx Hl].
  destruct b; simpl; rewrite ?Hx; simpl; auto.
Qed.

Lemma mask_implies_map (P : A -> bool) l : mask_implies (map P l) P l.
Proof.
  intros i x Hm Hl. rewrite nth_error_map, Hl in Hm. simpl in Hm. congruence.
Qed.

Lemma mask_implies_weaken (P Q : A -> bool) m l :
  (forall x, P x = true -> Q x = true) -> mask_implies m P l -> mask_implies m Q l.
Proof. intros W H i x Hm Hl. apply W. eapply H; eauto. Qed.

Lemma mask_and_nth a : forall b i,
  nth_error (mask_and a b) i = Some true ->
  nth_error a i = Some true /\ nth_error b i = Some true.
Proof.
  induction a as [|x a IH]; intros [|y b] [|i]; simpl; try discriminate.
  - intros H. injection H as H. apply andb_true_iff in H as [-> ->]. auto.
  - apply IH.
Qed.

Lemma mask_implies_and_l (P : A -> bool) a b l :
  mask_implies a P l -> mask_implies (mask_and a b) P l.
Proof. intros H i x Hm Hl. apply mask_and_nth in Hm as [Ha _]. eapply H; eauto. Qed.

Lemma mask_implies_and_r (P : A -> bool) a b l :
  mask_implies b P l -> mask_implies (mask_and a b) P l.
Proof. intros H i x Hm Hl. apply mask_and_nth in Hm as [_ Hb]. eapply H; eauto. Qed.

Lemma mask_implies_both (P Q : A -> bool) a b l :
  mask_implies a P l -> mask_implies b Q l ->
  mask_implies (mask_and a b) (fun x => P x && Q x) l.
Proof.
  intros Ha Hb i x Hm Hl. apply mask_and_nth in Hm as [Ma Mb].
  rewrite (Ha i x), (Hb i x); auto.
Qed.
End MaskFacts.

Lemma column_satisfies_absent df c P : DF.has df c = false -> column_satisfies df c P.
Proof.
  unfold DF.has, column_satisfies. destruct (DF.getitem df c); [discriminate|].
  intros _ s H; discriminate.
Qed.

Lemma column_satisfies_loc df m c P :
  column_satisfies df c P -> column_satisfies (DF.loc df m) c P.
Proof.
  intros H s G. rewrite getitem_loc in G.
  destruct (DF.getitem df c) as [s0|] eqn:G0; [|discriminate].
  simpl in G. inv G. rewrite cells_take. apply forallb_mask_filter_kept. auto.
Qed.

Lemma column_satisfies_filtered df m c s P :
  DF.getitem df c = Some s -> mask_implies m P (Ser.cells s) ->
  column_satisfies (DF.loc df m) c P.
Proof.
  intros G0 M s' G. rewrite getitem_loc, G0 in G. simpl in G. inv G.
  rewrite cells_take. apply forallb_mask_filter; auto.
Qed.

Lemma compare_number_cells op v s m :
  Ser.compare_number op v s = Returned m -> m = map (cell_compare op v) (Ser.cells s).
Proof.
  destruct s as [xs|xs|xs|xs]; simpl; try discriminate.
  - intros H; inv H. rewrite map_map; reflexivity.
  - intros H; inv H. rewrite map_map; reflexivity.
  - destruct (forallb _ xs); [|discriminate]. intros H; inv H.
    rewrite map_map. apply map_ext. intros [x|]; reflexivity.
Qed.

Lemma isfinite_cells s m :
  Ser.isfinite s = Returned m -> m = map cell_finite (Ser.cells s).
Proof.
  destruct s as [xs|xs|xs|xs]; simpl; try discriminate; intros H; inv H;
    rewrite map_map; try reflexivity.
  apply map_ext. intros [x|]; reflexivity.
Qed.

Lemma notna_cells s : Ser.notna s = map cell_present (Ser.cells s).
Proof. reflexivity. Qed.

(** *** fetch_REIT_data.py *)

Lemma reit_guarded_invariant (I : DataFrame -> Prop) c name text f st st' :
  (forall df df' n, f df = Returned (df', n) -> I df -> I df') ->
  REIT.guarded c name text f st = Returned st' ->
  I (fst (fst st)) -> I (fst (fst st')).
Proof.
  intros Hf. destruct st as [[df ap] pr]. unfold REIT.guarded.
  destruct (DF.has df c); intros H; [|inv H; auto].
  step_in H. destruct a as [d n]. inv H. simpl. eauto.
Qed.

Lemma reit_guarded_establishes (Q : DataFrame -> Prop) c name text f st st' :
  (forall df df' n, f df = Returned (df', n) -> Q df') ->
  (forall df, DF.has df c = false -> Q df) ->
  REIT.guarded c name text f st = Returned st' ->
  Q (fst (fst st')).
Proof.
  intros Hf Ha. destruct st as [[df ap] pr]. unfold REIT.guarded.
  destruct (DF.has df c) eqn:E; intros H; [|inv H; auto].
  step_in H. destruct a as [d n]. inv H. simpl. eauto.
Qed.

Lemma reit_counted_loc_keeps (f : DataFrame -> outcome (DataFrame * Z)) c P :
  (forall df df' n, f df = Returned (df', n) -> exists m, df' = DF.loc df m) ->
  forall df df' n, REIT.counted f df = Returned (df', n) ->
                   column_satisfies df c P -> column_satisfies df' c P.
Proof.
  intros Hf df df' n H A. unfold REIT.counted in H. step_in H.
  destruct a as [d k]. inv H. destruct (Hf _ _ _ E) as [m ->].
  apply column_satisfies_loc; auto.
Qed.

Lemma reit_counted_post (f : DataFrame -> outcome (DataFrame * Z)) (Q : DataFrame -> Prop) :
  (forall df df' n, f df = Returned (df', n) -> Q df') ->
  forall df df' n, REIT.counted f df = Returned (df', n) -> Q df'.
Proof.
  intros Hf df df' n H. unfold REIT.counted in H. step_in H.
  destruct a as [d k]. inv H. eauto.
Qed.

Lemma reit_filter_assets_post df df' n :
  REIT.filter_assets df = Returned (df', n) ->
  column_satisfies df' "assets" (cell_compare Float.geb REIT.MIN_ASSETS).
Proof.
  unfold REIT.filter_assets. destruct (DF.getitem df "assets") as [a|] eqn:G; [|discriminate].
  intros H. step_in H. inv H. apply compare_number_cells in E. subst.
  eapply column_satisfies_filtered; eauto. apply mask_implies_map.
Qed.

Lemma reit_filter_returns_post df df' n :
  REIT.filter_returns df = Returned (df', n) ->
  column_satisfies df' "usdret" cell_present.
Proof.
  unfold REIT.filter_returns. destruct (DF.getitem df "usdret") as [a|] eqn:G; [|discriminate].
  intros H. inv H.
  eapply column_satisfies_filtered; eauto. rewrite notna_cells. apply mask_implies_map.
Qed.

Lemma reit_filter_prices_post df df' n :
  REIT.filter_prices df = Returned (df', n) ->
  column_satisfies df' "usdprc"
    (fun c => cell_present c && cell_compare Float.gtb 0 c).
Proof.
  unfold REIT.filter_prices. destruct (DF.getitem df "usdprc") as [a|] eqn:G; [|discriminate].
  intros H. step_in H. inv H. apply compare_number_cells in E. subst.
  eapply column_satisfies_filtered; eauto. rewrite notna_cells.
  apply mask_implies_both; apply mask_implies_map.
Qed.

Lemma reit_filter_rtype_post df df' n :
  REIT.filter_rtype df = Returned (df', n) ->
  column_satisfies df' "rtype" (Cell.eq_number 2).
Proof.
  unfold REIT.filter_rtype. destruct (DF.getitem df "rtype") as [a|] eqn:G; [|discriminate].
  intros H. inv H.
  eapply column_satisfies_filtered; eauto. apply mask_implies_map.
Qed.

Lemma reit_filter_year_post to_datetime df df' :
  REIT.filter_year to_datetime df = Returned df' ->
  column_satisfies df' "year"
    (fun c => cell_compare Float.geb REIT.START_YEAR c
              && cell_compare Float.leb REIT.END_YEAR c).
Proof.
  unfold REIT.filter_year. destruct (DF.getitem df "date") as [d|] eqn:G; [|discriminate].
  intros H. do 3 step_in H. inv H.
  apply compare_number_cells in E0, E1. subst.
  eapply column_satisfies_filtered; [apply getitem_setitem_same|].
  apply mask_implies_both; apply mask_implies_map.
Qed.

(** X11. What a caller can rely on after the REIT filter chain returns,
    for each column the returned frame has: every [assets] cell is at
    least MIN_ASSETS, no [usdret] cell is missing, every [usdprc] cell is
    present and positive, every [rtype] cell equals 2, and -- when the
    input had a [date] column -- every [year] cell lies in
    START_YEAR..END_YEAR. *)
Theorem reit_filters_guarantee
  (to_datetime : Series -> outcome (list (option Timestamp)))
  (df df' : DataFrame) (s : REIT.filter_summary) (out : list filter_report) :
  REIT.apply_filters to_datetime df = Returned (df', s, out) ->
  column_satisfies df' "assets" (cell_compare Float.geb REIT.MIN_ASSETS) /\
  column_satisfies df' "usdret" cell_present /\
  column_satisfies df' "usdprc"
    (fun c => cell_present c && cell_compare Float.gtb 0 c) /\
  column_satisfies df' "rtype" (Cell.eq_number 2) /\
  (DF.has df "date" = true ->
   column_satisfies df' "year"
     (fun c => cell_compare Float.geb REIT.START_YEAR c
               && cell_compare Float.leb REIT.END_YEAR c)).
Proof.
  unfold REIT.apply_filters. intros H.
  step_in H. rename a into s1, E into E1.
  step_in H. rename a into s2, E into E2.
  step_in H. rename a into s3, E into E3.
  step_in H. rename a into s4, E into E4.
  step_in H. rename a into s5, E into E5.
  destruct s5 as [[d5 a5] p5]. inv H.
  pose proof (fun c P => @reit_guarded_invariant
                (fun d => column_satisfies d c P) _ _ _ _ _ _
                (@reit_counted_loc_keeps _ c P reit_filter_assets_loc) E2) as K2.
  pose proof (fun c P => @reit_guarded_invariant
                (fun d => column_satisfies d c P) _ _ _ _ _ _
                (@reit_counted_loc_keeps _ c P reit_filter_returns_loc) E3) as K3.
  pose proof (fun c P => @reit_guarded_invariant
                (fun d => column_satisfies d c P) _ _ _ _ _ _
                (@reit_counted_loc_keeps _ c P reit_filter_prices_loc) E4) as K4.
  pose proof (fun c P => @reit_guarded_invariant
                (fun d => column_satisfies d c P) _ _ _ _ _ _
                (@reit_counted_loc_keeps _ c P reit_filter_rtype_loc) E5) as K5.
  cbv beta in K2, K3, K4, K5. simpl fst in K5.
  split; [|split; [|split; [|split]]].
  - apply K5, K4, K3.
    refine (@reit_guarded_establishes
              (fun d => column_satisfies d "assets"
                          (cell_compare Float.geb REIT.MIN_ASSETS))
              _ _ _ _ _ _ _ _ E2).
    + apply reit_counted_post. exact reit_filter_assets_post.
    + intros d Hd. apply column_satisfies_absent; auto.
  - apply K5, K4.
    refine (@reit_guarded_establishes
              (fun d => column_satisfies d "usdret" cell_present)
              _ _ _ _ _ _ _ _ E3).
    + apply reit_counted_post. exact reit_filter_returns_post.
    + intros d Hd. apply column_satisfies_absent; auto.
  - apply K5.
    refine (@reit_guarded_establishes
              (fun d => column_satisfies d "usdprc"
                          (fun c => cell_present c && cell_compare Float.gtb 0 c))
              _ _ _ _ _ _ _ _ E4).
    + apply reit_counted_post. exact reit_filter_prices_post.
    + intros d Hd. apply column_satisfies_absent; auto.
  - refine (@reit_guarded_establishes
              (fun d => column_satisfies d "rtype" (Cell.eq_number 2))
              _ _ _ _ _ _ _ _ E5).
    + apply reit_counted_post. exact reit_filter_rtype_post.
    + intros d Hd. apply column_satisfies_absent; auto.
  - intros Hd. apply K5, K4, K3, K2.
    unfold REIT.guarded in E1. rewrite Hd in E1.
    step_in E1. destruct a as [d1 n1]. inv E1. simpl.
    step_in E. inv E. eapply reit_filter_year_post; eauto.
Qed.

Lemma reit_filters_guarantee_witness :
  exists df' s out,
    REIT.apply_filters to_datetime_iso reit_frame = Returned (df', s, out) /\
    column_satisfies df' "assets" (cell_compare Float.geb REIT.MIN_ASSETS) /\
    column_satisfies df' "usdret" cell_present.
Proof.
  destruct (REIT.apply_filters to_datetime_iso reit_frame) as [[[df' s] out]|e] eqn:E;
    [|vm_compute in E; discriminate].
  exists df', s, out. split; [reflexivity|].
  pose proof (@reit_filters_guarantee to_datetime_iso reit_frame df' s out E) as G.
  split; [exact (proj1 G) | exact (proj1 (proj2 G))].
Defined.

(** *** fetch_Climate_data.py *)

Lemma climate_filter_dates_post to_datetime df df' :
  Climate.filter_dates to_datetime df = Returned df' ->
  column_satisfies df' "date" cell_in_period.
Proof.
  unfold Climate.filter_dates. destruct (DF.getitem df "date") as [d|] eqn:G; [|discriminate].
  intros H. step_in H. inv H.
  eapply column_satisfies_filtered; [apply getitem_setitem_same|].
  replace (map Climate.between_dates a)
    with (map cell_in_period (Ser.cells (Datetime64 a)));
    [apply mask_implies_map|].
  simpl. rewrite map_map. apply map_ext. intros [t|]; reflexivity.
Qed.

Lemma climate_filter_price_post df df' n :
  Climate.filter_price df = Returned (df', n) ->
  column_satisfies df' "stock_price" (cell_compare Float.geb Climate.MIN_STOCK_PRICE).
Proof.
  unfold Climate.filter_price.
  destruct (DF.getitem df "stock_price") as [a|] eqn:G; [|discriminate].
  intros H. step_in H. inv H. apply compare_number_cells in E. subst.
  eapply column_satisfies_filtered; eauto. apply mask_implies_map.
Qed.

Lemma climate_filter_returns_post df df' n :
  Climate.filter_returns df = Returned (df', n) ->
  column_satisfies df' "returns" cell_finite.
Proof.
  unfold Climate.filter_returns.
  destruct (DF.getitem df "returns") as [a|] eqn:G; [|discriminate].
  intros H. step_in H. inv H. apply isfinite_cells in E. subst.
  eapply column_satisfies_filtered; eauto.
  apply mask_implies_and_r, mask_implies_map.
Qed.

Lemma paired_mask_keeps df (P : cell -> bool) l cs : forall m,
  mask_implies m P l ->
  mask_implies (fold_left (fun m c => match DF.getitem df c with
                                      | Some s => mask_and m (Ser.notna s)
                                      | None => m
                                      end) cs m) P l.
Proof.
  induction cs as [|c cs IH]; intros m H; simpl; auto.
  apply IH. destruct (DF.getitem df c); auto.
  apply mask_implies_and_l; auto.
Qed.

Lemma paired_mask_implies df cs : forall m c s,
  In c cs -> DF.getitem df c = Some s ->
  mask_implies (fold_left (fun m c => match DF.getitem df c with
                                      | Some s => mask_and m (Ser.notna s)
                                      | None => m
                                      end) cs m) cell_present (Ser.cells s).
Proof.
  induction cs as [|c0 cs IH]; intros m c s Hin G; [destruct Hin|].
  simpl. destruct Hin as [->|Hin]; [|eapply IH; eauto].
  apply paired_mask_keeps. rewrite G.
  apply mask_implies_and_r. rewrite notna_cells. apply mask_implies_map.
Qed.

Lemma climate_filter_paired_post df c :
  In c Climate.REQUIRED_COLUMNS ->
  column_satisfies (fst (Climate.filter_paired df)) c cell_present.
Proof.
  intros Hin. unfold Climate.filter_paired. cbv zeta. cbn [fst].
  destruct (DF.getitem df c) as [s|] eqn:G.
  - eapply column_satisfies_filtered; eauto.
    apply (@paired_mask_implies df _ _ c s); auto.
    apply filter_In. split; auto. unfold DF.has. rewrite G. reflexivity.
  - apply column_satisfies_loc. intros s G'. congruence.
Qed.

Lemma climate_filter_companies_keeps df df' n c P :
  Climate.filter_companies df = Returned (df', n) ->
  column_satisfies df c P -> column_satisfies df' c P.
Proof.
  unfold Climate.filter_companies. destruct (DF.getitem df "ticker"); [|discriminate].
  destruct (0 <? _)%nat; intros H; inv H; auto using column_satisfies_loc.
Qed.

(** X12. What a caller can rely on after the Climate filter chain returns,
    for each column the returned frame has: every [date] cell is a
    timestamp from START_DATE to END_DATE, every [stock_price] cell is at
    least MIN_STOCK_PRICE, no cell of a required column is missing, and
    every [returns] cell is finite. *)
Theorem climate_filters_guarantee
  (to_datetime : Series -> outcome (list (option Timestamp)))
  (df df' : DataFrame) (out : list filter_report) :
  Climate.apply_filters to_datetime df = Returned (df', out) ->
  column_satisfies df' "date" cell_in_period /\
  column_satisfies df' "stock_price"
    (cell_compare Float.geb Climate.MIN_STOCK_PRICE) /\
  (forall c, In c Climate.REQUIRED_COLUMNS -> column_satisfies df' c cell_present) /\
  column_satisfies df' "returns" cell_finite.
Proof.
  unfold Climate.apply_filters. intros H.
  step_in H. destruct a as [d1 o1]. rename E into E1.
  step_in H. destruct a as [d2 o2]. rename E into E2.
  step_in H. destruct a as [d3 o3]. rename E into E3.
  step_in H. destruct a as [d4 o4]. rename E into E4.
  step_in H. destruct a as [d5 o5]. rename E into E5.
  step_in H. destruct a as [d6 o6]. rename E into E6. inv H.
  assert (K2 : forall c P, column_satisfies d1 c P -> column_satisfies d2 c P).
  { intros c P S. destruct (DF.has d1 "stock_price"); [|inv E2; auto].
    step_in E2. destruct a as [d n]. inv E2.
    unfold Climate.filter_price in E.
    destruct (DF.getitem d1 "stock_price"); [|discriminate].
    step_in E. inv E. apply column_satisfies_loc; auto. }
  assert (K3 : forall c P, column_satisfies d2 c P -> column_satisfies d3 c P).
  { intros c P S. destruct (DF.has d2 "climate_score"); [|inv E3; auto].
    step_in E3. destruct a as [d n]. inv E3.
    unfold Climate.filter_climate in E.
    destruct (DF.getitem d2 "climate_score"); [|discriminate].
    inv E. apply column_satisfies_loc; auto. }
  assert (K4 : forall c P, column_satisfies d3 c P -> column_satisfies d4 c P).
  { intros c P S. unfold Climate.filter_paired in E4. inv E4.
    apply column_satisfies_loc; auto. }
  assert (K5 : forall c P, column_satisfies d4 c P -> column_satisfies d5 c P).
  { intros c P S. destruct (DF.has d4 "returns"); [|inv E5; auto].
    step_in E5. destruct a as [d n]. inv E5.
    unfold Climate.filter_returns in E.
    destruct (DF.getitem d4 "returns"); [|discriminate].
    step_in E. inv E. apply column_satisfies_loc; auto. }
  assert (K6 : forall c P, column_satisfies d5 c P -> column_satisfies df' c P).
  { intros c P S. destruct (DF.has d5 "ticker"); [|inv E6; auto].
    step_in E6. destruct a as [d n]. inv E6.
    eapply climate_filter_companies_keeps; eauto. }
  split; [|split; [|split]].
  - apply K6, K5, K4, K3, K2.
    destruct (DF.has df "date") eqn:Hd;
      [|inv E1; apply column_satisfies_absent; auto].
    step_in E1. inv E1. eapply climate_filter_dates_post; eauto.
  - apply K6, K5, K4, K3.
    destruct (DF.has d1 "stock_price") eqn:Hd;
      [|inv E2; apply column_satisfies_absent; auto].
    step_in E2. destruct a as [d n]. inv E2. eapply climate_filter_price_post; eauto.
  - intros c Hc. apply K6, K5.
    replace d4 with (fst (Climate.filter_paired d3))
      by (destruct (Climate.filter_paired d3); inv E4; reflexivity).
    apply climate_filter_paired_post; auto.
  - apply K6.
    destruct (DF.has d4 "returns") eqn:Hd;
      [|inv E5; apply column_satisfies_absent; auto].
    step_in E5. destruct a as [d n]. inv E5. eapply climate_filter_returns_post; eauto.
Qed.

Lemma climate_filters_guarantee_witness :
  exists df' out,
    Climate.apply_filters to_datetime_iso quotes_frame = Returned (df', out) /\
    DF.len df' = 1%nat /\
    column_satisfies df' "date" cell_in_period /\
    column_satisfies df' "returns" cell_finite.
Proof.
  destruct (Climate.apply_filters to_datetime_iso quotes_frame) as [[df' out]|e] eqn:E;
    [|vm_compute in E; discriminate].
  exists df', out. split; [reflexivity|].
  pose proof (@climate_filters_guarantee to_datetime_iso quotes_frame df' out E) as G.
  split; [vm_compute in E; inv E; reflexivity|].
  split; [exact (proj1 G) | exact (proj2 (proj2 (proj2 G)))].
Defined.

(** ** Once the missing values are filled, no later stage brings one back *)

Lemma no_missing_present s :
  no_missing s <-> forallb cell_present (Ser.cells s) = true.
Proof.
  unfold no_missing, Ser.isnull, count_true, cell_present.
  induction (Ser.cells s) as [|c l IH]; simpl; [tauto|].
  destruct (Cell.isnull c); simpl; [split; intros; discriminate | exact IH].
Qed.

Lemma no_missing_take m s : no_missing s -> no_missing (Ser.take m s).
Proof.
  rewrite !no_missing_present, cells_take. apply forallb_mask_filter_kept.
Qed.

Lemma no_missing_incl s w :
  incl (Ser.cells w) (Ser.cells s) -> no_missing s -> no_missing w.
Proof.
  rewrite !no_missing_present, !forallb_forall. intros I H x Hx. auto.
Qed.

Lemma In_update c v cols c' s' :
  In (c', s') (DF.update c v cols) -> (c' = c /\ s' = v) \/ In (c', s') cols.
Proof.
  induction cols as [|[n s] cols IH]; simpl.
  - intros [E|[]]. inv E. auto.
  - destruct (String.eqb c n) eqn:E; simpl.
    + apply String.eqb_eq in E; subst. intros [H|H]; [inv H; auto | auto].
    + intros [H|H]; [auto|]. destruct (IH H); auto.
Qed.

Lemma In_loc df m c s' :
  In (c, s') (columns (DF.loc df m)) ->
  exists s, In (c, s) (columns df) /\ s' = Ser.take m s.
Proof.
  unfold DF.loc; simpl. intros H. apply in_map_iff in H as ([n s] & E & Hin).
  simpl in E. inv E. eauto.
Qed.

Lemma complete_loc df m : complete df -> complete (DF.loc df m).
Proof.
  intros C c s' H. apply In_loc in H as (s & Hin & ->).
  apply no_missing_take. eauto.
Qed.

Lemma complete_setitem df c v : complete df -> no_missing v -> complete (DF.setitem df c v).
Proof.
  intros C V c' s' H. unfold DF.setitem in H; simpl in H.
  apply In_update in H as [[_ ->]|H]; eauto.
Qed.

(** a column written just before a selection that keeps only its present
    cells *)
Lemma complete_loc_new df c y m :
  complete df -> mask_implies m cell_present (Ser.cells y) ->
  complete (DF.loc (DF.setitem df c y) m).
Proof.
  intros C M c' s' H. apply In_loc in H as (s & Hin & ->).
  unfold DF.setitem in Hin; simpl in Hin.
  apply In_update in Hin as [[_ ->]|Hin].
  - apply no_missing_present. rewrite cells_take. apply forallb_mask_filter; auto.
  - apply no_missing_take. eauto.
Qed.

Lemma complete_drop_duplicates df : complete df -> complete (DF.drop_duplicates df).
Proof. unfold DF.drop_duplicates. destruct (DF.empty df); auto using complete_loc. Qed.

Lemma complete_remove_duplicates df : complete df -> complete (Climate.remove_duplicates df).
Proof.
  unfold Climate.remove_duplicates. destruct (0 <? _)%nat; auto using complete_drop_duplicates.
Qed.

Lemma complete_handle_outliers_zscore df th df' :
  Climate.handle_outliers_zscore df th = Returned df' -> complete df -> complete df'.
Proof.
  unfold Climate.handle_outliers_zscore. intros H C. step_in H. inv H.
  apply (for_each_preserves (fun a b : DataFrame * nat =>
                               complete (fst a) -> complete (fst b))) in E;
    [exact E | auto | auto | | exact C].
  intros [d k] col st'. unfold Climate.zscore_step.
  destruct (DF.getitem d col); [|discriminate].
  destruct (0 <? _)%nat; intros S; inv S; simpl; auto using complete_loc.
Qed.

Lemma complete_handle_outliers df method df' sm :
  REIT.handle_outliers df method = Returned (df', sm) -> complete df -> complete df'.
Proof.
  unfold REIT.handle_outliers. intros H C.
  apply (for_each_preserves (fun a b : DataFrame * REIT.outlier_summary =>
                               complete (fst a) -> complete (fst b))) in H;
    [exact H | auto | auto | | exact C].
  intros [d sm0] col st'. unfold REIT.outlier_step.
  destruct (DF.getitem d col) as [s|] eqn:G; [|discriminate].
  intros S. step_in S.
  destruct (0 <? count_true a)%nat.
  - step_in S. inv S. simpl. intros Cd. apply complete_setitem; auto.
    apply (@no_missing_incl s a0 (winsorize_values _ _ E0)).
    apply (Cd col). apply lookup_In_pair. exact G.
  - inv S. auto.
Qed.

Lemma compare_implies_present op v c :
  (forall x, op x (Fin v) = true -> Float.isnan x = false) ->
  cell_compare op v c = true -> cell_present c = true.
Proof.
  intros N. destruct c as [x|z|t|t|]; simpl; try discriminate; auto.
  intros H. unfold cell_present; simpl. rewrite (N x H). reflexivity.
Qed.

Lemma geb_not_nan x v : Float.geb x (Fin v) = true -> Float.isnan x = false.
Proof. destruct x; simpl; auto; discriminate. Qed.

Lemma in_period_present c : cell_in_period c = true -> cell_present c = true.
Proof. destruct c; simpl; auto; discriminate. Qed.

Section FilterCompleteness.
Variable to_datetime : Series -> outcome (list (option Timestamp)).

Lemma complete_reit_filter_year df df' :
  REIT.filter_year to_datetime df = Returned df' -> complete df -> complete df'.
Proof.
  unfold REIT.filter_year. destruct (DF.getitem df "date") as [d|] eqn:G; [|discriminate].
  intros H C. do 3 step_in H. inv H.
  apply compare_number_cells in E0. subst.
  apply complete_loc_new; auto. apply mask_implies_and_l.
  eapply mask_implies_weaken; [|apply mask_implies_map].
  intros c Hc. apply (@compare_implies_present Float.geb REIT.START_YEAR c); auto.
  intros x. apply geb_not_nan.
Qed.

Lemma complete_reit_apply_filters df df' s out :
  REIT.apply_filters to_datetime df = Returned (df', s, out) ->
  complete df -> complete df'.
Proof.
  unfold REIT.apply_filters. intros H C.
  step_in H. rename a into s1, E into E1.
  step_in H. rename a into s2, E into E2.
  step_in H. rename a into s3, E into E3.
  step_in H. rename a into s4, E into E4.
  step_in H. rename a into s5, E into E5.
  destruct s5 as [[d5 a5] p5]. inv H.
  assert (L : forall f : DataFrame -> outcome (DataFrame * Z),
             (forall d d' n, f d = Returned (d', n) -> exists m, d' = DF.loc d m) ->
             forall d d' n, REIT.counted f d = Returned (d', n) ->
                            complete d -> complete d').
  { intros f Hf d d' n Hc Cd. unfold REIT.counted in Hc. step_in Hc.
    destruct a as [d0 k]. inv Hc. destruct (Hf _ _ _ E) as [m ->].
    apply complete_loc; auto. }
  apply (reit_guarded_invariant complete) in E1;
    [| intros d d' n Hd; step_in Hd; inv Hd; eapply complete_reit_filter_year; eauto
     | exact C].
  apply (reit_guarded_invariant complete) in E2;
    [| apply L, reit_filter_assets_loc | exact E1].
  apply (reit_guarded_invariant complete) in E3;
    [| apply L, reit_filter_returns_loc | exact E2].
  apply (reit_guarded_invariant complete) in E4;
    [| apply L, reit_filter_prices_loc | exact E3].
  apply (reit_guarded_invariant complete) in E5;
    [| apply L, reit_filter_rtype_loc | exact E4].
  exact E5.
Qed.

Lemma complete_climate_apply_filters df df' out :
  Climate.apply_filters to_datetime df = Returned (df', out) ->
  complete df -> complete df'.
Proof.
  unfold Climate.apply_filters. intros H C.
  step_in H. destruct a as [d1 o1]. rename E into E1.
  step_in H. destruct a as [d2 o2]. rename E into E2.
  step_in H. destruct a as [d3 o3]. rename E into E3.
  step_in H. destruct a as [d4 o4]. rename E into E4.
  step_in H. destruct a as [d5 o5]. rename E into E5.
  step_in H. destruct a as [d6 o6]. rename E into E6. inv H.
  assert (S1 : complete d1).
  { destruct (DF.has df "date"); [|inv E1; auto].
    step_in E1. inv E1. unfold Climate.filter_dates in E.
    destruct (DF.getitem df "date"); [|discriminate].
    step_in E. inv E. apply complete_loc_new; auto.
    replace (map Climate.between_dates a)
      with (map cell_in_period (Ser.cells (Datetime64 a)))
      by (simpl; rewrite map_map; apply map_ext; intros [t|]; reflexivity).
    eapply mask_implies_weaken; [|apply mask_implies_map].
    apply in_period_present. }
  assert (S2 : complete d2).
  { destruct (DF.has d1 "stock_price"); [|inv E2; auto].
    step_in E2. destruct a as [d n]. inv E2.
    unfold Climate.filter_price in E.
    destruct (DF.getitem d1 "stock_price"); [|discriminate].
    step_in E. inv E. apply complete_loc; auto. }
  assert (S3 : complete d3).
  { destruct (DF.has d2 "climate_score"); [|inv E3; auto].
    step_in E3. destruct a as [d n]. inv E3.
    unfold Climate.filter_climate in E.
    destruct (DF.getitem d2 "climate_score"); [|discriminate].
    inv E. apply complete_loc; auto. }
  assert (S4 : complete d4).
  { unfold Climate.filter_paired in E4. inv E4. apply complete_loc; auto. }
  assert (S5 : complete d5).
  { destruct (DF.has d4 "returns"); [|inv E5; auto].
    step_in E5. destruct a as [d n]. inv E5.
    unfold Climate.filter_returns in E.
    destruct (DF.getitem d4 "returns"); [|discriminate].
    step_in E. inv E. apply complete_loc; auto. }
  destruct (DF.has d5 "ticker"); [|inv E6; auto].
  step_in E6. destruct a as [d n]. inv E6.
  unfold Climate.filter_companies in E.
  destruct (DF.getitem d5 "ticker"); [|discriminate].
  destruct (0 <? _)%nat; inv E; auto using complete_loc.
Qed.
End FilterCompleteness.

Lemma complete_dataset2_apply_filters df :
  complete df -> complete (Dataset2.apply_filters df).
Proof.
  unfold Dataset2.apply_filters. intros C.
  destruct (0 <? List.length _)%nat; auto.
  destruct (0 <? count_true _)%nat; auto using complete_loc.
Qed.

(** ** The pipelines end to end *)

Lemma validate_verdict df :
  snd (Climate.validate_cleaned_data df) = (0 <? DF.len df)%nat.
Proof. unfold Climate.validate_cleaned_data. destruct (0 <? DF.len df)%nat; reflexivity. Qed.

(** X13. On well-formed raw data without infinite cells, whenever the REIT
    [main] returns a frame, every stage has run, the frame has no missing
    value in any column, no more rows than the raw data and at most one
    column more (the derived [year]). *)
Theorem reit_main_returns_complete_frames
  (to_datetime : Series -> outcome (list (option Timestamp)))
  (method : string) (raw df : DataFrame) (stages : list stage) :
  DF.wf raw -> finite_data raw ->
  REIT.main to_datetime method raw = (stages, Returned df) ->
  stages = [MissingValues; Outliers; Duplicates; Filters; Save] /\
  complete df /\
  grows_by 1 raw df.
Proof.
  intros W F. unfold REIT.main.
  destruct (reit_clean_fills W (th := REIT.MISSING_VALUE_THRESHOLD) eq_refl F)
    as (df1 & sm1 & E1 & C1).
  rewrite E1.
  destruct (REIT.handle_outliers df1 method) as [[df2 sm2]|e] eqn:E2;
    [|intros H; inv H].
  destruct (REIT.remove_duplicates df2) as [df3 sm3] eqn:E3.
  destruct (REIT.apply_filters to_datetime df3) as [[[df4 s4] out]|e] eqn:E4;
    intros H; inv H.
  assert (D3 : df3 = Climate.remove_duplicates df2)
    by (rewrite <- reit_remove_duplicates_table, E3; reflexivity).
  split; [reflexivity|]. split.
  - eapply complete_reit_apply_filters; eauto. subst df3.
    apply complete_remove_duplicates.
    eapply complete_handle_outliers; eauto.
  - pose proof (reit_clean_no_larger _ _ E1) as [R1 K1].
    pose proof (reit_handle_outliers_no_larger _ _ E2) as [R2 K2].
    pose proof (climate_remove_duplicates_no_larger df2) as [R3 K3].
    rewrite <- D3 in R3, K3.
    destruct (reit_apply_filters_counts _ _ E4) as [[R4 K4] _].
    split; lia.
Qed.

Lemma reit_main_returns_complete_frames_witness :
  exists stages df,
    REIT.main to_datetime_iso "iqr" reit_frame = (stages, Returned df) /\
    DF.len df = 2%nat /\ complete df.
Proof.
  destruct (REIT.main to_datetime_iso "iqr" reit_frame) as [stages [df|e]] eqn:E;
    [|vm_compute in E; discriminate].
  exists stages, df. split; [reflexivity|].
  assert (W : DF.wf reit_frame)
    by (split; [repeat constructor; simpl; intuition discriminate | repeat constructor]).
  assert (F : finite_data reit_frame)
    by (intros c s [H|[H|[H|[H|[H|[]]]]]]; inversion H; subst; simpl; auto;
        repeat constructor; discriminate).
  split; [vm_compute in E; inv E; reflexivity|].
  exact (proj1 (proj2 (@reit_main_returns_complete_frames _ _ _ _ _ W F E))).
Defined.

Lemma climate_clean_returns mode df th :
  DF.wf df -> (th < 1)%Q -> finite_data df ->
  exists df',
    Climate.clean_missing_values mode df th = Returned df' /\
    (mode = WritesThrough -> complete df').
Proof.
  intros W T F. destruct mode.
  - destruct (climate_clean_fills W T F) as (df' & E & C). exists df'. auto.
  - exists (Climate.drop_excessive df th). split; [apply climate_clean_on_copy|].
    discriminate.
Qed.

(** with a fill that acts on a copy, the Dataset2 [main] saves a frame
    that still has the missing values of the raw data *)
Lemma copy_fill_saves_missing_values :
  Dataset2.main ActsOnCopy patchy_frame
  = ([MissingValues; Outliers; Duplicates; Filters; Validation; Save],
     Returned (Some (DF.drop patchy_frame ["empty"]))) /\
  DF.getitem (DF.drop patchy_frame ["empty"]) "returns"
  = Some (Float64 [Fin 1; NaN; Fin 3]).
Proof. split; vm_compute; reflexivity. Qed.

(** X14. On well-formed raw data without infinite cells, the Climate and
    Dataset2 [main] hand a frame to the writer only after all six stages,
    and that frame has at least one row and no more rows or columns than
    the raw data, whether the fill of [clean_missing_values] reaches the
    frame or not; when the fill reaches the frame, the saved frame has no
    missing value in any column; when validation fails the save stage is
    not reached. *)
Theorem main_saves_only_validated_frames
  (to_datetime : Series -> outcome (list (option Timestamp))) (raw : DataFrame) :
  DF.wf raw -> finite_data raw ->
  (forall mode stages df,
      Climate.main to_datetime mode raw = (stages, Returned (Some df)) ->
      stages = [MissingValues; Outliers; Duplicates; Filters; Validation; Save] /\
      (0 < DF.len df)%nat /\ no_larger raw df /\
      (mode = WritesThrough -> complete df)) /\
  (forall mode stages df,
      Dataset2.main mode raw = (stages, Returned (Some df)) ->
      stages = [MissingValues; Outliers; Duplicates; Filters; Validation; Save] /\
      (0 < DF.len df)%nat /\ no_larger raw df /\
      (mode = WritesThrough -> complete df)) /\
  (forall mode stages,
      Climate.main to_datetime mode raw = (stages, Returned None) \/
      Dataset2.main mode raw = (stages, Returned None) ->
      stages = [MissingValues; Outliers; Duplicates; Filters; Validation]).
Proof.
  intros W F.
  assert (C1 : forall mode, exists c1,
             Climate.clean_missing_values mode raw Climate.MISSING_THRESHOLD
             = Returned c1 /\ (mode = WritesThrough -> complete c1))
    by (intros mode; apply climate_clean_returns; auto; reflexivity).
  assert (D1 : forall mode, exists d1,
             Climate.clean_missing_values mode raw Dataset2.MISSING_THRESHOLD
             = Returned d1 /\ (mode = WritesThrough -> complete d1))
    by (intros mode; apply climate_clean_returns; auto; reflexivity).
  split; [|split].
  - intros mode stages df. destruct (C1 mode) as (c1 & Ec1 & Cc1).
    unfold Climate.main. rewrite Ec1.
    destruct (Climate.handle_outliers_zscore c1 3) as [c2|e] eqn:E2;
      [|intros H; inv H].
    destruct (Climate.apply_filters to_datetime (Climate.remove_duplicates c2))
      as [[c4 out]|e] eqn:E4; [|intros H; inv H].
    rewrite validate_verdict.
    destruct (0 <? DF.len c4)%nat eqn:V; intros H; inv H.
    split; [reflexivity|]. split; [apply Nat.ltb_lt; auto|]. split.
    + apply (no_larger_trans (climate_clean_no_larger _ _ _ Ec1)).
      apply (no_larger_trans (climate_handle_outliers_no_larger _ _ E2)).
      apply (no_larger_trans (climate_remove_duplicates_no_larger c2)).
      eapply climate_apply_filters_no_larger; eauto.
    + intros M. eapply complete_climate_apply_filters; eauto.
      apply complete_remove_duplicates.
      eapply complete_handle_outliers_zscore; eauto.
  - intros mode stages df. destruct (D1 mode) as (d1 & Ed1 & Cd1).
    unfold Dataset2.main, Dataset2.clean_missing_values,
      Dataset2.handle_outliers_zscore, Dataset2.remove_duplicates,
      Dataset2.validate_cleaned_data.
    rewrite Ed1.
    destruct (Climate.handle_outliers_zscore d1 3) as [d2|e] eqn:E2;
      [|intros H; inv H].
    rewrite validate_verdict.
    destruct (0 <? DF.len _)%nat eqn:V; intros H; inv H.
    split; [reflexivity|]. split; [apply Nat.ltb_lt; auto|]. split.
    + apply (no_larger_trans (climate_clean_no_larger _ _ _ Ed1)).
      apply (no_larger_trans (climate_handle_outliers_no_larger _ _ E2)).
      apply (no_larger_trans (climate_remove_duplicates_no_larger d2)).
      apply dataset2_apply_filters_no_larger.
    + intros M. apply complete_dataset2_apply_filters, complete_remove_duplicates.
      eapply complete_handle_outliers_zscore; eauto.
  - intros mode stages [H|H].
    + destruct (C1 mode) as (c1 & Ec1 & _).
      unfold Climate.main in H. rewrite Ec1 in H.
      destruct (Climate.handle_outliers_zscore c1 3) as [c2|e]; [|inv H].
      destruct (Climate.apply_filters to_datetime (Climate.remove_duplicates c2))
        as [[c4 out]|e]; [|inv H].
      destruct (snd (Climate.validate_cleaned_data c4)); inv H. reflexivity.
    + destruct (D1 mode) as (d1 & Ed1 & _).
      unfold Dataset2.main, Dataset2.clean_missing_values,
        Dataset2.handle_outliers_zscore in H.
      rewrite Ed1 in H.
      destruct (Climate.handle_outliers_zscore d1 3) as [d2|e]; [|inv H].
      destruct (snd _); inv H. reflexivity.
Qed.

Lemma main_saves_only_validated_frames_witness :
  (exists stages df,
      Climate.main to_datetime_iso WritesThrough raw_quotes
        = (stages, Returned (Some df)) /\
      DF.len df = 2%nat /\ complete df) /\
  (exists stages df,
      Climate.main to_datetime_iso ActsOnCopy raw_quotes
        = (stages, Returned (Some df)) /\
      DF.len df = 1%nat /\ no_larger raw_quotes df).
Proof.
  assert (W : DF.wf raw_quotes)
    by (split; [repeat constructor; simpl; intuition discriminate | repeat constructor]).
  assert (F : finite_data raw_quotes)
    by (intros c s [H|[H|[H|[H|[]]]]]; inversion H; subst; simpl; auto;
        repeat constructor; discriminate).
  pose proof (proj1 (@main_saves_only_validated_frames to_datetime_iso raw_quotes W F))
    as M.
  split.
  - destruct (Climate.main to_datetime_iso WritesThrough raw_quotes)
      as [stages [[df|]|e]] eqn:E; try (vm_compute in E; discriminate).
    exists stages, df. split; [reflexivity|].
    split; [vm_compute in E; inv E; reflexivity|].
    exact (proj2 (proj2 (proj2 (M WritesThrough stages df E))) eq_refl).
  - destruct (Climate.main to_datetime_iso ActsOnCopy raw_quotes)
      as [stages [[df|]|e]] eqn:E; try (vm_compute in E; discriminate).
    exists stages, df. split; [reflexivity|].
    split; [vm_compute in E; inv E; reflexivity|].
    exact (proj1 (proj2 (proj2 (M ActsOnCopy stages df E)))).
Defined.

(** ** What the validator reports *)

Lemma list_sum_positive_term (A : Type) (f : A -> nat) l :
  (0 < list_sum (map f l))%nat -> exists x, In x l /\ (0 < f x)%nat.
Proof.
  induction l as [|x l IH]; simpl; [lia|].
  intros H. destruct (f x) as [|k] eqn:E.
  - destruct (IH H) as (y & Hy & Py). eauto.
  - exists x. split; auto. lia.
Qed.

(** X16. The diagnostics of [validate_cleaned_data]: an ERROR is logged
    exactly when the frame has no rows; a WARNING is logged exactly when
    some column whose name contains "id" has a missing value, and then it
    lists exactly the id columns with their positive null counts; a frame
    without missing values is never warned about. *)
Theorem validator_diagnostics (df : DataFrame) :
  (In (ERROR, DatasetEmpty) (fst (Climate.validate_cleaned_data df))
   <-> DF.len df = 0%nat) /\
  ((exists counts,
       In (WARNING, NullsFound counts) (fst (Climate.validate_cleaned_data df)))
   <-> exists c s, In c (DF.names df) /\ contains "id" (lower c) = true /\
                   DF.getitem df c = Some s /\ (0 < count_true (Ser.isnull s))%nat) /\
  (forall counts c n,
      In (WARNING, NullsFound counts) (fst (Climate.validate_cleaned_data df)) ->
      In (c, n) counts ->
      contains "id" (lower c) = true /\ (0 < n)%nat /\
      exists s, DF.getitem df c = Some s /\ n = count_true (Ser.isnull s)) /\
  (complete df ->
   forall m, ~ In (WARNING, m) (fst (Climate.validate_cleaned_data df))).
Proof.
  unfold Climate.validate_cleaned_data.
  set (critical := filter (fun col => contains "id" (lower col)) (DF.names df)).
  set (null_check := map (fun c => (c, match DF.getitem df c with
                                       | Some s => count_true (Ser.isnull s)
                                       | None => 0%nat
                                       end)) critical).
  set (check1 := match critical with
                 | [] => []
                 | _ => if (list_sum (map snd null_check) =? 0)%nat
                        then [(INFO, NoNullsInCritical critical)]
                        else [(WARNING,
                               NullsFound (filter (fun cn => (0 <? snd cn)%nat) null_check))]
                 end).
  assert (NE : forall m, ~ In (ERROR, m) check1).
  { intros m. unfold check1. destruct critical; [tauto|].
    destruct (_ =? 0)%nat; simpl; intros [H|[]]; discriminate. }
  assert (R : forall m, In (WARNING, m)
                (fst (if (0 <? DF.len df)%nat
                      then (check1 ++ [(INFO, FinalRows (DF.len df)); (INFO, DtypeSummary)],
                            true)
                      else (check1 ++ [(ERROR, DatasetEmpty)], false)))
              <-> In (WARNING, m) check1).
  { intros m. destruct (0 <? DF.len df)%nat; simpl; rewrite in_app_iff; simpl;
      split; auto; intros [H|H]; auto; intuition discriminate. }
  assert (W : forall m, In (WARNING, m) check1 ->
                m = NullsFound (filter (fun cn => (0 <? snd cn)%nat) null_check) /\
                (0 < list_sum (map snd null_check))%nat).
  { intros m. unfold check1. destruct critical; [intros []|].
    destruct (_ =? 0)%nat eqn:Z; cbn [In]; intros [H|[]]; [discriminate|].
    inv H. split; auto. apply Nat.eqb_neq in Z. lia. }
  assert (Hcrit : forall c, In c critical <->
                            In c (DF.names df) /\ contains "id" (lower c) = true)
    by (intros c; unfold critical; rewrite filter_In; cbv beta; tauto).
  split; [|split; [|split]].
  - destruct (0 <? DF.len df)%nat eqn:L; simpl; rewrite in_app_iff; simpl.
    + apply Nat.ltb_lt in L. split; [|lia].
      intros [H|[H|[H|[]]]]; try discriminate. exfalso; eapply NE; eauto.
    + apply Nat.ltb_ge in L. split; [lia|auto].
  - split.
    + intros [counts H]. apply R, W in H as [_ P].
      unfold null_check in P. rewrite map_map in P. simpl in P.
      apply list_sum_positive_term in P as (c & Hc & Pc).
      apply Hcrit in Hc as [Hn Hid].
      destruct (DF.getitem df c) as [s|] eqn:G; [|lia].
      exists c, s. auto.
    + intros (c & s & Hn & Hid & G & P).
      assert (Hc : In c critical) by (apply Hcrit; auto).
      assert (S : (0 < list_sum (map snd null_check))%nat).
      { unfold null_check. rewrite map_map; simpl.
        apply (list_sum_pos _ critical c Hc). rewrite G. exact P. }
      eexists. apply R. unfold check1.
      destruct critical as [|c0 rest]; [destruct Hc|].
      destruct (_ =? 0)%nat eqn:Z; [apply Nat.eqb_eq in Z; lia|].
      left; reflexivity.
  - intros counts c n H Hin. apply R, W in H as [E _]. inv E.
    apply filter_In in Hin as [Hin P]. simpl in P. apply Nat.ltb_lt in P.
    unfold null_check in Hin. apply in_map_iff in Hin as (c' & E & Hc).
    inv E. apply Hcrit in Hc as [Hn Hid].
    split; auto. split; auto.
    destruct (DF.getitem df c) as [s|] eqn:G; [eauto|lia].
  - intros C m H. apply R, W in H as [_ P].
    unfold null_check in P. rewrite map_map in P. simpl in P.
    apply list_sum_positive_term in P as (c & Hc & Pc).
    destruct (DF.getitem df c) as [s|] eqn:G; [|lia].
    apply lookup_In_pair in G. rewrite (C c s G) in Pc. lia.
Qed.

(** ** Where a pipeline can fail *)

Lemma names_loc df m : DF.names (DF.loc df m) = DF.names df.
Proof. unfold DF.names, DF.loc; simpl. rewrite map_map. reflexivity. Qed.

Lemma zscore_loop_returns th cs : forall df n,
  (forall c, In c cs -> In c (DF.names df)) ->
  exists st, for_each (Climate.zscore_step th) cs (df, n) = Returned st.
Proof.
  induction cs as [|c cs IH]; intros df n Hin; [simpl; eauto|].
  simpl. destruct (lookup_in_names c (columns df) (Hin c (or_introl eq_refl))) as [s G].
  unfold Climate.zscore_step at 1. unfold DF.getitem at 1. rewrite G.
  destruct (0 <? _)%nat; cbn [bind]; apply IH; intros c' Hc';
    rewrite ?names_loc; apply Hin; right; auto.
Qed.

Lemma handle_outliers_zscore_returns df th :
  exists df', Climate.handle_outliers_zscore df th = Returned df'.
Proof.
  unfold Climate.handle_outliers_zscore.
  destruct (zscore_loop_returns th (DF.numeric_cols df) df 0%nat) as [st ->].
  - intros c; apply numeric_cols_in.
  - cbn [bind]. eauto.
Qed.

(** X17. On raw data with distinct column labels, missing-value handling,
    outlier handling and duplicate removal never raise: the REIT pipeline
    (at its configured method) and the Climate pipeline can fail only
    inside [apply_filters], and the Dataset2 pipeline always returns. *)
Theorem only_the_filters_can_raise
  (to_datetime : Series -> outcome (list (option Timestamp))) (raw : DataFrame) :
  NoDup (DF.names raw) ->
  (forall stages e,
      REIT.main to_datetime REIT.OUTLIER_METHOD raw = (stages, Raised e) ->
      stages = [MissingValues; Outliers; Duplicates] /\
      exists df, REIT.apply_filters to_datetime df = Raised e) /\
  (forall mode stages e,
      Climate.main to_datetime mode raw = (stages, Raised e) ->
      stages = [MissingValues; Outliers; Duplicates] /\
      exists df, Climate.apply_filters to_datetime df = Raised e) /\
  (forall mode, exists stages r, Dataset2.main mode raw = (stages, Returned r)).
Proof.
  intros ND. split; [|split].
  - intros stages e. unfold REIT.main.
    destruct (reit_clean_columns raw REIT.MISSING_VALUE_THRESHOLD ND)
      as (df1 & sm1 & -> & N1 & _ & _).
    assert (ND1 : NoDup (DF.names df1))
      by (rewrite N1; apply reit_drop_excessive_NoDup; auto).
    destruct (handle_outliers_iqr_columns df1 ND1) as (df2 & sm2 & E2 & _).
    unfold REIT.OUTLIER_METHOD. rewrite E2.
    destruct (REIT.remove_duplicates df2) as [df3 sm3].
    destruct (REIT.apply_filters to_datetime df3) as [[[df4 s4] out]|e'] eqn:E4;
      intros H; inv H. eauto.
  - intros mode stages e. unfold Climate.main.
    destruct (climate_clean_columns mode raw Climate.MISSING_THRESHOLD ND)
      as (df1 & -> & _).
    destruct (handle_outliers_zscore_returns df1 3) as [df2 ->].
    destruct (Climate.apply_filters to_datetime (Climate.remove_duplicates df2))
      as [[df4 out]|e'] eqn:E4.
    + destruct (snd _); intros H; inv H.
    + intros H; inv H. eauto.
  - intros mode.
    unfold Dataset2.main, Dataset2.clean_missing_values, Dataset2.handle_outliers_zscore.
    destruct (climate_clean_columns mode raw Dataset2.MISSING_THRESHOLD ND)
      as (df1 & -> & _).
    destruct (handle_outliers_zscore_returns df1 3) as [df2 ->].
    destruct (snd _); eauto.
Qed.

Lemma only_the_filters_can_raise_witness :
  exists stages e,
    Climate.main to_datetime_iso WritesThrough misdated_frame = (stages, Raised e) /\
    stages = [MissingValues; Outliers; Duplicates].
Proof.
  destruct (Climate.main to_datetime_iso WritesThrough misdated_frame) as [stages [r|e]] eqn:E;
    [vm_compute in E; discriminate|].
  exists stages, e. split; [reflexivity|].
  assert (ND : NoDup (DF.names misdated_frame))
    by (repeat constructor; simpl; intuition discriminate).
  exact (proj1 (proj1 (proj2 (@only_the_filters_can_raise to_datetime_iso
                                misdated_frame ND)) WritesThrough stages e E)).
Defined.

(** ** The Dataset2 filter leaves nothing for a second pass *)

Lemma mask_and_length a : forall b,
  List.length a = List.length b -> List.length (mask_and a b) = List.length a.
Proof.
  induction a as [|x a IH]; intros [|y b]; simpl; try discriminate; auto.
Qed.

Lemma mask_filter_mask_and m : forall a b,
  List.length a = List.length b ->
  mask_filter m (mask_and a b) = mask_and (mask_filter m a) (mask_filter m b).
Proof.
  induction m as [|k m IH]; intros [|x a] [|y b]; simpl; try discriminate; auto.
  intros H. injection H as H. destruct k; simpl; rewrite IH; auto.
Qed.

Lemma mask_filter_repeat_true m :
  mask_filter m (repeat true (List.length m)) = repeat true (count_true m).
Proof.
  unfold count_true. induction m as [|[|] m IH]; simpl; auto. f_equal; auto.
Qed.

Lemma count_true_negb_self zr :
  count_true (mask_filter (map negb zr) zr) = 0%nat.
Proof. unfold count_true. induction zr as [|[|] zr IH]; simpl; auto. Qed.

Lemma filter_numeric_take m (cols : list (string * Series)) :
  filter (fun col => Ser.is_numeric (snd col))
         (map (fun col => (fst col, Ser.take m (snd col))) cols)
  = map (fun col => (fst col, Ser.take m (snd col)))
        (filter (fun col => Ser.is_numeric (snd col)) cols).
Proof.
  induction cols as [|[n s] cols IH]; simpl; auto.
  destruct s; simpl; rewrite IH; reflexivity.
Qed.

Lemma zero_rows_length n cols : forall acc,
  Forall (fun col : string * Series => Ser.len (snd col) = n) cols ->
  List.length acc = n ->
  List.length
    (fold_left (fun m (col : string * Series) =>
                  mask_and m (map (Cell.eq_number 0) (Ser.cells (snd col))))
               cols acc) = n.
Proof.
  induction cols as [|[c s] cols IH]; intros acc A L; simpl; auto.
  inversion A as [|? ? Hs Hc]; subst. simpl in Hs.
  apply IH; auto. rewrite mask_and_length; auto.
  rewrite length_map, cells_length. lia.
Qed.

Lemma zero_rows_take m cols : forall acc,
  Forall (fun col : string * Series => Ser.len (snd col) = List.length m) cols ->
  List.length acc = List.length m ->
  fold_left (fun k (col : string * Series) =>
               mask_and k (map (Cell.eq_number 0) (Ser.cells (snd col))))
            (map (fun col => (fst col, Ser.take m (snd col))) cols)
            (mask_filter m acc)
  = mask_filter m
      (fold_left (fun k (col : string * Series) =>
                    mask_and k (map (Cell.eq_number 0) (Ser.cells (snd col))))
                 cols acc).
Proof.
  induction cols as [|[c s] cols IH]; intros acc A L; simpl; auto.
  inversion A as [|? ? Hs Hc]; subst. simpl in Hs.
  rewrite cells_take, <- mask_filter_map.
  rewrite <- mask_filter_mask_and
    by (rewrite length_map, cells_length; lia).
  apply IH; auto. rewrite mask_and_length; auto.
  rewrite length_map, cells_length. lia.
Qed.

Lemma dataset2_filter_idempotent df :
  DF.aligned df ->
  Dataset2.apply_filters (Dataset2.apply_filters df) = Dataset2.apply_filters df.
Proof.
  intros A. unfold Dataset2.apply_filters at 2.
  set (numeric := filter (fun col => Ser.is_numeric (snd col)) (columns df)).
  destruct (0 <? List.length numeric)%nat eqn:N.
  - set (zr := fold_left
                 (fun m col => mask_and m (map (Cell.eq_number 0) (Ser.cells (snd col))))
                 numeric (repeat true (DF.len df))).
    assert (An : Forall (fun col : string * Series => Ser.len (snd col) = DF.len df)
                        numeric).
    { unfold numeric. apply Forall_forall. intros col Hc.
      apply filter_In in Hc as [Hc _].
      unfold DF.aligned in A. rewrite Forall_forall in A. auto. }
    assert (Lz : List.length zr = DF.len df)
      by (apply zero_rows_length; auto; apply repeat_length).
    destruct (0 <? count_true zr)%nat eqn:Z.
    + unfold Dataset2.apply_filters.
      cbn [columns DF.loc]. rewrite filter_numeric_take. fold numeric.
      rewrite length_map, N.
      assert (Lm : List.length (map negb zr) = DF.len df)
        by (rewrite length_map; exact Lz).
      assert (E : DF.len (DF.loc df (map negb zr)) = count_true (map negb zr))
        by (unfold DF.len, DF.loc; simpl; apply mask_filter_count; exact Lm).
      fold (DF.loc df (map negb zr)). rewrite E.
      rewrite <- mask_filter_repeat_true.
      rewrite zero_rows_take;
        [| rewrite Lm; exact An | rewrite repeat_length; reflexivity].
      rewrite Lm. fold zr. rewrite count_true_negb_self, Z. reflexivity.
    + unfold Dataset2.apply_filters. fold numeric. rewrite N. fold zr. rewrite Z.
      reflexivity.
  - unfold Dataset2.apply_filters. fold numeric. rewrite N. reflexivity.
Qed.

Lemma nth_mask_and a : forall b i,
  nth i (mask_and a b) false = nth i a false && nth i b false.
Proof.
  induction a as [|x a IH]; intros [|y b] [|i]; simpl; auto;
    try (destruct x; reflexivity); try (rewrite andb_false_r; reflexivity).
Qed.

Lemma nth_zero_cells i (col : string * Series) :
  nth i (map (Cell.eq_number 0) (Ser.cells (snd col))) false = zero_at i col.
Proof.
  unfold zero_at. generalize (Ser.cells (snd col)) as l. intros l. revert i.
  induction l as [|c l IH]; intros [|i]; simpl; auto.
Qed.

(** the mask the filter folds over the numeric columns is, row by row,
    the conjunction of the zero tests of that row *)
Lemma zero_rows_nth (cols : list (string * Series)) : forall acc i,
  nth i (fold_left (fun m (col : string * Series) =>
                      mask_and m (map (Cell.eq_number 0) (Ser.cells (snd col))))
                   cols acc) false
  = nth i acc false && forallb (zero_at i) cols.
Proof.
  induction cols as [|col cols IH]; intros acc i; cbn [fold_left forallb].
  - rewrite andb_true_r. reflexivity.
  - rewrite IH, nth_mask_and, nth_zero_cells, andb_assoc. reflexivity.
Qed.

Lemma nth_repeat_true n i : (i < n)%nat -> nth i (repeat true n) false = true.
Proof.
  revert i; induction n as [|n IH]; intros [|i] H; simpl; auto; try lia.
  apply IH. lia.
Qed.

Lemma zero_rows_spec df :
  DF.aligned df ->
  fold_left (fun m (col : string * Series) =>
               mask_and m (map (Cell.eq_number 0) (Ser.cells (snd col))))
            (filter (fun col => Ser.is_numeric (snd col)) (columns df))
            (repeat true (DF.len df))
  = map (all_zero_row df) (seq 0 (DF.len df)).
Proof.
  intros A.
  assert (An : Forall (fun col : string * Series => Ser.len (snd col) = DF.len df)
                      (filter (fun col => Ser.is_numeric (snd col)) (columns df))).
  { apply Forall_forall. intros col Hc. apply filter_In in Hc as [Hc _].
    unfold DF.aligned in A. rewrite Forall_forall in A. auto. }
  apply (nth_ext _ _ false false).
  - rewrite length_map, length_seq.
    apply (@zero_rows_length (DF.len df)); auto. apply repeat_length.
  - intros i Hi.
    rewrite (@zero_rows_length (DF.len df)) in Hi; auto using repeat_length.
    rewrite zero_rows_nth, nth_repeat_true by exact Hi.
    rewrite (nth_indep _ false (all_zero_row df 0)) by (rewrite length_map, length_seq; exact Hi).
    rewrite map_nth, seq_nth by exact Hi. reflexivity.
Qed.

Lemma count_true_repeat_true n : count_true (repeat true n) = n.
Proof. unfold count_true. induction n; simpl; auto. Qed.

(** X18. On a frame whose columns are as long as its index and which has
    a numeric column, the Dataset2 [apply_filters] leaves no row whose
    numeric cells are all zero, and keeps as many rows as the frame has
    rows with a non-zero numeric cell. With or without a numeric column,
    a second application returns its argument unchanged. *)
Theorem dataset2_filter_leaves_no_zero_row (df : DataFrame) :
  DF.aligned df ->
  (has_numeric_column df ->
   (forall i, (i < DF.len (Dataset2.apply_filters df))%nat ->
      all_zero_row (Dataset2.apply_filters df) i = false) /\
   DF.len (Dataset2.apply_filters df)
   = List.length (filter (fun i => negb (all_zero_row df i)) (seq 0 (DF.len df)))) /\
  Dataset2.apply_filters (Dataset2.apply_filters df) = Dataset2.apply_filters df.
Proof.
  intros A. split; [|apply dataset2_filter_idempotent; exact A].
  intros (col & Hin & Hnum).
  assert (N : forall d, columns d = columns df \/ (exists m, d = DF.loc df m) ->
              (0 <? List.length (filter (fun col => Ser.is_numeric (snd col))
                                        (columns d)))%nat = true).
  { intros d [E|[m ->]]; apply Nat.ltb_lt.
    - rewrite E. assert (I : In col (filter (fun col => Ser.is_numeric (snd col))
                                            (columns df)))
        by (apply filter_In; auto).
      destruct (filter _ _); [destruct I | simpl; lia].
    - cbn [columns DF.loc]. rewrite filter_numeric_take, length_map.
      assert (I : In col (filter (fun col => Ser.is_numeric (snd col)) (columns df)))
        by (apply filter_In; auto).
      destruct (filter _ _); [destruct I | simpl; lia]. }
  assert (S : columns (Dataset2.apply_filters df) = columns df \/
              exists m, Dataset2.apply_filters df = DF.loc df m).
  { unfold Dataset2.apply_filters. destruct (0 <? List.length _)%nat; auto.
    destruct (0 <? count_true _)%nat; eauto. }
  assert (A' : DF.aligned (Dataset2.apply_filters df)).
  { unfold Dataset2.apply_filters. destruct (0 <? List.length _)%nat; auto.
    destruct (0 <? count_true _)%nat; auto using aligned_loc. }
  split.
  - pose proof (dataset2_filter_idempotent A) as I.
    set (df' := Dataset2.apply_filters df) in *.
    unfold Dataset2.apply_filters in I at 1. rewrite (N df' S) in I.
    rewrite (zero_rows_spec A') in I.
    set (zr := map (all_zero_row df') (seq 0 (DF.len df'))) in *.
    assert (Lz : List.length zr = DF.len df')
      by (unfold zr; rewrite length_map, length_seq; reflexivity).
    assert (Z : count_true zr = 0%nat).
    { destruct (0 <? count_true zr)%nat eqn:C; [|apply Nat.ltb_ge in C; lia].
      apply Nat.ltb_lt in C. exfalso.
      assert (L : DF.len (DF.loc df' (map negb zr)) = DF.len df') by (rewrite I; reflexivity).
      unfold DF.len at 1 in L. cbn [index DF.loc] in L.
      rewrite mask_filter_count in L by (rewrite length_map; exact Lz).
      pose proof (count_true_negb zr). unfold DF.len in *. lia. }
    intros i Hi. apply count_true_zero in Z.
    assert (E : nth i zr false = false) by (rewrite Z; apply nth_repeat).
    unfold zr in E.
    rewrite (nth_indep _ false (all_zero_row df' 0)) in E
      by (rewrite length_map, length_seq; exact Hi).
    rewrite map_nth, seq_nth in E by exact Hi. exact E.
  - unfold Dataset2.apply_filters. rewrite (N df (or_introl eq_refl)).
    rewrite (zero_rows_spec A).
    set (zr := map (all_zero_row df) (seq 0 (DF.len df))).
    assert (Lz : List.length zr = DF.len df)
      by (unfold zr; rewrite length_map, length_seq; reflexivity).
    assert (K : count_true (map negb zr)
                = List.length (filter (fun i => negb (all_zero_row df i))
                                      (seq 0 (DF.len df))))
      by (unfold zr; rewrite map_map; apply count_true_map).
    rewrite <- K.
    destruct (0 <? count_true zr)%nat eqn:C.
    + unfold DF.len at 1. cbn [index DF.loc].
      apply mask_filter_count. rewrite length_map. exact Lz.
    + apply Nat.ltb_ge in C. pose proof (count_true_negb zr). lia.
Qed.

Lemma dataset2_filter_leaves_no_zero_row_witness :
  (forall i, (i < DF.len (Dataset2.apply_filters zero_frame))%nat ->
     all_zero_row (Dataset2.apply_filters zero_frame) i = false) /\
  DF.len (Dataset2.apply_filters zero_frame) = 2%nat /\
  all_zero_row zero_frame 1 = true.
Proof.
  assert (A : DF.aligned zero_frame) by repeat constructor.
  assert (H : has_numeric_column zero_frame)
    by (exists ("volume", Float64 [Fin 3; Fin 0; Fin 0]); split; [simpl; auto|reflexivity]).
  pose proof (proj1 (@dataset2_filter_leaves_no_zero_row zero_frame A) H) as [P L].
  split; [exact P|]. split; [rewrite L; reflexivity | reflexivity].
Defined.

(** ** Which filters run, and what they report *)

Lemma has_loc df m c : DF.has (DF.loc df m) c = DF.has df c.
Proof. unfold DF.has. rewrite getitem_loc. destruct (DF.getitem df c); reflexivity. Qed.

Lemma has_setitem_other df c c' v :
  c <> c' -> DF.has (DF.setitem df c v) c' = DF.has df c'.
Proof. intros N. unfold DF.has. rewrite getitem_setitem_other by auto. reflexivity. Qed.

Lemma reit_guarded_applied c name text f st st' :
  REIT.guarded c name text f st = Returned st' ->
  snd (fst st') = snd (fst st) ++ (if DF.has (fst (fst st)) c then [name] else []) /\
  List.length (snd st')
  = (List.length (snd st) + (if DF.has (fst (fst st)) c then 1 else 0))%nat.
Proof.
  destruct st as [[df ap] pr]. unfold REIT.guarded. simpl.
  destruct (DF.has df c); intros H.
  - step_in H. destruct a as [d n]. inv H. simpl. rewrite length_app. simpl. auto.
  - inv H. simpl. rewrite app_nil_r. auto.
Qed.

(** X19. The summary of the REIT [apply_filters]: a filter is recorded as
    applied exactly when the column it needs is in the frame passed in, in
    the fixed order of the five filters; one line is printed per applied
    filter; and the row counts of the summary are those of the input and
    of the returned frame. *)
Theorem reit_filters_applied_follow_the_schema
  (to_datetime : Series -> outcome (list (option Timestamp)))
  (df df' : DataFrame) (s : REIT.filter_summary) (out : list filter_report) :
  REIT.apply_filters to_datetime df = Returned (df', s, out) ->
  REIT.filters_applied s
  = map snd (filter (fun p => DF.has df (fst p)) reit_filter_table) /\
  List.length out = List.length (REIT.filters_applied s) /\
  REIT.f_rows_before s = DF.len df /\
  REIT.f_rows_after s = DF.len df'.
Proof.
  unfold REIT.apply_filters. intros H.
  step_in H. rename a into s1, E into E1.
  step_in H. rename a into s2, E into E2.
  step_in H. rename a into s3, E into E3.
  step_in H. rename a into s4, E into E4.
  step_in H. rename a into s5, E into E5.
  destruct s5 as [[d5 a5] p5]. inv H. simpl.
  set (I := fun d : DataFrame => forall c, "year" <> c -> DF.has d c = DF.has df c).
  assert (L : forall f : DataFrame -> outcome (DataFrame * Z),
             (forall d d' n, f d = Returned (d', n) -> exists m, d' = DF.loc d m) ->
             forall d d' n, REIT.counted f d = Returned (d', n) -> I d -> I d').
  { intros f Hf d d' n Hc Id. unfold REIT.counted in Hc. step_in Hc.
    destruct a as [d0 k]. inv Hc. destruct (Hf _ _ _ E) as [m ->].
    intros c Hy. rewrite has_loc. auto. }
  assert (I1 : I (fst (fst s1))).
  { refine (@reit_guarded_invariant I _ _ _ _ _ _ _ E1 _); [|intros c _; reflexivity].
    intros d d' n Hd Id. step_in Hd. inv Hd.
    unfold REIT.filter_year in E. destruct (DF.getitem d "date"); [|discriminate].
    do 3 step_in E. inv E. intros c Hy.
    rewrite has_loc, has_setitem_other by auto. auto. }
  assert (I2 : I (fst (fst s2)))
    by (refine (@reit_guarded_invariant I _ _ _ _ _ _ _ E2 I1);
        apply L, reit_filter_assets_loc).
  assert (I3 : I (fst (fst s3)))
    by (refine (@reit_guarded_invariant I _ _ _ _ _ _ _ E3 I2);
        apply L, reit_filter_returns_loc).
  assert (I4 : I (fst (fst s4)))
    by (refine (@reit_guarded_invariant I _ _ _ _ _ _ _ E4 I3);
        apply L, reit_filter_prices_loc).
  apply reit_guarded_applied in E1 as [A1 P1].
  apply reit_guarded_applied in E2 as [A2 P2].
  apply reit_guarded_applied in E3 as [A3 P3].
  apply reit_guarded_applied in E4 as [A4 P4].
  apply reit_guarded_applied in E5 as [A5 P5].
  simpl in A1, P1, A5, P5.
  rewrite (I1 "assets") in A2, P2 by discriminate.
  rewrite (I2 "usdret") in A3, P3 by discriminate.
  rewrite (I3 "usdprc") in A4, P4 by discriminate.
  rewrite (I4 "rtype") in A5, P5 by discriminate.
  rewrite A5, A4, A3, A2, A1, P5, P4, P3, P2, P1.
  unfold reit_filter_table.
  destruct (DF.has df "date"), (DF.has df "assets"), (DF.has df "usdret"),
    (DF.has df "usdprc"), (DF.has df "rtype"); simpl; auto.
Qed.

Lemma reit_filters_applied_follow_the_schema_witness :
  exists df' s out,
    REIT.apply_filters to_datetime_iso dated_frame = Returned (df', s, out) /\
    REIT.filters_applied s = ["year_filter_2000_2024"].
Proof.
  destruct (REIT.apply_filters to_datetime_iso dated_frame) as [[[df' s] out]|e] eqn:E;
    [|vm_compute in E; discriminate].
  exists df', s, out. split; [reflexivity|].
  exact (proj1 (@reit_filters_applied_follow_the_schema _ _ _ _ _ E)).
Defined.

Lemma reported_total_app l r :
  reported_total (l ++ [r])
  = (reported_total l + match removed r with Some n => n | None => 0 end)%Z.
Proof.
  unfold reported_total. induction l as [|x l IH]; simpl.
  - destruct (removed r); lia.
  - rewrite IH. destruct (removed x), (removed r); lia.
Qed.

Lemma rows_removed_loc df m :
  (0 <= Climate.rows_removed df (DF.loc df m))%Z /\
  (Climate.rows_removed df (DF.loc df m) + Z.of_nat (DF.len (DF.loc df m))
   = Z.of_nat (DF.len df))%Z.
Proof.
  unfold Climate.rows_removed. pose proof (loc_len df m). split; lia.
Qed.

(** X20. The numbers the Climate filters print are row counts: none is
    negative, and together they never exceed the rows the chain removed
    (filters 1 and 6 print no count). *)
Theorem climate_reports_count_rows
  (to_datetime : Series -> outcome (list (option Timestamp)))
  (df df' : DataFrame) (out : list filter_report) :
  Climate.apply_filters to_datetime df = Returned (df', out) ->
  (forall r n, In r out -> removed r = Some n -> (0 <= n)%Z) /\
  (reported_total out <= Z.of_nat (DF.len df) - Z.of_nat (DF.len df'))%Z.
Proof.
  unfold Climate.apply_filters. intros H.
  step_in H. destruct a as [d1 o1]. rename E into E1.
  step_in H. destruct a as [d2 o2]. rename E into E2.
  step_in H. destruct a as [d3 o3]. rename E into E3.
  step_in H. destruct a as [d4 o4]. rename E into E4.
  step_in H. destruct a as [d5 o5]. rename E into E5.
  step_in H. destruct a as [d6 o6]. rename E into E6. inv H.
  set (J := fun (d : DataFrame) (o : list filter_report) =>
              (forall r n, In r o -> removed r = Some n -> (0 <= n)%Z) /\
              (reported_total o + Z.of_nat (DF.len d) <= Z.of_nat (DF.len df))%Z).
  assert (Jsilent : forall d o m text,
             J d o -> J (DF.loc d m) (o ++ [mkReport text None])).
  { intros d o m text [P Q]. split.
    - intros r n Hr. apply in_app_iff in Hr as [Hr|[<-|[]]]; eauto. discriminate.
    - rewrite reported_total_app. simpl. pose proof (loc_len d m). lia. }
  assert (Jcount : forall d o m text,
             J d o ->
             J (DF.loc d m)
               (o ++ [mkReport text (Some (Climate.rows_removed d (DF.loc d m)))])).
  { intros d o m text [P Q]. destruct (rows_removed_loc d m) as [R0 R1]. split.
    - intros r n Hr. apply in_app_iff in Hr as [Hr|[<-|[]]]; eauto.
      simpl. intros E; inv E. exact R0.
    - rewrite reported_total_app. simpl. lia. }
  assert (Jloc : forall d o m, J d o -> J (DF.loc d m) o).
  { intros d o m [P Q]. split; auto. pose proof (loc_len d m). lia. }
  assert (J1 : J d1 o1).
  { destruct (DF.has df "date").
    - step_in E1. inv E1. unfold Climate.filter_dates in E.
      destruct (DF.getitem df "date"); [|discriminate].
      step_in E. inv E. apply (Jsilent _ [] _ "Filter 1").
      split; [intros r n []|]. unfold DF.setitem, DF.len; simpl. lia.
    - inv E1. split; [intros r n []|simpl; lia]. }
  assert (J2 : J d2 o2).
  { destruct (DF.has d1 "stock_price"); [|inv E2; auto].
    step_in E2. destruct a as [d n]. inv E2.
    unfold Climate.filter_price in E.
    destruct (DF.getitem d1 "stock_price"); [|discriminate].
    step_in E. inv E. apply Jcount; auto. }
  assert (J3 : J d3 o3).
  { destruct (DF.has d2 "climate_score"); [|inv E3; auto].
    step_in E3. destruct a as [d n]. inv E3.
    unfold Climate.filter_climate in E.
    destruct (DF.getitem d2 "climate_score"); [|discriminate].
    inv E. apply Jcount; auto. }
  assert (J4 : J d4 o4).
  { unfold Climate.filter_paired in E4. inv E4. apply Jcount; auto. }
  assert (J5 : J d5 o5).
  { destruct (DF.has d4 "returns"); [|inv E5; auto].
    step_in E5. destruct a as [d n]. inv E5.
    unfold Climate.filter_returns in E.
    destruct (DF.getitem d4 "returns"); [|discriminate].
    step_in E. inv E. apply Jcount; auto. }
  assert (J6 : J df' out).
  { destruct (DF.has d5 "ticker"); [|inv E6; auto].
    step_in E6. destruct a as [d n]. inv E6.
    unfold Climate.filter_companies in E.
    destruct (DF.getitem d5 "ticker"); [|discriminate].
    destruct (0 <? _)%nat; inv E; auto. }
  destruct J6 as [P Q]. split; [exact P | lia].
Qed.

Lemma climate_reports_count_rows_witness :
  exists df' out,
    Climate.apply_filters to_datetime_iso quotes_frame = Returned (df', out) /\
    (reported_total out <= 3 - Z.of_nat (DF.len df'))%Z.
Proof.
  destruct (Climate.apply_filters to_datetime_iso quotes_frame) as [[df' out]|e] eqn:E;
    [|vm_compute in E; discriminate].
  exists df', out. split; [reflexivity|].
  exact (proj2 (@climate_reports_count_rows _ _ _ _ E)).
Defined.

(** ** Missing values and the outlier rules *)

Lemma mask_or_map (A : Type) (f g : A -> bool) l :
  mask_or (map f l) (map g l) = map (fun x => f x || g x) l.
Proof. induction l; simpl; f_equal; auto. Qed.

(** NaN absorbs every binary64 sum it enters, in whatever order the sum
    is taken *)
Lemma b64_add_nan_l x : B64.add B64.nan x = B64.nan.
Proof. destruct x; reflexivity. Qed.

Lemma b64_add_nan_r x : B64.add x B64.nan = B64.nan.
Proof. destruct x; reflexivity. Qed.

Lemma b64_fold_nan_absorbs l : fold_left B64.add l B64.nan = B64.nan.
Proof. induction l as [|x l IH]; cbn [fold_left]; rewrite ?b64_add_nan_l; auto. Qed.

Lemma b64_fold_with_nan l : forall acc,
  In B64.nan l -> fold_left B64.add l acc = B64.nan.
Proof.
  induction l as [|x l IH]; intros acc H; [destruct H|].
  cbn [fold_left]. destruct H as [->|H]; [|auto].
  rewrite b64_add_nan_r. apply b64_fold_nan_absorbs.
Qed.

Lemma b64_fold_from_nan l acc :
  acc = B64.nan \/ In B64.nan l -> fold_left B64.add l acc = B64.nan.
Proof.
  intros [->|H]; [apply b64_fold_nan_absorbs | apply b64_fold_with_nan; auto].
Qed.

Ltac nan_sum :=
  repeat match goal with
         | H : _ \/ _ |- _ => destruct H
         | H : In _ (_ :: _) |- _ => destruct H
         | H : In _ [] |- _ => destruct H
         | H : _ = B64.nan |- _ => rewrite H
         | H : B64.nan = _ |- _ => rewrite <- H
         end;
  rewrite ?b64_add_nan_l, ?b64_add_nan_r; auto.

Lemma b64_sum8_nan n : forall xs r0 r1 r2 r3 r4 r5 r6 r7,
  (List.length xs <= n)%nat ->
  (r0 = B64.nan \/ r1 = B64.nan \/ r2 = B64.nan \/ r3 = B64.nan \/
   r4 = B64.nan \/ r5 = B64.nan \/ r6 = B64.nan \/ r7 = B64.nan) \/
  In B64.nan xs ->
  B64.sum8 r0 r1 r2 r3 r4 r5 r6 r7 xs = B64.nan.
Proof.
  induction n as [|n IH]; intros xs r0 r1 r2 r3 r4 r5 r6 r7 L H.
  - destruct xs; [|simpl in L; lia]. cbn [B64.sum8].
    apply b64_fold_from_nan. left.
    destruct H as [H|[]]. nan_sum;
      rewrite ?b64_add_nan_l, ?b64_add_nan_r; reflexivity.
  - destruct xs as [|a0 [|a1 [|a2 [|a3 [|a4 [|a5 [|a6 [|a7 rest]]]]]]]];
      cbn [B64.sum8];
      try (apply b64_fold_from_nan; destruct H as [H|H]; [left|right; exact H];
           nan_sum; rewrite ?b64_add_nan_l, ?b64_add_nan_r; reflexivity).
    apply IH; [simpl in L; lia|].
    destruct H as [H|H].
    + left. nan_sum; rewrite ?b64_add_nan_l; auto 10.
    + cbn [In] in H. nan_sum; rewrite ?b64_add_nan_r; auto 10.
Qed.

Lemma b64_block_sum_nan xs : In B64.nan xs -> B64.block_sum xs = B64.nan.
Proof.
  intros H. unfold B64.block_sum.
  destruct xs as [|a0 [|a1 [|a2 [|a3 [|a4 [|a5 [|a6 [|a7 rest]]]]]]]];
    try (apply b64_fold_with_nan; exact H).
  apply (@b64_sum8_nan (List.length rest)); [lia|].
  cbn [In] in H. nan_sum; auto 10.
Qed.

Lemma b64_pairwise_sum_nan fuel : forall xs,
  In B64.nan xs -> B64.pairwise_sum fuel xs = B64.nan.
Proof.
  induction fuel as [|fuel IH]; intros xs H; cbn [B64.pairwise_sum]; cbv zeta;
    destruct (List.length xs <=? 128)%nat; try (apply b64_block_sum_nan; exact H).
  set (k := (List.length xs / 2 - (List.length xs / 2) mod 8)%nat).
  rewrite <- (firstn_skipn k xs) in H. apply in_app_or in H as [H|H].
  - rewrite (IH _ H). apply b64_add_nan_l.
  - rewrite (IH _ H). apply b64_add_nan_r.
Qed.

Lemma b64_mean_nan xs : In B64.nan xs -> B64.mean xs = B64.nan.
Proof.
  intros H. unfold B64.mean, B64.sum. rewrite (b64_pairwise_sum_nan _ _ H).
  rewrite b64_add_nan_r. apply b64_div_nan.
Qed.

Lemma b64_sub_nan_r x : B64.sub x B64.nan = B64.nan.
Proof. destruct x; reflexivity. Qed.

(** the REIT z-score mask is computed cell by cell, and is false at NaN *)
Lemma reit_zscore_pointwise s t :
  exists f : float -> bool,
    REIT.identify_outliers_zscore s t = map f (Ser.floats s) /\ f NaN = false.
Proof.
  unfold REIT.identify_outliers_zscore, Ser.b64. cbv zeta.
  destruct (Ser.floats s) as [|x l] eqn:E.
  - exists (fun _ => false). split; reflexivity.
  - rewrite <- E. set (xs := map B64.of_float (Ser.floats s)).
    assert (X : exists first rest, xs = first :: rest)
      by (unfold xs; rewrite E; simpl; eauto).
    destruct X as (first & rest & X). unfold B64.zscore. rewrite X, <- X.
    destruct (forallb (B64.eqb first) xs).
    + exists (fun _ => B64.ltb (B64.of_Q t) (B64.abs B64.nan)).
      split; [unfold xs; rewrite !map_map; reflexivity | apply b64_nan_not_above].
    + exists (fun x => B64.ltb (B64.of_Q t)
                         (B64.abs (B64.div (B64.sub (B64.of_float x) (B64.mean xs))
                                           (B64.std 0 xs)))).
      split; [unfold xs; rewrite !map_map; reflexivity | apply b64_z_of_nan].
Qed.

(** X21. A missing value is never an outlier: the IQR rule, the REIT
    z-score rule and the Climate z-score rule all leave the mask false at
    every missing cell. Under the REIT z-score rule one missing value in
    the column silences the rule for the whole column, because mean and
    deviation are taken over all cells. *)
Theorem missing_values_are_never_outliers (s : Series) (k t : Q) :
  (forall i, nth i (Ser.floats s) (Fin 0) = NaN ->
     nth i (REIT.identify_outliers_iqr s k) false = false /\
     nth i (REIT.identify_outliers_zscore s t) false = false /\
     nth i (Climate.zscore_mask s t) false = false) /\
  (In NaN (Ser.floats s) ->
   REIT.identify_outliers_zscore s t = repeat false (List.length (Ser.floats s))).
Proof.
  split.
  - intros i H.
    assert (M : forall f : float -> bool, f NaN = false ->
                nth i (map f (Ser.floats s)) false = false).
    { intros f Hf. destruct (Nat.lt_ge_cases i (List.length (Ser.floats s))) as [L|L].
      - rewrite (nth_indep _ false (f (Fin 0))) by (rewrite length_map; exact L).
        rewrite map_nth, H. exact Hf.
      - apply nth_overflow. rewrite length_map. exact L. }
    split; [|split].
    + unfold REIT.identify_outliers_iqr. cbv zeta. rewrite mask_or_map.
      apply M. unfold Float.gtb. simpl.
      destruct (Float.add _ _); reflexivity.
    + destruct (reit_zscore_pointwise s t) as (f & -> & Hf). apply M, Hf.
    + unfold Climate.zscore_mask, Ser.b64. cbv zeta. rewrite !map_map.
      apply M. apply b64_z_of_nan.
  - intros H.
    assert (N : In B64.nan (Ser.b64 s))
      by (unfold Ser.b64; apply in_map_iff; exists NaN; auto).
    unfold REIT.identify_outliers_zscore. cbv zeta. rewrite <- b64_length.
    set (xs := Ser.b64 s) in *. unfold B64.zscore.
    destruct xs as [|first rest] eqn:X; [reflexivity|]. rewrite <- X in *.
    destruct (forallb (B64.eqb first) xs); rewrite map_map;
      apply count_true_all_false; intros x _.
    + apply b64_nan_not_above.
    + rewrite (b64_mean_nan _ N), b64_sub_nan_r, b64_div_nan.
      apply b64_nan_not_above.
Qed.

(** ** What [clean_missing_values] reports and what it leaves alone *)

Lemma unique_label (cols : list (string * Series)) a b :
  NoDup (map fst cols) -> In a cols -> In b cols -> fst a = fst b -> a = b.
Proof.
  induction cols as [|x cols IH]; simpl; [tauto|].
  intros ND Ha Hb E. inversion ND as [|? ? Hn ND']; subst.
  destruct Ha as [->|Ha], Hb as [->|Hb]; auto.
  - exfalso. apply Hn. rewrite E. apply in_map; auto.
  - exfalso. apply Hn. rewrite <- E. apply in_map; auto.
Qed.

Lemma dropped_by_label (p : string * Series -> bool) cols col :
  NoDup (map fst cols) -> In col cols ->
  existsb (String.eqb (fst col)) (map fst (filter p cols)) = p col.
Proof.
  intros ND Hin. destruct (p col) eqn:P.
  - apply existsb_exists. exists (fst col). split; [|apply String.eqb_refl].
    apply in_map, filter_In; auto.
  - destruct (existsb _ _) eqn:X; auto.
    apply existsb_exists in X as (n & Hn & E). apply String.eqb_eq in E.
    apply in_map_iff in Hn as (c' & Ec & Hc). apply filter_In in Hc as [Hc Pc].
    assert (c' = col) by (apply (unique_label cols); auto; congruence).
    congruence.
Qed.

Lemma drop_ncols_exact df (p : string * Series -> bool) :
  NoDup (DF.names df) ->
  (DF.ncols (DF.drop df (map fst (filter p (columns df))))
   + List.length (filter p (columns df)) = DF.ncols df)%nat.
Proof.
  intros ND. unfold DF.ncols, DF.drop; simpl.
  rewrite (filter_ext_in _ (fun col => negb (p col)))
    by (intros col Hc; rewrite dropped_by_label; auto).
  rewrite Nat.add_comm. apply filter_length.
Qed.

(** X22. The summary the REIT [clean_missing_values] returns adds up on a
    frame with distinct column labels: the row count is unchanged, the
    columns after plus the columns dropped are the columns before, and the
    counts are those of the input and of the returned frame. *)
Theorem clean_missing_values_summary_adds_up (df df' : DataFrame) (th : Q)
  (sm : REIT.missing_summary) :
  NoDup (DF.names df) ->
  REIT.clean_missing_values df th = Returned (df', sm) ->
  REIT.rows_before sm = DF.len df /\
  REIT.rows_after sm = DF.len df /\
  index df' = index df /\
  REIT.cols_before sm = DF.ncols df /\
  REIT.cols_after sm = DF.ncols df' /\
  (REIT.cols_after sm + REIT.cols_dropped sm = REIT.cols_before sm)%nat.
Proof.
  intros ND H.
  destruct (reit_clean_columns df th ND) as (d & s & E & N & I & _).
  rewrite E in H. inv H.
  unfold REIT.clean_missing_values in E. step_in E. inv E. simpl.
  assert (L : DF.len df' = DF.len df) by (unfold DF.len; rewrite I; reflexivity).
  assert (K : DF.ncols df' = DF.ncols (REIT.drop_excessive df th)).
  { unfold DF.ncols. rewrite <- (length_map fst (columns df')).
    rewrite <- (length_map fst (columns (REIT.drop_excessive df th))).
    fold (DF.names df'). rewrite N. reflexivity. }
  repeat (split; auto).
  rewrite K. unfold REIT.drop_excessive, REIT.cols_to_drop. rewrite length_map.
  destruct (0 <? _)%nat eqn:Z.
  - apply drop_ncols_exact; auto.
  - apply Nat.ltb_ge in Z. lia.
Qed.

Lemma clean_missing_values_summary_adds_up_witness :
  exists df' sm,
    REIT.clean_missing_values patchy_frame REIT.MISSING_VALUE_THRESHOLD
      = Returned (df', sm) /\
    REIT.cols_dropped sm = 1%nat /\
    (REIT.cols_after sm + REIT.cols_dropped sm = REIT.cols_before sm)%nat.
Proof.
  destruct (REIT.clean_missing_values patchy_frame REIT.MISSING_VALUE_THRESHOLD)
    as [[df' sm]|e] eqn:E; [|vm_compute in E; discriminate].
  exists df', sm. split; [reflexivity|].
  assert (ND : NoDup (DF.names patchy_frame))
    by (repeat constructor; simpl; intuition discriminate).
  split; [vm_compute in E; inv E; reflexivity|].
  exact (proj2 (proj2 (proj2 (proj2 (proj2
           (@clean_missing_values_summary_adds_up _ _ _ _ ND E)))))).
Defined.

Lemma fillna_keeps v xs i x :
  nth_error (map CFloat xs) i = Some x -> cell_present x = true ->
  nth_error (map CFloat (Ser.fillna_float v xs)) i = Some x.
Proof.
  unfold Ser.fillna_float. rewrite !nth_error_map.
  destruct (nth_error xs i) as [y|]; simpl; [|discriminate].
  intros H P. inv H. unfold cell_present in P; simpl in P.
  destruct (Float.isnan y); [discriminate|reflexivity].
Qed.

Lemma fill_keeps (A : Type) (inj : A -> cell) (v : A) xs i x :
  nth_error (map (fun o => match o with Some a => inj a | None => CNone end) xs) i
    = Some x ->
  cell_present x = true ->
  nth_error (map (fun o => match o with Some a => inj a | None => CNone end) (fill v xs)) i
    = Some x.
Proof.
  unfold fill. rewrite !nth_error_map.
  destruct (nth_error xs i) as [[a|]|]; simpl; try discriminate; auto.
  intros H P. inv H. discriminate.
Qed.

Lemma nothing_present_without_mode (A : Type) (eqb ltb : A -> A -> bool) xs i a :
  mode_of eqb ltb (present xs) = None -> nth_error xs i = Some (Some a) -> False.
Proof.
  intros M H.
  assert (Ne : present xs <> []).
  { apply nth_error_In in H. unfold present. intros E.
    assert (In a (flat_map (fun o => match o with Some a => [a] | None => [] end) xs))
      by (apply in_flat_map; exists (Some a); simpl; auto).
    rewrite E in H0. destruct H0. }
  destruct (mode_of_nonempty eqb ltb Ne) as [v Hv]. congruence.
Qed.

Lemma reit_impute_keeps s i x :
  nth_error (Ser.cells s) i = Some x -> cell_present x = true ->
  nth_error (Ser.cells (REIT.impute s)) i = Some x.
Proof.
  destruct s as [xs|xs|xs|xs]; simpl; auto.
  - apply fillna_keeps.
  - apply (fill_keeps CStr).
  - destruct (mode_of Time.eqb Time.ltb (present xs)) eqn:M.
    + apply (fill_keeps CTime).
    + rewrite nth_error_map. destruct (nth_error xs i) as [[a|]|] eqn:E;
        simpl; try discriminate.
      * intros _ _. exfalso. eapply nothing_present_without_mode; eauto.
      * intros H P. inv H. discriminate.
Qed.

Lemma climate_impute_keeps s i x :
  nth_error (Ser.cells s) i = Some x -> cell_present x = true ->
  nth_error (Ser.cells (Climate.impute s)) i = Some x.
Proof.
  destruct s as [xs|xs|xs|xs]; simpl; auto.
  - apply fillna_keeps.
  - apply (fill_keeps CStr).
  - destruct (mode_of Time.eqb Time.ltb (present xs)) eqn:M; auto.
    apply (fill_keeps CTime).
Qed.

(** X23. [clean_missing_values] never overwrites an observed value: on a
    frame with distinct column labels, every column of the result is a
    column of the input, of the same length, and every cell that was
    present in the input holds the same value at the same position in
    the result -- in both scripts. *)
Theorem clean_missing_values_keeps_observed_values (df : DataFrame) (th : Q) :
  NoDup (DF.names df) ->
  (forall df' sm c s',
      REIT.clean_missing_values df th = Returned (df', sm) ->
      DF.getitem df' c = Some s' ->
      exists s, DF.getitem df c = Some s /\ Ser.len s' = Ser.len s /\
        forall i x, nth_error (Ser.cells s) i = Some x -> cell_present x = true ->
                    nth_error (Ser.cells s') i = Some x) /\
  (forall mode df' c s',
      Climate.clean_missing_values mode df th = Returned df' ->
      DF.getitem df' c = Some s' ->
      exists s, DF.getitem df c = Some s /\ Ser.len s' = Ser.len s /\
        forall i x, nth_error (Ser.cells s) i = Some x -> cell_present x = true ->
                    nth_error (Ser.cells s') i = Some x).
Proof.
  intros ND. split.
  - intros df' sm c s' H G'.
    destruct (reit_clean_columns df th ND) as (d & m & E & _ & _ & G).
    rewrite E in H. inv H. rewrite G in G'.
    destruct (DF.getitem (REIT.drop_excessive df th) c) as [s|] eqn:G1; [|discriminate].
    simpl in G'. inv G'. destruct (reit_survivor df th c G1) as [Hin _].
    exists s. split; [apply In_lookup_NoDup; auto|].
    unfold reit_imputed. destruct (0 <? _)%nat; [|auto].
    split; [apply reit_impute_len | apply reit_impute_keeps].
  - intros mode df' c s' H G'.
    destruct (climate_clean_columns mode df th ND) as (d & E & _ & _ & G).
    rewrite E in H. inv H. rewrite G in G'.
    destruct (DF.getitem (Climate.drop_excessive df th) c) as [s|] eqn:G1; [|discriminate].
    simpl in G'. inv G'. destruct (climate_survivor df th c G1) as [Hin _].
    exists s. split; [apply In_lookup_NoDup; auto|].
    unfold climate_imputed. destruct mode; [|auto].
    destruct (0 <? _)%nat; [|auto].
    split; [apply climate_impute_len | apply climate_impute_keeps].
Qed.

Lemma clean_missing_values_keeps_observed_values_witness :
  exists df',
    Climate.clean_missing_values WritesThrough patchy_frame Climate.MISSING_THRESHOLD = Returned df' /\
    forall s', DF.getitem df' "returns" = Some s' ->
      nth_error (Ser.cells s') 2 = Some (CFloat (Fin 3)).
Proof.
  destruct (Climate.clean_missing_values WritesThrough patchy_frame Climate.MISSING_THRESHOLD)
    as [df'|e] eqn:E; [|vm_compute in E; discriminate].
  exists df'. split; [reflexivity|]. intros s' G.
  assert (ND : NoDup (DF.names patchy_frame))
    by (repeat constructor; simpl; intuition discriminate).
  destruct (proj2 (@clean_missing_values_keeps_observed_values patchy_frame
                     Climate.MISSING_THRESHOLD ND) WritesThrough df' "returns" s' E G)
    as (s & Gs & _ & K).
  inv Gs. apply K; reflexivity.
Defined.

(** ** After imputation the Climate and Dataset2 stages only drop rows *)

Lemma mask_filter_nil (A : Type) m : mask_filter m (@nil A) = [].
Proof. destruct m; reflexivity. Qed.

Lemma mask_filter_compose (A : Type) m1 : forall m2 (l : list A),
  mask_filter m2 (mask_filter m1 l) = mask_filter (mask_compose m1 m2) l.
Proof.
  induction m1 as [|b m1 IH]; intros m2 l.
  - simpl. apply mask_filter_nil.
  - destruct l as [|x l]; [simpl; rewrite !mask_filter_nil; reflexivity|].
    destruct b; simpl; [|apply IH].
    destruct m2 as [|c m2]; simpl; [reflexivity|].
    destruct c; rewrite IH; reflexivity.
Qed.

Lemma take_compose m1 m2 s :
  Ser.take m2 (Ser.take m1 s) = Ser.take (mask_compose m1 m2) s.
Proof. destruct s; simpl; f_equal; apply mask_filter_compose. Qed.

Lemma loc_compose df m1 m2 :
  DF.loc (DF.loc df m1) m2 = DF.loc df (mask_compose m1 m2).
Proof.
  unfold DF.loc; simpl. f_equal; [apply mask_filter_compose|].
  rewrite map_map. apply map_ext. intros [n s]; simpl. f_equal. apply take_compose.
Qed.

Lemma row_selection_refl df : row_selection df df.
Proof. left; reflexivity. Qed.

Lemma row_selection_loc df m : row_selection df (DF.loc df m).
Proof. right; eauto. Qed.

Lemma row_selection_trans a b c :
  row_selection a b -> row_selection b c -> row_selection a c.
Proof.
  intros [->|[m1 ->]] [->|[m2 ->]]; auto using row_selection_refl, row_selection_loc.
  right. exists (mask_compose m1 m2). apply loc_compose.
Qed.

Lemma row_selection_zscore df th df' :
  Climate.handle_outliers_zscore df th = Returned df' -> row_selection df df'.
Proof.
  unfold Climate.handle_outliers_zscore. intros H. step_in H. inv H.
  apply (for_each_preserves (fun a b : DataFrame * nat =>
                               row_selection (fst a) (fst b))) in E; auto.
  - intros; apply row_selection_refl.
  - intros; eapply row_selection_trans; eauto.
  - intros [d k] col st'. unfold Climate.zscore_step.
    destruct (DF.getitem d col); [|discriminate].
    destruct (0 <? _)%nat; intros S; inv S; simpl;
      auto using row_selection_refl, row_selection_loc.
Qed.

Lemma row_selection_remove_duplicates df :
  row_selection df (Climate.remove_duplicates df).
Proof.
  unfold Climate.remove_duplicates, DF.drop_duplicates.
  destruct (0 <? _)%nat; [|apply row_selection_refl].
  destruct (DF.empty df); auto using row_selection_refl, row_selection_loc.
Qed.

Lemma row_selection_dataset2_filters df :
  row_selection df (Dataset2.apply_filters df).
Proof.
  unfold Dataset2.apply_filters.
  destruct (0 <? List.length _)%nat; [|apply row_selection_refl].
  destruct (0 <? count_true _)%nat; auto using row_selection_refl, row_selection_loc.
Qed.

(** X24. Outlier handling by z-score, duplicate removal and the Dataset2
    filter change no cell: each returns its input or a selection of its
    rows, so the frame the Dataset2 [main] saves is the imputed frame or a
    selection of its rows, columns and values untouched. *)
Theorem dataset2_stages_only_select_rows (df : DataFrame) :
  (forall th df',
      Climate.handle_outliers_zscore df th = Returned df' -> row_selection df df') /\
  row_selection df (Climate.remove_duplicates df) /\
  row_selection df (fst (REIT.remove_duplicates df)) /\
  row_selection df (Dataset2.apply_filters df) /\
  (forall mode stages saved,
      Dataset2.main mode df = (stages, Returned (Some saved)) ->
      exists imputed,
        Dataset2.clean_missing_values mode df Dataset2.MISSING_THRESHOLD = Returned imputed /\
        row_selection imputed saved /\
        DF.names saved = DF.names imputed).
Proof.
  split; [intros; eapply row_selection_zscore; eauto|].
  split; [apply row_selection_remove_duplicates|].
  split; [rewrite reit_remove_duplicates_table; apply row_selection_remove_duplicates|].
  split; [apply row_selection_dataset2_filters|].
  intros mode stages saved. unfold Dataset2.main.
  destruct (Dataset2.clean_missing_values mode df Dataset2.MISSING_THRESHOLD)
    as [d1|e]; [|intros H; inv H].
  unfold Dataset2.handle_outliers_zscore, Dataset2.remove_duplicates.
  destruct (Climate.handle_outliers_zscore d1 3) as [d2|e] eqn:E2; [|intros H; inv H].
  destruct (snd _); intros H; inv H.
  exists d1. split; [reflexivity|].
  assert (R : row_selection d1 (Dataset2.apply_filters (Climate.remove_duplicates d2))).
  { eapply row_selection_trans; [eapply row_selection_zscore; eauto|].
    eapply row_selection_trans; [apply row_selection_remove_duplicates|].
    apply row_selection_dataset2_filters. }
  split; [exact R|].
  destruct R as [->|[m ->]]; [reflexivity | apply names_loc].
Qed.
